(** * experience-layer: the knowledge lifecycle engine

    A shallow embedding of the episodic-memory service
    (src/types.ts, src/database/schema.ts, src/tools/*.ts) and the proofs of
    its specification.

    Conventions of the embedding.
    - A JavaScript number that carries a score, a confidence or a weight is a
      real number ([R]): arithmetic, [Math.exp] and [Math.log] are the exact
      real operations.  Identifiers, counters and millisecond timestamps are
      integers ([Z]); lengths are [nat].
    - [Date.now()] is the argument [now] of every operation: a call is
      synchronous and reads the clock as one instant.
    - A SQLite table is the list of its rows in rowid order; AUTOINCREMENT is
      the pair (rows, sequence).  [ORDER BY] is a stable sort of the scan.
    - Structured columns hold JSON text.  [JSON.stringify] and [JSON.parse]
      belong to the platform: the engine is written against the interface
      [JSON]; [mini_json] is an executable instance of it. *)

From Stdlib Require Import Reals Lra ZArith Lia List String Ascii Bool.
From Stdlib Require Import DecimalString Decimal DecimalZ Permutation Sorted.
From Stdlib Require HexadecimalString HexadecimalZ HexadecimalPos Strings.Byte.
From Stdlib Require Floats.
Import ListNotations.

Local Open Scope string_scope.
Local Open Scope Z_scope.
Local Open Scope R_scope.

(** ** Nested values (problem / solution / metadata payloads) *)

#[warnings="-register-all"]
Inductive json : Type :=
| JNull
| JBool (b : bool)
| JNum (n : Z)
| JStr (s : string)
| JArr (l : list json)
| JObj (m : list (string * json)).

(** JavaScript truthiness, as used by [x ? a : b]. *)
Definition truthy (v : json) : bool :=
  match v with
  | JNull => false
  | JBool b => b
  | JNum n => negb (n =? 0)%Z
  | JStr s => negb (s =? EmptyString)%string
  | JArr _ => true
  | JObj _ => true
  end.

Definition truthy_string (s : string) : bool := negb (s =? EmptyString)%string.

(** Property access [v.key] ([None] is [undefined]). *)
Fixpoint assoc (key : string) (m : list (string * json)) : option json :=
  match m with
  | [] => None
  | (k, v) :: m' => if (k =? key)%string then Some v else assoc key m'
  end.

Definition get_field (key : string) (v : json) : option json :=
  match v with
  | JObj m => assoc key m
  | _ => None
  end.

(** [v?.key] on an optional payload. *)
Definition opt_field (key : string) (v : option json) : option json :=
  match v with
  | Some o => get_field key o
  | None => None
  end.

(** [v?.key?.length ?? 0] for an array-valued field. *)
Definition field_length (key : string) (v : option json) : nat :=
  match opt_field key v with
  | Some (JArr l) => List.length l
  | Some (JStr s) => String.length s
  | _ => O
  end.

(** Strict equality [a === b] of two optional fields holding primitives;
    two objects or arrays obtained from different parses are never
    identical. *)
Definition strict_eq (a b : option json) : bool :=
  match a, b with
  | None, None => true
  | Some JNull, Some JNull => true
  | Some (JBool x), Some (JBool y) => Bool.eqb x y
  | Some (JNum x), Some (JNum y) => (x =? y)%Z
  | Some (JStr x), Some (JStr y) => (x =? y)%string
  | _, _ => false
  end.

(** The platform's JSON codec. *)
Class JSON : Type := {
  JSON_stringify : json -> string;
  JSON_parse : string -> json
}.

Definition json_of_ids (ids : list Z) : json := JArr (map JNum ids).
Definition ids_of_json (v : json) : list Z :=
  match v with
  | JArr l => map (fun x => match x with JNum n => n | _ => 0%Z end) l
  | _ => []
  end.

Definition json_of_strings (l : list string) : json := JArr (map JStr l).
Definition strings_of_json (v : json) : list string :=
  match v with
  | JArr l => map (fun x => match x with JStr s => s | _ => EmptyString end) l
  | _ => []
  end.

(** Decimal rendering of an integer, as [String(n)] and template strings do. *)
Definition string_of_Z (n : Z) : string :=
  NilZero.string_of_int (Z.to_int n).

(** ** An executable JSON codec *)

Module MiniJson.

Definition dquote : ascii := "034"%char.
Definition backslash : ascii := "\"%char.

Definition hex_digit (n : nat) : ascii :=
  if (n <? 10)%nat then ascii_of_nat (48 + n) else ascii_of_nat (87 + n).

Definition hex_value (c : ascii) : option nat :=
  let n := nat_of_ascii c in
  if ((48 <=? n) && (n <=? 57))%nat then Some (n - 48)%nat
  else if ((97 <=? n) && (n <=? 102))%nat then Some (n - 87)%nat
  else if ((65 <=? n) && (n <=? 70))%nat then Some (n - 55)%nat
  else None.

(** One character of a quoted string, escaped as [JSON.stringify] does. *)
Definition escape_char (c : ascii) : string :=
  let n := nat_of_ascii c in
  if (n =? 34)%nat then String backslash (String dquote EmptyString)
  else if (n =? 92)%nat then String backslash (String backslash EmptyString)
  else if (n =? 8)%nat then String backslash "b"
  else if (n =? 12)%nat then String backslash "f"
  else if (n =? 10)%nat then String backslash "n"
  else if (n =? 13)%nat then String backslash "r"
  else if (n =? 9)%nat then String backslash "t"
  else if (n <? 32)%nat then
    String backslash
      (String "u" (String "0" (String "0"
        (String (hex_digit (n / 16)) (String (hex_digit (n mod 16)) EmptyString)))))
  else String c EmptyString.

Fixpoint escape (s : string) : string :=
  match s with
  | EmptyString => EmptyString
  | String c s' => escape_char c ++ escape s'
  end.

Definition quote (s : string) : string :=
  String dquote (escape s ++ String dquote EmptyString).

Fixpoint print (v : json) : string :=
  match v with
  | JNull => "null"
  | JBool true => "true"
  | JBool false => "false"
  | JNum n => string_of_Z n
  | JStr s => quote s
  | JArr l =>
      "[" ++
      (fix elems (l : list json) : string :=
         match l with
         | [] => EmptyString
         | [x] => print x
         | x :: l' => print x ++ "," ++ elems l'
         end) l ++ "]"
  | JObj m =>
      "{" ++
      (fix members (m : list (string * json)) : string :=
         match m with
         | [] => EmptyString
         | [(k, x)] => quote k ++ ":" ++ print x
         | (k, x) :: m' => quote k ++ ":" ++ print x ++ "," ++ members m'
         end) m ++ "}"
  end.

(** The items of an array and the members of an object, as [print] writes
    them between the brackets. *)
Fixpoint print_elems (l : list json) : string :=
  match l with
  | [] => EmptyString
  | [x] => print x
  | x :: l' => print x ++ "," ++ print_elems l'
  end.

Fixpoint print_members (m : list (string * json)) : string :=
  match m with
  | [] => EmptyString
  | [(k, x)] => quote k ++ ":" ++ print x
  | (k, x) :: m' => quote k ++ ":" ++ print x ++ "," ++ print_members m'
  end.

(** The number of nodes of a value: the fuel its text needs. *)
Fixpoint size (v : json) : nat :=
  match v with
  | JArr l =>
      S ((fix items (l : list json) : nat :=
            match l with
            | [] => O
            | x :: l' => S (size x + items l')
            end) l)
  | JObj m =>
      S ((fix members (m : list (string * json)) : nat :=
            match m with
            | [] => O
            | (_, x) :: m' => S (size x + members m')
            end) m)
  | _ => 1%nat
  end.

Fixpoint size_elems (l : list json) : nat :=
  match l with
  | [] => O
  | x :: l' => S (size x + size_elems l')
  end.

Fixpoint size_members (m : list (string * json)) : nat :=
  match m with
  | [] => O
  | (_, x) :: m' => S (size x + size_members m')
  end.

(** What may follow a value in a text: not a digit. *)
Definition delimited (rest : string) : Prop :=
  match rest with
  | EmptyString => True
  | String c _ => (48 <=? nat_of_ascii c)%nat && (nat_of_ascii c <=? 57)%nat = false
  end.

(** The body of a quoted string, up to and excluding the closing quote. *)
Fixpoint parse_chars (s : string) : option (string * string) :=
  match s with
  | EmptyString => None
  | String c r =>
      if Ascii.eqb c dquote then Some (EmptyString, r)
      else if Ascii.eqb c backslash then
        match r with
        | String e r' =>
            let plain (d : ascii) :=
              match parse_chars r' with
              | Some (t, rest) => Some (String d t, rest)
              | None => None
              end in
            if Ascii.eqb e dquote then plain dquote
            else if Ascii.eqb e backslash then plain backslash
            else if Ascii.eqb e "/" then plain "/"%char
            else if Ascii.eqb e "b" then plain (ascii_of_nat 8)
            else if Ascii.eqb e "f" then plain (ascii_of_nat 12)
            else if Ascii.eqb e "n" then plain (ascii_of_nat 10)
            else if Ascii.eqb e "r" then plain (ascii_of_nat 13)
            else if Ascii.eqb e "t" then plain (ascii_of_nat 9)
            else if Ascii.eqb e "u" then
              match r' with
              | String "0" (String "0" (String h (String l r''))) =>
                  match hex_value h, hex_value l, parse_chars r'' with
                  | Some a, Some b, Some (t, rest) =>
                      Some (String (ascii_of_nat (16 * a + b)) t, rest)
                  | _, _, _ => None
                  end
              | _ => None
              end
            else None
        | EmptyString => None
        end
      else
        match parse_chars r with
        | Some (t, rest) => Some (String c t, rest)
        | None => None
        end
  end.

Definition is_digit (c : ascii) : bool :=
  let n := nat_of_ascii c in ((48 <=? n) && (n <=? 57))%nat.

(** The longest prefix of digits, and what follows it. *)
Fixpoint span_digits (s : string) : string * string :=
  match s with
  | String c r =>
      if is_digit c then let (d, rest) := span_digits r in (String c d, rest)
      else (EmptyString, s)
  | EmptyString => (EmptyString, EmptyString)
  end.

Definition parse_number (s : string) : option (json * string) :=
  let (neg, body) :=
    match s with
    | String "-" r => (true, r)
    | _ => (false, s)
    end in
  let (digits, rest) := span_digits body in
  match digits with
  | EmptyString => None
  | _ =>
      match NilZero.int_of_string (if neg then String "-" digits else digits) with
      | Some d => Some (JNum (Z.of_int d), rest)
      | None => None
      end
  end.

Fixpoint parse_value (fuel : nat) (s : string) : option (json * string) :=
  match fuel with
  | O => None
  | S n =>
      match s with
      | String "n" (String "u" (String "l" (String "l" r))) => Some (JNull, r)
      | String "t" (String "r" (String "u" (String "e" r))) => Some (JBool true, r)
      | String "f" (String "a" (String "l" (String "s" (String "e" r)))) =>
          Some (JBool false, r)
      | String "[" (String "]" r) => Some (JArr [], r)
      | String "[" r =>
          match parse_elems n r with
          | Some (l, rest) => Some (JArr l, rest)
          | None => None
          end
      | String "{" (String "}" r) => Some (JObj [], r)
      | String "{" r =>
          match parse_members n r with
          | Some (m, rest) => Some (JObj m, rest)
          | None => None
          end
      | String c r =>
          if Ascii.eqb c dquote then
            match parse_chars r with
            | Some (t, rest) => Some (JStr t, rest)
            | None => None
            end
          else parse_number s
      | EmptyString => None
      end
  end
with parse_elems (fuel : nat) (s : string) : option (list json * string) :=
  match fuel with
  | O => None
  | S n =>
      match parse_value n s with
      | Some (v, String "," r) =>
          match parse_elems n r with
          | Some (l, rest) => Some (v :: l, rest)
          | None => None
          end
      | Some (v, String "]" r) => Some ([v], r)
      | _ => None
      end
  end
with parse_members (fuel : nat) (s : string)
     : option (list (string * json) * string) :=
  match fuel with
  | O => None
  | S n =>
      match s with
      | String c r =>
          if Ascii.eqb c dquote then
            match parse_chars r with
            | Some (k, String ":" r1) =>
                match parse_value n r1 with
                | Some (v, String "," r2) =>
                    match parse_members n r2 with
                    | Some (m, rest) => Some ((k, v) :: m, rest)
                    | None => None
                    end
                | Some (v, String "}" r2) => Some ([(k, v)], r2)
                | _ => None
                end
            | _ => None
            end
          else None
      | EmptyString => None
      end
  end.

Fixpoint all_digits (s : string) : bool :=
  match s with
  | EmptyString => true
  | String c r => is_digit c && all_digits r
  end.

(** With enough fuel the parser reads [v] back from its text, whatever
    delimited text follows. *)
Definition parses (v : json) : Prop :=
  forall fuel rest,
    (size v <= fuel)%nat -> delimited rest ->
    parse_value fuel (print v ++ rest) = Some (v, rest).

(** [JSON.parse] raises on text that is not JSON; the columns read by the
    engine are only ever written through [JSON.stringify], and the result
    on other text is fixed to [null] here. *)
Definition parse (s : string) : json :=
  match parse_value (S (String.length s)) s with
  | Some (v, EmptyString) => v
  | _ => JNull
  end.

End MiniJson.

#[export] Instance mini_json : JSON := {
  JSON_stringify := MiniJson.print;
  JSON_parse := MiniJson.parse
}.

(** ** Configuration constants (src/types.ts) *)

Module PATTERN_CONFIG.
Definition minEpisodes : nat := 3.
Definition recencyWindowDays : Z := 30.
Definition decayConstant : R := 0.01.
Definition minDiscriminationWeight : R := 0.3.
End PATTERN_CONFIG.

Module UTILITY_WEIGHTS.
Definition novelty : R := 0.3.
Definition effectiveness : R := 0.5.
Definition generalizability : R := 0.2.
End UTILITY_WEIGHTS.

Module CONFIDENCE_THRESHOLDS.
Definition high : R := 0.7.
Definition medium : R := 0.4.
Definition deprecation : R := 0.1.
End CONFIDENCE_THRESHOLDS.

(** ** Numbers *)

Definition Rltb (x y : R) : bool := if Rlt_dec x y then true else false.
Definition Rleb (x y : R) : bool := if Rle_dec x y then true else false.

Definition Reqb (x y : R) : bool := if Req_dec_T x y then true else false.

(** [Math.round]: the nearest integer, halves upwards. *)
Definition Math_round (x : R) : Z := (up (x + / 2) - 1)%Z.

(** Milliseconds in a day, [24 * 60 * 60 * 1000]. *)
Definition day_ms_Z : Z := (24 * 60 * 60 * 1000)%Z.
Definition day_ms : R := 24 * 60 * 60 * 1000.

(** ** Core entities (src/types.ts) *)

Inductive Outcome : Type := success | failure | partial.

Inductive PatternType : Type :=
| pattern_success | pattern_failure | pattern_correlation.

Definition Outcome_eqb (a b : Outcome) : bool :=
  match a, b with
  | success, success | failure, failure | partial, partial => true
  | _, _ => false
  end.

Definition PatternType_eqb (a b : PatternType) : bool :=
  match a, b with
  | pattern_success, pattern_success
  | pattern_failure, pattern_failure
  | pattern_correlation, pattern_correlation => true
  | _, _ => false
  end.

Record Episode : Type := {
  e_id : Z;
  e_timestamp : Z;
  e_operation_type : string;
  e_server_name : option string;
  e_problem : option json;
  e_solution : option json;
  e_outcome : Outcome;
  e_metadata : option json;
  e_quality_score : option R;
  e_duration_ms : option Z;
  e_notes : option string;
  e_novelty_score : R;
  e_effectiveness_score : R;
  e_generalizability_score : R;
  e_utility_score : R;
  e_client_domain : option string;
  e_problem_category : option string;
  e_vertical : option string;
  e_company_size : option string
}.

Record Pattern : Type := {
  p_id : Z;
  p_pattern_type : PatternType;
  p_description : string;
  p_episode_ids : list Z;
  p_frequency : Z;
  p_last_seen : Z;
  p_created_at : Z;
  p_initial_confidence : R;
  p_decay_constant : R;
  p_last_validated : Z;
  p_times_applied : Z;
  p_times_succeeded : Z;
  p_discrimination_weight : R
}.

Record Lesson : Type := {
  l_id : Z;
  l_statement : string;
  l_pattern_id : option Z;
  l_contexts : option (list string);
  l_initial_confidence : R;
  l_decay_constant : R;
  l_last_validated : Z;
  l_times_applied : Z;
  l_times_succeeded : Z;
  l_created_at : Z;
  l_deprecated_at : option Z
}.

Record LessonWithConfidence : Type := {
  lesson : Lesson;
  current_confidence : R
}.

(** ** Database rows (src/types.ts) *)

Record EpisodeRow : Type := {
  er_id : Z;
  er_timestamp : Z;
  er_operation_type : string;
  er_server_name : option string;
  er_problem : option string;
  er_solution : option string;
  er_outcome : Outcome;
  er_metadata : option string;
  er_quality_score : option R;
  er_duration_ms : option Z;
  er_notes : option string;
  er_novelty_score : R;
  er_effectiveness_score : R;
  er_generalizability_score : R;
  er_utility_score : R;
  er_client_domain : option string;
  er_problem_category : option string;
  er_vertical : option string;
  er_company_size : option string
}.

Record PatternRow : Type := {
  pr_id : Z;
  pr_pattern_type : PatternType;
  pr_description : string;
  pr_episode_ids : string;
  pr_frequency : Z;
  pr_last_seen : Z;
  pr_created_at : Z;
  pr_initial_confidence : R;
  pr_decay_constant : R;
  pr_last_validated : Z;
  pr_times_applied : Z;
  pr_times_succeeded : Z;
  pr_discrimination_weight : R
}.

Record LessonRow : Type := {
  lr_id : Z;
  lr_statement : string;
  lr_pattern_id : option Z;
  lr_contexts : option string;
  lr_initial_confidence : R;
  lr_decay_constant : R;
  lr_last_validated : Z;
  lr_times_applied : Z;
  lr_times_succeeded : Z;
  lr_created_at : Z;
  lr_deprecated_at : option Z
}.

(** ** Double arithmetic *)

(** The double of an integer below [2^63] in absolute value; it is that
    integer up to [2^53]. *)
Definition Number_of_Z (z : Z) : PrimFloat.float :=
  if (z <? 0)%Z then PrimFloat.opp (PrimFloat.of_uint63 (Uint63.of_Z (- z)))
  else PrimFloat.of_uint63 (Uint63.of_Z z).

(** [`${Math.round(x)}`] for a double [x] below [10^21] in absolute value:
    the nearest integer, a half rounded up. *)
Definition rounded_text (x : PrimFloat.float) : string :=
  match FloatOps.Prim2SF x with
  | SpecFloat.S754_finite s m e =>
      let v := if s then Z.neg m else Z.pos m in
      string_of_Z
        (if (0 <=? e)%Z then v * 2 ^ e else (v + 2 ^ (- e - 1)) / 2 ^ (- e))%Z
  | SpecFloat.S754_zero _ => "0"
  | SpecFloat.S754_infinity s => if s then "-Infinity" else "Infinity"
  | SpecFloat.S754_nan => "NaN"
  end.

(** [Math.exp] belongs to the platform. *)
Class Math64 : Type := {
  Math_exp : PrimFloat.float -> PrimFloat.float
}.

(** A double exponential by scaling and squaring: the series of
    [e^(x / 2048)] to ten terms, squared eleven times. *)
Fixpoint squarings (n : nat) (x : PrimFloat.float) : PrimFloat.float :=
  match n with
  | O => x
  | S n' => squarings n' (PrimFloat.mul x x)
  end.

Definition exp64 (x : PrimFloat.float) : PrimFloat.float :=
  let y := PrimFloat.div x (Number_of_Z 2048) in
  let term (n : Z) (rest : PrimFloat.float) :=
    PrimFloat.add (Number_of_Z 1)
      (PrimFloat.mul (PrimFloat.div y (Number_of_Z n)) rest) in
  squarings 11
    (term 1 (term 2 (term 3 (term 4 (term 5 (term 6 (term 7 (term 8 (term 9
       (term 10 (Number_of_Z 1)))))))))))%Z.

#[export] Instance scaling_and_squaring : Math64 := {
  Math_exp := exp64
}.

(** ** Confidence calculation helpers (src/types.ts) *)

Definition calculateCurrentConfidence
  (now : Z) (initialConfidence decayConstant : R) (lastValidated : Z) : R :=
  let daysSinceValidation := IZR (now - lastValidated) / day_ms in
  let decayFactor := exp (- decayConstant * daysSinceValidation) in
  initialConfidence * decayFactor.

(** The same function in the double arithmetic of the code; the
    timestamps are integers, so their difference is exact. *)
Definition calculateCurrentConfidence64 {math : Math64}
  (now : Z) (initialConfidence decayConstant : PrimFloat.float) (lastValidated : Z)
  : PrimFloat.float :=
  let daysSinceValidation :=
    PrimFloat.div (Number_of_Z (now - lastValidated)) (Number_of_Z day_ms_Z) in
  let decayFactor :=
    Math_exp (PrimFloat.mul (PrimFloat.opp decayConstant) daysSinceValidation) in
  PrimFloat.mul initialConfidence decayFactor.

Definition calculateUtilityScore (novelty effectiveness generalizability : R) : R :=
  UTILITY_WEIGHTS.novelty * novelty +
  UTILITY_WEIGHTS.effectiveness * effectiveness +
  UTILITY_WEIGHTS.generalizability * generalizability.

Definition calculateDiscriminationWeight
  (now : Z) (timesSucceeded timesApplied frequency lastSeen : Z) : R :=
  let successRate :=
    if (0 <? timesApplied)%Z then IZR timesSucceeded / IZR timesApplied else 0.5 in
  let frequencyWeight := ln (IZR frequency + 1) in
  let daysSinceLastSeen := IZR (now - lastSeen) / day_ms in
  let recencyBonus := exp (- PATTERN_CONFIG.decayConstant * daysSinceLastSeen) in
  successRate * frequencyWeight * recencyBonus.

(** ** SQL building blocks *)

(** ASCII case folding of [LIKE]. *)
Definition lower (c : ascii) : ascii :=
  let n := nat_of_ascii c in
  if ((65 <=? n) && (n <=? 90))%nat then ascii_of_nat (n + 32) else c.

Fixpoint like_star (k : string -> bool) (s : string) : bool :=
  k s || match s with
         | EmptyString => false
         | String _ s' => like_star k s'
         end.

(** The texts of the database are held in UTF-8, one [ascii] for each
    byte.  A continuation byte is [10xxxxxx]; the lead byte of a character
    of several bytes is [0xC0] or more. *)
Definition continuation_byte (c : ascii) : bool :=
  let n := nat_of_ascii c in ((128 <=? n) && (n <? 192))%nat.

Fixpoint skip_continuation (s : string) : string :=
  match s with
  | String d s' => if continuation_byte d then skip_continuation s' else s
  | EmptyString => s
  end.

(** The text behind the first character of [s]: behind its first byte and,
    after a lead byte, behind the continuation bytes that follow it.  There
    is none when [s] is empty or starts inside a character. *)
Definition after_character (s : string) : option string :=
  match s with
  | EmptyString => None
  | String d s' =>
      if continuation_byte d then None
      else Some (if (192 <=? nat_of_ascii d)%nat then skip_continuation s' else s')
  end.

(** [text LIKE pattern]: [%] matches any run of characters, [_] any single
    character, whatever the number of its bytes, and every other byte
    itself up to ASCII case. *)
Fixpoint like (pattern : string) : string -> bool :=
  match pattern with
  | EmptyString =>
      fun s => match s with EmptyString => true | String _ _ => false end
  | String c p' =>
      if Ascii.eqb c "%" then like_star (like p')
      else if Ascii.eqb c "_" then
        fun s => match after_character s with
                 | Some s' => like p' s'
                 | None => false
                 end
      else
        fun s => match s with
                 | String d s' => Ascii.eqb (lower c) (lower d) && like p' s'
                 | EmptyString => false
                 end
  end.

(** [ORDER BY key DESC] over a scan: a stable insertion sort; [lt x y] says
    that the key of [x] is below the key of [y]. *)
Fixpoint insert_desc {A : Type} (lt : A -> A -> bool) (x : A) (l : list A) : list A :=
  match l with
  | [] => [x]
  | y :: l' => if lt x y then y :: insert_desc lt x l' else x :: y :: l'
  end.

Definition order_by_desc {A : Type} (lt : A -> A -> bool) (l : list A) : list A :=
  fold_right (insert_desc lt) [] l.

(** The rowid AUTOINCREMENT assigns: one more than the largest rowid the
    table holds or has ever held. *)
Definition max_rowid (ids : list Z) : Z := fold_right Z.max 0%Z ids.

Definition next_rowid (ids : list Z) (seq : Z) : Z :=
  (Z.max (max_rowid ids) seq + 1)%Z.

(** ** The database (src/database/schema.ts) *)

Record Store : Type := {
  episodes : list EpisodeRow;
  episodes_seq : Z;
  patterns : list PatternRow;
  patterns_seq : Z;
  lessons : list LessonRow;
  lessons_seq : Z
}.

Definition empty_store : Store := {|
  episodes := []; episodes_seq := 0;
  patterns := []; patterns_seq := 0;
  lessons := []; lessons_seq := 0
|}.

Definition set_episodes (s : Store) (rows : list EpisodeRow) (seq : Z) : Store := {|
  episodes := rows; episodes_seq := seq;
  patterns := patterns s; patterns_seq := patterns_seq s;
  lessons := lessons s; lessons_seq := lessons_seq s
|}.

Definition set_patterns (s : Store) (rows : list PatternRow) (seq : Z) : Store := {|
  episodes := episodes s; episodes_seq := episodes_seq s;
  patterns := rows; patterns_seq := seq;
  lessons := lessons s; lessons_seq := lessons_seq s
|}.

Definition set_lessons (s : Store) (rows : list LessonRow) (seq : Z) : Store := {|
  episodes := episodes s; episodes_seq := episodes_seq s;
  patterns := patterns s; patterns_seq := patterns_seq s;
  lessons := rows; lessons_seq := seq
|}.

(** Partial updates ([Partial<Pattern>], [Partial<Lesson>]): [None] is a
    field left [undefined]. *)
Record PatternUpdates : Type := {
  pu_frequency : option Z;
  pu_last_seen : option Z;
  pu_initial_confidence : option R;
  pu_last_validated : option Z;
  pu_times_applied : option Z;
  pu_times_succeeded : option Z;
  pu_discrimination_weight : option R;
  pu_episode_ids : option (list Z)
}.

Record LessonUpdates : Type := {
  lu_initial_confidence : option R;
  lu_last_validated : option Z;
  lu_times_applied : option Z;
  lu_times_succeeded : option Z;
  lu_deprecated_at : option Z;
  lu_contexts : option (list string)
}.

Definition is_some {A : Type} (o : option A) : bool :=
  match o with Some _ => true | None => false end.

Definition or_else {A : Type} (o : option A) (d : A) : A :=
  match o with Some x => x | None => d end.

(** The errors the tools raise, the error of the database driver, and the
    error of reading a property of [undefined] or [null]. *)
Inductive ToolError : Type :=
| NotFound (lesson_id : Z)
| InsufficientEvidence (required got : nat)
| SqliteError (message : string)
| TypeError.

Inductive result (A : Type) : Type :=
| Ok (a : A)
| Err (e : ToolError).
Arguments Ok {A} a.
Arguments Err {A} e.

(** The largest number of [?] a statement may hold. *)
Definition SQLITE_MAX_VARIABLE_NUMBER : Z := 32766.

Section DatabaseManager.

Context {codec : JSON}.

(** *** Row conversion helpers *)

Definition parse_column (c : option string) : option json :=
  match c with
  | Some text => if truthy_string text then Some (JSON_parse text) else None
  | None => None
  end.

Definition rowToEpisode (row : EpisodeRow) : Episode := {|
  e_id := er_id row;
  e_timestamp := er_timestamp row;
  e_operation_type := er_operation_type row;
  e_server_name := er_server_name row;
  e_problem := parse_column (er_problem row);
  e_solution := parse_column (er_solution row);
  e_outcome := er_outcome row;
  e_metadata := parse_column (er_metadata row);
  e_quality_score := er_quality_score row;
  e_duration_ms := er_duration_ms row;
  e_notes := er_notes row;
  e_novelty_score := er_novelty_score row;
  e_effectiveness_score := er_effectiveness_score row;
  e_generalizability_score := er_generalizability_score row;
  e_utility_score := er_utility_score row;
  e_client_domain := er_client_domain row;
  e_problem_category := er_problem_category row;
  e_vertical := er_vertical row;
  e_company_size := er_company_size row
|}.

Definition rowToPattern (row : PatternRow) : Pattern := {|
  p_id := pr_id row;
  p_pattern_type := pr_pattern_type row;
  p_description := pr_description row;
  p_episode_ids := ids_of_json (JSON_parse (pr_episode_ids row));
  p_frequency := pr_frequency row;
  p_last_seen := pr_last_seen row;
  p_created_at := pr_created_at row;
  p_initial_confidence := pr_initial_confidence row;
  p_decay_constant := pr_decay_constant row;
  p_last_validated := pr_last_validated row;
  p_times_applied := pr_times_applied row;
  p_times_succeeded := pr_times_succeeded row;
  p_discrimination_weight := pr_discrimination_weight row
|}.

Definition rowToLesson (row : LessonRow) : Lesson := {|
  l_id := lr_id row;
  l_statement := lr_statement row;
  l_pattern_id := lr_pattern_id row;
  l_contexts :=
    match lr_contexts row with
    | Some text =>
        if truthy_string text then Some (strings_of_json (JSON_parse text))
        else None
    | None => None
    end;
  l_initial_confidence := lr_initial_confidence row;
  l_decay_constant := lr_decay_constant row;
  l_last_validated := lr_last_validated row;
  l_times_applied := lr_times_applied row;
  l_times_succeeded := lr_times_succeeded row;
  l_created_at := lr_created_at row;
  l_deprecated_at := lr_deprecated_at row
|}.

(** The codec reproduces the optional payload [v], and [v] passes the guards
    of [insertEpisode] and [rowToEpisode]: it is truthy (an object or an
    array is) and so is its text. *)
Definition round_trips (v : option json) : Prop :=
  match v with
  | None => True
  | Some x =>
      truthy x = true
      /\ truthy_string (JSON_stringify x) = true
      /\ JSON_parse (JSON_stringify x) = x
  end.

(** *** Episode operations *)

(** [x ? JSON.stringify(x) : null] *)
Definition stringify_column (v : option json) : option string :=
  match v with
  | Some x => if truthy x then Some (JSON_stringify x) else None
  | None => None
  end.

(** [x || null] on an optional string *)
Definition string_or_null (v : option string) : option string :=
  match v with
  | Some x => if truthy_string x then Some x else None
  | None => None
  end.

(** The row [insertEpisode] writes for [episode] under rowid [id]. *)
Definition episode_row (id : Z) (episode : Episode) : EpisodeRow := {|
  er_id := id;
  er_timestamp := e_timestamp episode;
  er_operation_type := e_operation_type episode;
  er_server_name := string_or_null (e_server_name episode);
  er_problem := stringify_column (e_problem episode);
  er_solution := stringify_column (e_solution episode);
  er_outcome := e_outcome episode;
  er_metadata := stringify_column (e_metadata episode);
  er_quality_score := e_quality_score episode;
  er_duration_ms := e_duration_ms episode;
  er_notes := e_notes episode;
  er_novelty_score := e_novelty_score episode;
  er_effectiveness_score := e_effectiveness_score episode;
  er_generalizability_score := e_generalizability_score episode;
  er_utility_score := e_utility_score episode;
  er_client_domain := e_client_domain episode;
  er_problem_category := e_problem_category episode;
  er_vertical := e_vertical episode;
  er_company_size := e_company_size episode
|}.

(** [insertEpisode(episode: Omit<Episode, 'id'>)]: the [e_id] of the
    argument is not read. *)
Definition insertEpisode (episode : Episode) (s : Store) : Store * Z :=
  let lastInsertRowid := next_rowid (map er_id (episodes s)) (episodes_seq s) in
  let row := episode_row lastInsertRowid episode in
  (set_episodes s (episodes s ++ [row]) lastInsertRowid, lastInsertRowid).

Definition getEpisode (s : Store) (id : Z) : option Episode :=
  option_map rowToEpisode (find (fun row => (er_id row =? id)%Z) (episodes s)).

Definition timestamp_lt (a b : EpisodeRow) : bool :=
  (er_timestamp a <? er_timestamp b)%Z.

Definition getEpisodesByType
  (s : Store) (operationType : string) (since : option Z) (limit : nat)
  : list Episode :=
  let selected :=
    filter (fun row =>
              (er_operation_type row =? operationType)%string &&
              match since with
              | Some t => (t <=? er_timestamp row)%Z
              | None => true
              end) (episodes s) in
  map rowToEpisode (firstn limit (order_by_desc timestamp_lt selected)).

Definition getEpisodesByOutcome
  (s : Store) (outcome : Outcome) (operationType : option string) (limit : nat)
  : list Episode :=
  let selected :=
    filter (fun row =>
              Outcome_eqb (er_outcome row) outcome &&
              match operationType with
              | Some ty =>
                  if truthy_string ty then (er_operation_type row =? ty)%string
                  else true
              | None => true
              end) (episodes s) in
  map rowToEpisode (firstn limit (order_by_desc timestamp_lt selected)).

Definition Z_mem (x : Z) (l : list Z) : bool := existsb (Z.eqb x) l.

(** The episodes [WHERE id IN (...)] selects for the ids [ids]. *)
Definition selected_by_ids (s : Store) (ids : list Z) : list Episode :=
  map rowToEpisode (filter (fun row => Z_mem (er_id row) ids) (episodes s)).

(** The statement holds one [?] for each id: with more ids than a statement
    may hold variables, preparing it raises. *)
Definition getEpisodesByIds (s : Store) (ids : list Z) : result (list Episode) :=
  match ids with
  | [] => Ok []
  | _ =>
      if (SQLITE_MAX_VARIABLE_NUMBER <? Z.of_nat (List.length ids))%Z
      then Err (SqliteError "too many SQL variables")
      else Ok (selected_by_ids s ids)
  end.

(** *** Pattern operations *)

(** The row [insertPattern] writes for [pattern] under rowid [id]. *)
Definition pattern_row (id : Z) (pattern : Pattern) : PatternRow := {|
  pr_id := id;
  pr_pattern_type := p_pattern_type pattern;
  pr_description := p_description pattern;
  pr_episode_ids := JSON_stringify (json_of_ids (p_episode_ids pattern));
  pr_frequency := p_frequency pattern;
  pr_last_seen := p_last_seen pattern;
  pr_created_at := p_created_at pattern;
  pr_initial_confidence := p_initial_confidence pattern;
  pr_decay_constant := p_decay_constant pattern;
  pr_last_validated := p_last_validated pattern;
  pr_times_applied := p_times_applied pattern;
  pr_times_succeeded := p_times_succeeded pattern;
  pr_discrimination_weight := p_discrimination_weight pattern
|}.

Definition insertPattern (pattern : Pattern) (s : Store) : Store * Z :=
  let lastInsertRowid := next_rowid (map pr_id (patterns s)) (patterns_seq s) in
  let row := pattern_row lastInsertRowid pattern in
  (set_patterns s (patterns s ++ [row]) lastInsertRowid, lastInsertRowid).

Definition getPattern (s : Store) (id : Z) : option Pattern :=
  option_map rowToPattern (find (fun row => (pr_id row =? id)%Z) (patterns s)).

(** The row the query of [findPatternByDescription] returns: the first one,
    in rowid order, whose description matches [%searchText%]. *)
Definition find_matching_row (s : Store) (searchText : string) : option PatternRow :=
  find (fun row => like ("%" ++ searchText ++ "%") (pr_description row)) (patterns s).

Definition findPatternByDescription (s : Store) (searchText : string)
  : option Pattern :=
  option_map rowToPattern (find_matching_row s searchText).

Definition weight_lt (a b : PatternRow) : bool :=
  Rltb (pr_discrimination_weight a) (pr_discrimination_weight b).



Definition apply_pattern_updates (updates : PatternUpdates) (row : PatternRow)
  : PatternRow := {|
  pr_id := pr_id row;
  pr_pattern_type := pr_pattern_type row;
  pr_description := pr_description row;
  pr_episode_ids :=
    match pu_episode_ids updates with
    | Some ids => JSON_stringify (json_of_ids ids)
    | None => pr_episode_ids row
    end;
  pr_frequency := or_else (pu_frequency updates) (pr_frequency row);
  pr_last_seen := or_else (pu_last_seen updates) (pr_last_seen row);
  pr_created_at := pr_created_at row;
  pr_initial_confidence :=
    or_else (pu_initial_confidence updates) (pr_initial_confidence row);
  pr_decay_constant := pr_decay_constant row;
  pr_last_validated := or_else (pu_last_validated updates) (pr_last_validated row);
  pr_times_applied := or_else (pu_times_applied updates) (pr_times_applied row);
  pr_times_succeeded :=
    or_else (pu_times_succeeded updates) (pr_times_succeeded row);
  pr_discrimination_weight :=
    or_else (pu_discrimination_weight updates) (pr_discrimination_weight row)
|}.

Definition no_pattern_field (u : PatternUpdates) : bool :=
  negb (is_some (pu_frequency u) || is_some (pu_last_seen u) ||
        is_some (pu_initial_confidence u) || is_some (pu_last_validated u) ||
        is_some (pu_times_applied u) || is_some (pu_times_succeeded u) ||
        is_some (pu_discrimination_weight u) || is_some (pu_episode_ids u)).

Definition updatePattern (id : Z) (updates : PatternUpdates) (s : Store)
  : Store * bool :=
  if no_pattern_field updates then (s, false)
  else
    (set_patterns s
       (map (fun row =>
               if (pr_id row =? id)%Z then apply_pattern_updates updates row
               else row) (patterns s))
       (patterns_seq s),
     existsb (fun row => (pr_id row =? id)%Z) (patterns s)).

(** *** Lesson operations *)

(** The row [insertLesson] writes for [l] under rowid [id]. *)
Definition lesson_row (id : Z) (l : Lesson) : LessonRow := {|
  lr_id := id;
  lr_statement := l_statement l;
  lr_pattern_id := l_pattern_id l;
  lr_contexts :=
    match l_contexts l with
    | Some c => Some (JSON_stringify (json_of_strings c))
    | None => None
    end;
  lr_initial_confidence := l_initial_confidence l;
  lr_decay_constant := l_decay_constant l;
  lr_last_validated := l_last_validated l;
  lr_times_applied := l_times_applied l;
  lr_times_succeeded := l_times_succeeded l;
  lr_created_at := l_created_at l;
  lr_deprecated_at := l_deprecated_at l
|}.

Definition insertLesson (l : Lesson) (s : Store) : Store * Z :=
  let lastInsertRowid := next_rowid (map lr_id (lessons s)) (lessons_seq s) in
  let row := lesson_row lastInsertRowid l in
  (set_lessons s (lessons s ++ [row]) lastInsertRowid, lastInsertRowid).

Definition getLesson (s : Store) (id : Z) : option Lesson :=
  option_map rowToLesson (find (fun row => (lr_id row =? id)%Z) (lessons s)).

Definition initial_confidence_lt (a b : LessonRow) : bool :=
  Rltb (lr_initial_confidence a) (lr_initial_confidence b).

Definition with_current_confidence (now : Z) (row : LessonRow)
  : LessonWithConfidence :=
  let l := rowToLesson row in
  {| lesson := l;
     current_confidence :=
       calculateCurrentConfidence now (l_initial_confidence l)
         (l_decay_constant l) (l_last_validated l) |}.

Definition getActiveLessons (now : Z) (s : Store) (minConfidence : R)
  : list LessonWithConfidence :=
  let rows :=
    order_by_desc initial_confidence_lt
      (filter (fun row => negb (is_some (lr_deprecated_at row))) (lessons s)) in
  filter (fun l => Rleb minConfidence (current_confidence l))
         (map (with_current_confidence now) rows).

Definition apply_lesson_updates (updates : LessonUpdates) (row : LessonRow)
  : LessonRow := {|
  lr_id := lr_id row;
  lr_statement := lr_statement row;
  lr_pattern_id := lr_pattern_id row;
  lr_contexts :=
    match lu_contexts updates with
    | Some c => Some (JSON_stringify (json_of_strings c))
    | None => lr_contexts row
    end;
  lr_initial_confidence :=
    or_else (lu_initial_confidence updates) (lr_initial_confidence row);
  lr_decay_constant := lr_decay_constant row;
  lr_last_validated := or_else (lu_last_validated updates) (lr_last_validated row);
  lr_times_applied := or_else (lu_times_applied updates) (lr_times_applied row);
  lr_times_succeeded :=
    or_else (lu_times_succeeded updates) (lr_times_succeeded row);
  lr_created_at := lr_created_at row;
  lr_deprecated_at :=
    match lu_deprecated_at updates with
    | Some t => Some t
    | None => lr_deprecated_at row
    end
|}.

Definition no_lesson_field (u : LessonUpdates) : bool :=
  negb (is_some (lu_initial_confidence u) || is_some (lu_last_validated u) ||
        is_some (lu_times_applied u) || is_some (lu_times_succeeded u) ||
        is_some (lu_deprecated_at u) || is_some (lu_contexts u)).

Definition updateLesson (id : Z) (updates : LessonUpdates) (s : Store)
  : Store * bool :=
  if no_lesson_field updates then (s, false)
  else
    (set_lessons s
       (map (fun row =>
               if (lr_id row =? id)%Z then apply_lesson_updates updates row
               else row) (lessons s))
       (lessons_seq s),
     existsb (fun row => (lr_id row =? id)%Z) (lessons s)).

Definition set_deprecated_at (t : Z) (row : LessonRow) : LessonRow := {|
  lr_id := lr_id row;
  lr_statement := lr_statement row;
  lr_pattern_id := lr_pattern_id row;
  lr_contexts := lr_contexts row;
  lr_initial_confidence := lr_initial_confidence row;
  lr_decay_constant := lr_decay_constant row;
  lr_last_validated := lr_last_validated row;
  lr_times_applied := lr_times_applied row;
  lr_times_succeeded := lr_times_succeeded row;
  lr_created_at := lr_created_at row;
  lr_deprecated_at := Some t
|}.

Definition deprecateLesson (now : Z) (id : Z) (s : Store) : Store * bool :=
  (set_lessons s
     (map (fun row => if (lr_id row =? id)%Z then set_deprecated_at now row else row)
          (lessons s))
     (lessons_seq s),
   existsb (fun row => (lr_id row =? id)%Z) (lessons s)).

End DatabaseManager.

(** ** Tool inputs and results (src/types.ts) *)

Record RecordExperienceInput : Type := {
  rei_operation_type : string;
  rei_server_name : option string;
  rei_problem : option json;
  rei_solution : option json;
  rei_outcome : Outcome;
  rei_metadata : option json;
  rei_quality_score : option R;
  rei_duration_ms : option Z;
  rei_notes : option string
}.

Record RecordExperienceResult : Type := {
  rer_episode_id : Z;
  rer_recorded : bool;
  rer_utility_score : R;
  rer_patterns_triggered : list string
}.

Record ApplyLessonInput : Type := {
  ali_lesson_id : Z;
  ali_outcome : Outcome
}.

Record ApplyLessonResult : Type := {
  alr_applied : bool;
  alr_lesson_id : Z;
  alr_previous_confidence : R;
  alr_new_confidence : R;
  alr_total_applications : Z;
  alr_success_rate : R
}.

Record LearnFromPatternInput : Type := {
  lfi_pattern_description : string;
  lfi_episode_ids : list Z;
  lfi_lesson_statement : string
}.

Record LearnFromPatternResult : Type := {
  lfr_lesson_id : Z;
  lfr_created : bool;
  lfr_initial_confidence : R;
  lfr_pattern_id : option Z
}.

(** [`${v}`] *)
Fixpoint template_string (v : json) : string :=
  match v with
  | JNull => "null"
  | JBool true => "true"
  | JBool false => "false"
  | JNum n => string_of_Z n
  | JStr s => s
  | JArr l =>
      (fix join (l : list json) : string :=
         let item (x : json) :=
           match x with JNull => EmptyString | _ => template_string x end in
         match l with
         | [] => EmptyString
         | [x] => item x
         | x :: l' => item x ++ "," ++ join l'
         end) l
  | JObj _ => "[object Object]"
  end.

(** Insertion-ordered [Set<string>]: [set_from acc l] adds the members of [l]
    to [acc]. *)
Fixpoint set_from (acc l : list string) : list string :=
  match l with
  | [] => acc
  | x :: l' =>
      if existsb (String.eqb x) acc then set_from acc l'
      else set_from (acc ++ [x])%list l'
  end.

Definition count_success (l : list Episode) : nat :=
  List.length (filter (fun e => Outcome_eqb (e_outcome e) success) l).

Definition classify (successRate : R) : PatternType :=
  if Rlt_dec 0.6 successRate then pattern_success
  else if Rlt_dec successRate 0.4 then pattern_failure
  else pattern_correlation.

Section Tools.

Context {codec : JSON}.

(** *** record_experience (src/tools/record-experience.ts) *)

Definition calculateNoveltyScore
  (s : Store) (operationType : string) (problem : option json) : R :=
  let recentEpisodes := getEpisodesByType s operationType None 50 in
  match recentEpisodes with
  | [] => 1
  | _ =>
      let similarCount :=
        List.length
          (filter (fun episode =>
                     strict_eq (opt_field "query" (e_problem episode))
                               (opt_field "query" problem))
                  recentEpisodes) in
      let similarityRatio := INR similarCount / INR (List.length recentEpisodes) in
      Rmax 0.1 (1 - similarityRatio)
  end.

Definition calculateEffectivenessScore
  (outcome : Outcome) (qualityScore : option R) : R :=
  let baseScore :=
    match outcome with success => 1 | partial => 0.5 | failure => 0 end in
  match qualityScore with
  | Some q => 0.6 * baseScore + 0.4 * q
  | None => baseScore
  end.

Definition calculateGeneralizabilityScore
  (s : Store) (operationType : string) (metadata : option json) : R :=
  let depCount := field_length "dependencies" metadata in
  let triggerCount := field_length "triggers" metadata in
  let depPenalty := Rmin 0.3 (INR depCount * 0.1) in
  let triggerBonus := Rmin 0.2 (INR triggerCount * 0.05) in
  let typeCount := List.length (getEpisodesByType s operationType None 1000) in
  let typeBonus := Rmin 0.3 (ln (INR typeCount + 1) * 0.1) in
  Rmax 0.1 (Rmin 1 (0.5 - depPenalty + triggerBonus + typeBonus)).



(** The episodes pattern detection looks at: same type, last 30 days. *)
Definition similar_episodes (now : Z) (s : Store) (operationType : string)
  : list Episode :=
  let windowStart := (now - PATTERN_CONFIG.recencyWindowDays * day_ms_Z)%Z in
  getEpisodesByType s operationType (Some windowStart) 500.

Definition success_rate (l : list Episode) : R :=
  INR (count_success l) / INR (List.length l).

(** [successRate * frequencyWeight * recencyBonus] over the similar
    episodes. *)
Definition discrimination_weight_of (now : Z) (similar : list Episode) : R :=
  let successRate := success_rate similar in
  let frequencyWeight := ln (INR (List.length similar) + 1) in
  let avgAge :=
    IZR (fold_left (fun sum e => (sum + (now - e_timestamp e))%Z) similar 0%Z)
    / INR (List.length similar) in
  let avgAgeDays := avgAge / day_ms in
  let recencyBonus := exp (- PATTERN_CONFIG.decayConstant * avgAgeDays) in
  successRate * frequencyWeight * recencyBonus.

(** The description prints [Math.round(successRate * 100)], which the code
    computes in double arithmetic: 23 successes of 40 print as 57, the
    double product being just below 57.5, where the exact one rounds to
    58. *)
Definition success_percentage (similar : list Episode) : string :=
  let successCount := Number_of_Z (Z.of_nat (count_success similar)) in
  let successRate :=
    PrimFloat.div successCount (Number_of_Z (Z.of_nat (List.length similar))) in
  rounded_text (PrimFloat.mul successRate (Number_of_Z 100)).

Definition pattern_description (operationType : string) (similar : list Episode)
  : string :=
  operationType ++ ": " ++
  success_percentage similar ++
  "% success rate over " ++
  string_of_Z (Z.of_nat (List.length similar)) ++ " episodes".

(** The fields pattern detection refreshes on an existing pattern. *)
Definition refresh_updates (now : Z) (similar : list Episode) (existing : Pattern)
  : PatternUpdates :=
  let discriminationWeight := discrimination_weight_of now similar in
  {| pu_frequency := Some (Z.of_nat (List.length similar));
     pu_last_seen := Some now;
     pu_initial_confidence :=
       Some ((p_initial_confidence existing + discriminationWeight) / 2);
     pu_last_validated := Some now;
     pu_times_applied := None;
     pu_times_succeeded := None;
     pu_discrimination_weight := Some discriminationWeight;
     pu_episode_ids := Some (map e_id similar) |}.

(** The pattern detection creates when none matches. *)
Definition detected_pattern (now : Z) (operationType : string) (similar : list Episode)
  : Pattern :=
  let discriminationWeight := discrimination_weight_of now similar in
  {| p_id := 0;
     p_pattern_type := classify (success_rate similar);
     p_description := pattern_description operationType similar;
     p_episode_ids := map e_id similar;
     p_frequency := Z.of_nat (List.length similar);
     p_last_seen := now;
     p_created_at := now;
     p_initial_confidence := Rmin 0.8 (0.4 + discriminationWeight);
     p_decay_constant := PATTERN_CONFIG.decayConstant;
     p_last_validated := now;
     p_times_applied := 0;
     p_times_succeeded := 0;
     p_discrimination_weight := discriminationWeight |}.

Definition detectPatterns (now : Z) (episode : Episode) (s : Store)
  : Store * list Pattern :=
  let similar := similar_episodes now s (e_operation_type episode) in
  if (List.length similar <? PATTERN_CONFIG.minEpisodes)%nat then (s, [])
  else
    let discriminationWeight := discrimination_weight_of now similar in
    if Rlt_dec discriminationWeight PATTERN_CONFIG.minDiscriminationWeight
    then (s, [])
    else
      match findPatternByDescription s (e_operation_type episode) with
      | Some existing =>
          let (s1, _) :=
            updatePattern (p_id existing) (refresh_updates now similar existing) s in
          match getPattern s1 (p_id existing) with
          | Some updated => (s1, [updated])
          | None => (s1, [])
          end
      | None =>
          let (s1, patternId) :=
            insertPattern
              (detected_pattern now (e_operation_type episode) similar) s in
          match getPattern s1 patternId with
          | Some pattern => (s1, [pattern])
          | None => (s1, [])
          end
      end.

(** The episode object [recordExperience] builds, with its four scores. *)
Definition new_episode (now : Z) (input : RecordExperienceInput) (s : Store)
  : Episode :=
  let noveltyScore :=
    calculateNoveltyScore s (rei_operation_type input) (rei_problem input) in
  let effectivenessScore :=
    calculateEffectivenessScore (rei_outcome input) (rei_quality_score input) in
  let generalizabilityScore :=
    calculateGeneralizabilityScore s (rei_operation_type input)
      (rei_metadata input) in
  let utilityScore :=
    calculateUtilityScore noveltyScore effectivenessScore generalizabilityScore in
  {| e_id := 0;
     e_timestamp := now;
     e_operation_type := rei_operation_type input;
     e_server_name := rei_server_name input;
     e_problem := rei_problem input;
     e_solution := rei_solution input;
     e_outcome := rei_outcome input;
     e_metadata := rei_metadata input;
     e_quality_score := rei_quality_score input;
     e_duration_ms := rei_duration_ms input;
     e_notes := rei_notes input;
     e_novelty_score := noveltyScore;
     e_effectiveness_score := effectivenessScore;
     e_generalizability_score := generalizabilityScore;
     e_utility_score := utilityScore;
     e_client_domain := None;
     e_problem_category := None;
     e_vertical := None;
     e_company_size := None |}.

Definition recordExperience (now : Z) (input : RecordExperienceInput) (s : Store)
  : Store * RecordExperienceResult :=
  let episode := new_episode now input s in
  let (s1, episodeId) := insertEpisode episode s in
  let (s2, patterns) :=
    match getEpisode s1 episodeId with
    | Some savedEpisode => detectPatterns now savedEpisode s1
    | None => (s1, [])
    end in
  (s2, {| rer_episode_id := episodeId;
          rer_recorded := true;
          rer_utility_score := e_utility_score episode;
          rer_patterns_triggered := map p_description patterns |}).

(** The episodes pattern detection looks at once the new episode is stored,
    and the row of that episode. *)
Definition recorded_row (now : Z) (input : RecordExperienceInput) (s : Store)
  : EpisodeRow :=
  episode_row (next_rowid (map er_id (episodes s)) (episodes_seq s))
    (new_episode now input s).


(** *** apply_lesson (src/tools/apply-lesson.ts) *)

Definition evidence_of (outcome : Outcome) : R :=
  match outcome with success => 1 | partial => 0.5 | failure => 0 end.

(** The confidence [applyLesson] stores for lesson [l]: the decayed prior
    blended with the evidence, clamped. *)
Definition applied_confidence (now : Z) (l : Lesson) (outcome : Outcome) : R :=
  let previousConfidence :=
    calculateCurrentConfidence now (l_initial_confidence l)
      (l_decay_constant l) (l_last_validated l) in
  let newTimesApplied := (l_times_applied l + 1)%Z in
  let newTimesSucceeded := IZR (l_times_succeeded l) + evidence_of outcome in
  let successRate := newTimesSucceeded / IZR newTimesApplied in
  let priorWeight := Rmax 0.3 (1 - ln (IZR newTimesApplied + 1) / 5) in
  let evidenceWeight := 1 - priorWeight in
  let evidenceConfidence := evidence_of outcome in
  Rmax 0.1 (Rmin 0.95
    (priorWeight * previousConfidence +
     evidenceWeight * (0.7 * successRate + 0.3 * evidenceConfidence))).

(** The fields [applyLesson] passes to [updateLesson]. *)
Definition applied_updates (now : Z) (l : Lesson) (outcome : Outcome)
  : LessonUpdates := {|
  lu_initial_confidence := Some (applied_confidence now l outcome);
  lu_last_validated := Some now;
  lu_times_applied := Some (l_times_applied l + 1)%Z;
  lu_times_succeeded :=
    Some (Math_round (IZR (l_times_succeeded l) + evidence_of outcome));
  lu_deprecated_at := None;
  lu_contexts := None
|}.

(** The deprecation check that follows the update of the lesson. *)
Definition auto_deprecate
  (now : Z) (lesson_id : Z) (newInitialConfidence : R) (newTimesApplied : Z)
  (s : Store) : Store :=
  if Rlt_dec newInitialConfidence CONFIDENCE_THRESHOLDS.deprecation
  then if (5 <=? newTimesApplied)%Z
       then fst (deprecateLesson now lesson_id s)
       else s
  else s.

Definition applyLesson (now : Z) (input : ApplyLessonInput) (s : Store)
  : result (Store * ApplyLessonResult) :=
  match getLesson s (ali_lesson_id input) with
  | None => Err (NotFound (ali_lesson_id input))
  | Some l =>
      let previousConfidence :=
        calculateCurrentConfidence now (l_initial_confidence l)
          (l_decay_constant l) (l_last_validated l) in
      let succeeded := Outcome_eqb (ali_outcome input) success in
      let newTimesApplied := (l_times_applied l + 1)%Z in
      let newTimesSucceeded :=
        IZR (l_times_succeeded l) + evidence_of (ali_outcome input) in
      let successRate := newTimesSucceeded / IZR newTimesApplied in
      let priorWeight := Rmax 0.3 (1 - ln (IZR newTimesApplied + 1) / 5) in
      let evidenceWeight := 1 - priorWeight in
      let evidenceConfidence := evidence_of (ali_outcome input) in
      let newInitialConfidence :=
        Rmax 0.1 (Rmin 0.95
          (priorWeight * previousConfidence +
           evidenceWeight * (0.7 * successRate + 0.3 * evidenceConfidence))) in
      let (s1, _) :=
        updateLesson (ali_lesson_id input) {|
          lu_initial_confidence := Some newInitialConfidence;
          lu_last_validated := Some now;
          lu_times_applied := Some newTimesApplied;
          lu_times_succeeded := Some (Math_round newTimesSucceeded);
          lu_deprecated_at := None;
          lu_contexts := None
        |} s in
      let s2 :=
        auto_deprecate now (ali_lesson_id input) newInitialConfidence
          newTimesApplied s1 in
      let s3 :=
        match l_pattern_id l with
        | Some pattern_id =>
            if (pattern_id =? 0)%Z then s2
            else
              match getPattern s2 pattern_id with
              | Some pattern =>
                  fst (updatePattern pattern_id {|
                    pu_frequency := None;
                    pu_last_seen := None;
                    pu_initial_confidence := None;
                    pu_last_validated := Some now;
                    pu_times_applied := Some (p_times_applied pattern + 1)%Z;
                    pu_times_succeeded :=
                      Some (p_times_succeeded pattern + (if succeeded then 1 else 0))%Z;
                    pu_discrimination_weight := None;
                    pu_episode_ids := None
                  |} s2)
              | None => s2
              end
        | None => s2
        end in
      Ok (s3, {| alr_applied := true;
                 alr_lesson_id := ali_lesson_id input;
                 alr_previous_confidence := previousConfidence;
                 alr_new_confidence := newInitialConfidence;
                 alr_total_applications := newTimesApplied;
                 alr_success_rate := successRate |})
  end.

(** *** learn_from_pattern (src/tools/learn-from-pattern.ts) *)

Definition sum_utility (l : list Episode) : R :=
  fold_left (fun sum e => sum + e_utility_score e) l 0.

(** The confidence a lesson starts with, from the evidence of its
    episodes. *)
Definition learned_confidence (l : list Episode) : R :=
  let successRate := success_rate l in
  let episodeCountBonus := Rmin 0.3 (ln (INR (List.length l) + 1) * 0.1) in
  let avgUtility := sum_utility l / INR (List.length l) in
  let utilityBonus := avgUtility * 0.2 in
  Rmin 0.9 (Rmax 0.3 (0.4 + successRate * 0.3 + episodeCountBonus + utilityBonus)).

Definition episode_contexts (l : list Episode) : list string :=
  flat_map (fun episode =>
              (match e_server_name episode with
               | Some name =>
                   if truthy_string name then [("server:" ++ name)%string] else []
               | None => []
               end ++
               match opt_field "environment" (e_metadata episode) with
               | Some env =>
                   if truthy env then [("env:" ++ template_string env)%string] else []
               | None => []
               end)%list) l.

Definition learned_contexts (l : list Episode) : list string :=
  let operationTypes := set_from [] (map e_operation_type l) in
  let contexts :=
    (episode_contexts l ++
     map (fun opType => ("operation:" ++ opType)%string) operationTypes)%list in
  set_from [] contexts.

(** The fields [learnFromPattern] refreshes on an existing pattern. *)
Definition learned_updates
  (now : Z) (input : LearnFromPatternInput) (episodes : list Episode)
  : PatternUpdates :=
  {| pu_frequency := Some (Z.of_nat (List.length episodes));
     pu_last_seen := Some now;
     pu_initial_confidence := None;
     pu_last_validated := Some now;
     pu_times_applied := None;
     pu_times_succeeded := None;
     pu_discrimination_weight := None;
     pu_episode_ids := Some (lfi_episode_ids input) |}.

(** The pattern [learnFromPattern] creates when none matches. *)
Definition learned_pattern
  (now : Z) (input : LearnFromPatternInput) (episodes : list Episode) : Pattern :=
  let successRate := success_rate episodes in
  {| p_id := 0;
     p_pattern_type := classify successRate;
     p_description := lfi_pattern_description input;
     p_episode_ids := lfi_episode_ids input;
     p_frequency := Z.of_nat (List.length episodes);
     p_last_seen := now;
     p_created_at := now;
     p_initial_confidence := learned_confidence episodes;
     p_decay_constant := PATTERN_CONFIG.decayConstant;
     p_last_validated := now;
     p_times_applied := 0;
     p_times_succeeded := 0;
     p_discrimination_weight := successRate * ln (INR (List.length episodes) + 1) |}.

Definition learnFromPattern (now : Z) (input : LearnFromPatternInput) (s : Store)
  : result (Store * LearnFromPatternResult) :=
  match getEpisodesByIds s (lfi_episode_ids input) with
  | Err e => Err e
  | Ok episodes =>
    if (List.length episodes <? PATTERN_CONFIG.minEpisodes)%nat
    then Err (InsufficientEvidence PATTERN_CONFIG.minEpisodes (List.length episodes))
    else
      let initialConfidence := learned_confidence episodes in
      let (s1, patternId) :=
        match findPatternByDescription s (lfi_pattern_description input) with
        | Some existingPattern =>
            (fst (updatePattern (p_id existingPattern)
                    (learned_updates now input episodes) s),
             p_id existingPattern)
        | None => insertPattern (learned_pattern now input episodes) s
        end in
      let (s2, lessonId) :=
        insertLesson {|
          l_id := 0;
          l_statement := lfi_lesson_statement input;
          l_pattern_id := Some patternId;
          l_contexts := Some (learned_contexts episodes);
          l_initial_confidence := initialConfidence;
          l_decay_constant := PATTERN_CONFIG.decayConstant;
          l_last_validated := now;
          l_times_applied := 0;
          l_times_succeeded := 0;
          l_created_at := now;
          l_deprecated_at := None
        |} s1 in
      Ok (s2, {| lfr_lesson_id := lessonId;
                 lfr_created := true;
                 lfr_initial_confidence := initialConfidence;
                 lfr_pattern_id := Some patternId |})
  end.


End Tools.

(** ** Reachable stores *)




(** ** Retention sweep *)

Record CleanupResult : Type := {
  deletedEpisodes : nat;
  deletedPatterns : nat;
  deprecatedLessons : nat
}.

(** Modelled from the spec: [DatabaseManager.cleanupOldData], the retention
    sweep, is announced by the audit notes but is absent from schema.ts.
    Episodes older than [retentionDays] and patterns last seen more than
    [2 * retentionDays] ago are deleted; a lesson that is not deprecated, was
    never applied or has a current confidence below [lowConfidence], and was
    not validated within [retentionDays], is deprecated.  The spec does not
    fix the level under which a confidence is low: it is the parameter
    [lowConfidence]. *)
Definition stale_lesson (now : Z) (lowConfidence : R) (cutoff : Z) (row : LessonRow)
  : bool :=
  negb (is_some (lr_deprecated_at row)) &&
  ((lr_times_applied row =? 0)%Z ||
   Rltb (calculateCurrentConfidence now (lr_initial_confidence row)
           (lr_decay_constant row) (lr_last_validated row)) lowConfidence) &&
  (lr_last_validated row <? cutoff)%Z.

Definition cleanupOldData
  (now : Z) (lowConfidence : R) (retentionDays : Z) (s : Store)
  : Store * CleanupResult :=
  let cutoff := (now - retentionDays * day_ms_Z)%Z in
  let patternCutoff := (now - 2 * retentionDays * day_ms_Z)%Z in
  let old_episode := fun row => (er_timestamp row <? cutoff)%Z in
  let old_pattern := fun row => (pr_last_seen row <? patternCutoff)%Z in
  let stale := stale_lesson now lowConfidence cutoff in
  ({| episodes := filter (fun row => negb (old_episode row)) (episodes s);
      episodes_seq := episodes_seq s;
      patterns := filter (fun row => negb (old_pattern row)) (patterns s);
      patterns_seq := patterns_seq s;
      lessons :=
        map (fun row => if stale row then set_deprecated_at now row else row)
            (lessons s);
      lessons_seq := lessons_seq s |},
   {| deletedEpisodes := List.length (filter old_episode (episodes s));
      deletedPatterns := List.length (filter old_pattern (patterns s));
      deprecatedLessons := List.length (filter stale (lessons s)) |}).

(** ** Sample data *)

Definition sample_lesson_row : LessonRow := {|
  lr_id := 1;
  lr_statement := "Always run tests before deploy";
  lr_pattern_id := None;
  lr_contexts := None;
  lr_initial_confidence := 0.8;
  lr_decay_constant := 0.01;
  lr_last_validated := 0;
  lr_times_applied := 0;
  lr_times_succeeded := 0;
  lr_created_at := 0;
  lr_deprecated_at := None
|}.

Definition sample_lessons : Store := set_lessons empty_store [sample_lesson_row] 1.

(** Two lessons, the first one with the higher stored confidence but
    validated 200 days before the second. *)
Definition faded_lesson_row : LessonRow := {|
  lr_id := 1;
  lr_statement := "Always run tests before deploy";
  lr_pattern_id := None;
  lr_contexts := None;
  lr_initial_confidence := 0.9;
  lr_decay_constant := 0.01;
  lr_last_validated := 0;
  lr_times_applied := 0;
  lr_times_succeeded := 0;
  lr_created_at := 0;
  lr_deprecated_at := None
|}.

Definition fresh_lesson_row : LessonRow := {|
  lr_id := 2;
  lr_statement := "Check file permissions on Mac";
  lr_pattern_id := None;
  lr_contexts := None;
  lr_initial_confidence := 0.5;
  lr_decay_constant := 0.01;
  lr_last_validated := 200 * day_ms_Z;
  lr_times_applied := 0;
  lr_times_succeeded := 0;
  lr_created_at := 200 * day_ms_Z;
  lr_deprecated_at := None
|}.

Definition faded_lessons : Store :=
  set_lessons empty_store [faded_lesson_row; fresh_lesson_row] 2.

(** An episode with nested payloads, null leaves and empty arrays. *)
Definition nested_episode : Episode := {|
  e_id := 0;
  e_timestamp := 1000;
  e_operation_type := "build";
  e_server_name := Some "builder";
  e_problem :=
    Some (JObj [("query", JStr "npm run build");
                ("constraints",
                 JObj [("retries", JNum 3); ("tags", JArr []); ("owner", JNull)]);
                ("context", JObj [])]);
  e_solution :=
    Some (JObj [("tool", JStr "npm");
                ("params",
                 JObj [("args", JArr [JStr "ci"; JNull; JArr []]);
                       ("cache", JBool false)]);
                ("approach", JNull)]);
  e_outcome := success;
  e_metadata :=
    Some (JObj [("environment", JStr "ci");
                ("dependencies", JArr []);
                ("triggers", JArr [JStr "push"; JStr "tag"])]);
  e_quality_score := None;
  e_duration_ms := Some 1200%Z;
  e_notes := None;
  e_novelty_score := 1;
  e_effectiveness_score := 1;
  e_generalizability_score := 0.5;
  e_utility_score := 0.9;
  e_client_domain := None;
  e_problem_category := None;
  e_vertical := None;
  e_company_size := None
|}.

(** A store that knows the operation type "rebuild", with its pattern, and
    has never seen "build". *)
Definition rebuild_episode_row (id timestamp : Z) (outcome : Outcome) : EpisodeRow := {|
  er_id := id;
  er_timestamp := timestamp;
  er_operation_type := "rebuild";
  er_server_name := None;
  er_problem := None;
  er_solution := None;
  er_outcome := outcome;
  er_metadata := None;
  er_quality_score := None;
  er_duration_ms := None;
  er_notes := None;
  er_novelty_score := 1;
  er_effectiveness_score := 0;
  er_generalizability_score := 0.5;
  er_utility_score := 0.4;
  er_client_domain := None;
  er_problem_category := None;
  er_vertical := None;
  er_company_size := None
|}.

Definition rebuild_pattern_row : PatternRow := {|
  pr_id := 1;
  pr_pattern_type := pattern_failure;
  pr_description := "rebuild: 33% success rate over 3 episodes";
  pr_episode_ids := "[3,2,1]";
  pr_frequency := 3;
  pr_last_seen := 300;
  pr_created_at := 300;
  pr_initial_confidence := 0.8;
  pr_decay_constant := 0.01;
  pr_last_validated := 300;
  pr_times_applied := 0;
  pr_times_succeeded := 0;
  pr_discrimination_weight := 0.46
|}.

Definition rebuild_store : Store := {|
  episodes :=
    [rebuild_episode_row 1 100 failure;
     rebuild_episode_row 2 200 failure;
     rebuild_episode_row 3 300 success];
  episodes_seq := 3;
  patterns := [rebuild_pattern_row];
  patterns_seq := 1;
  lessons := [];
  lessons_seq := 0
|}.

Definition build_attempt (outcome : Outcome) : RecordExperienceInput := {|
  rei_operation_type := "build";
  rei_server_name := None;
  rei_problem := None;
  rei_solution := None;
  rei_outcome := outcome;
  rei_metadata := None;
  rei_quality_score := None;
  rei_duration_ms := None;
  rei_notes := None
|}.





Definition sample_episode_row (id timestamp : Z) (outcome : Outcome) : EpisodeRow := {|
  er_id := id;
  er_timestamp := timestamp;
  er_operation_type := "build";
  er_server_name := None;
  er_problem := None;
  er_solution := None;
  er_outcome := outcome;
  er_metadata := None;
  er_quality_score := None;
  er_duration_ms := None;
  er_notes := None;
  er_novelty_score := 1;
  er_effectiveness_score := 1;
  er_generalizability_score := 0.5;
  er_utility_score := 0.9;
  er_client_domain := None;
  er_problem_category := None;
  er_vertical := None;
  er_company_size := None
|}.

Definition sample_episodes : Store :=
  set_episodes empty_store
    [sample_episode_row 1 1000 success;
     sample_episode_row 2 2000 success;
     sample_episode_row 3 3000 failure] 3.

Definition sample_learning : LearnFromPatternInput := {|
  lfi_pattern_description := "build usually succeeds";
  lfi_episode_ids := [1; 2; 3]%Z;
  lfi_lesson_statement := "Run npm install before build"
|}.



(** ** Further queries of the database (src/database/schema.ts) *)

Section Queries.

Context {codec : JSON}.

(** [ORDER BY timestamp DESC] with nothing to select by runs as a backward
    scan of [idx_episodes_timestamp], whose entries are ordered by
    timestamp and then by rowid: equal timestamps come out by descending
    rowid. *)
Definition timestamp_rowid_lt (a b : EpisodeRow) : bool :=
  (er_timestamp a <? er_timestamp b)%Z
  || ((er_timestamp a =? er_timestamp b)%Z && (er_id a <? er_id b)%Z).

Definition getRecentEpisodes (s : Store) (limit : nat) : list Episode :=
  map rowToEpisode (firstn limit (order_by_desc timestamp_rowid_lt (episodes s))).

Definition getEpisodeCount (s : Store) : nat := List.length (episodes s).

(** [AVG(utility_score)] is [NULL] over no row, and [row.avg ?? 0] then. *)
Definition getAverageUtility (s : Store) (operationType : option string) : R :=
  let rows :=
    match operationType with
    | Some ty =>
        if truthy_string ty
        then filter (fun row => (er_operation_type row =? ty)%string) (episodes s)
        else episodes s
    | None => episodes s
    end in
  match rows with
  | [] => 0
  | _ =>
      fold_right (fun row sum => er_utility_score row + sum) 0 rows
      / INR (List.length rows)
  end.

(** The rows of one type are selected through [idx_patterns_type] and then
    sorted: equal weights stay in rowid order. *)
Definition getPatternsByType (s : Store) (patternType : PatternType) : list Pattern :=
  map rowToPattern
    (order_by_desc weight_lt
       (filter (fun row => PatternType_eqb (pr_pattern_type row) patternType)
               (patterns s))).

Definition getPatternCount (s : Store) : nat := List.length (patterns s).

Definition created_at_lt (a b : LessonRow) : bool :=
  (lr_created_at a <? lr_created_at b)%Z.

Definition getLessonsByPattern (s : Store) (patternId : Z) : list Lesson :=
  map rowToLesson
    (order_by_desc created_at_lt
       (filter (fun row =>
                  match lr_pattern_id row with
                  | Some p => (p =? patternId)%Z
                  | None => false
                  end) (lessons s))).

Definition getLessonCount (s : Store) (includeDeprecated : bool) : nat :=
  if includeDeprecated then List.length (lessons s)
  else List.length
         (filter (fun row => negb (is_some (lr_deprecated_at row))) (lessons s)).

Record Stats : Type := {
  stats_episodes : nat;
  stats_patterns : nat;
  stats_lessons : nat;
  stats_avgUtility : R;
  stats_highConfidenceLessons : nat
}.

Definition getStats (now : Z) (s : Store) : Stats :=
  let activeLessons := getActiveLessons now s 0 in
  let highConfidence :=
    filter (fun l => Rleb 0.7 (current_confidence l)) activeLessons in
  {| stats_episodes := getEpisodeCount s;
     stats_patterns := getPatternCount s;
     stats_lessons := getLessonCount s false;
     stats_avgUtility := getAverageUtility s None;
     stats_highConfidenceLessons := List.length highConfidence |}.

End Queries.

(** ** The recall tools (src/tools/recall-by-type.ts, recall-by-outcome.ts) *)

(** [text.includes(needle)] *)
Fixpoint includes (needle text : string) : bool :=
  String.prefix needle text ||
  match text with
  | EmptyString => false
  | String _ rest => includes needle rest
  end.





Section Recall.

Context {codec : JSON}.




End Recall.

(** ** get_lessons (src/tools/get-lessons.ts) *)

(** [String.prototype.toLowerCase] belongs to the platform. *)
Class Strings : Type := {
  toLowerCase : string -> string
}.

Fixpoint lower_string (s : string) : string :=
  match s with
  | EmptyString => EmptyString
  | String c rest => String (lower c) (lower_string rest)
  end.

(** The case folding of ASCII text. *)
#[export] Instance ascii_strings : Strings := {
  toLowerCase := lower_string
}.

Record GetLessonsInput : Type := {
  gli_context : option (list (string * json));
  gli_operation_type : option string;
  gli_min_confidence : option R
}.

Record ConfidenceSummary : Type := {
  cs_high : nat;
  cs_medium : nat;
  cs_low : nat
}.

Record LessonsResult : Type := {
  lsr_lessons : list LessonWithConfidence;
  lsr_confidence_summary : ConfidenceSummary
}.

Definition current_confidence_lt (a b : LessonWithConfidence) : bool :=
  Rltb (current_confidence a) (current_confidence b).

Section GetLessons.

Context {codec : JSON} {strings : Strings}.

(** [text.toLowerCase().includes(operationType.toLowerCase())] *)
Definition mentions (text operationType : string) : bool :=
  includes (toLowerCase operationType) (toLowerCase text).

Definition matches_operation_type
  (s : Store) (operationType : string) (l : LessonWithConfidence) : bool :=
  if mentions (l_statement (lesson l)) operationType then true
  else if match l_contexts (lesson l) with
          | Some contexts => existsb (fun c => mentions c operationType) contexts
          | None => false
          end then true
  else
    match l_pattern_id (lesson l) with
    | Some pattern_id =>
        if (pattern_id =? 0)%Z then false
        else
          match getPattern s pattern_id with
          | Some pattern => mentions (p_description pattern) operationType
          | None => false
          end
    | None => false
    end.

(** [String(context[key])] *)
Definition context_value (context : list (string * json)) (key : string) : string :=
  match assoc key context with
  | Some v => template_string v
  | None => "undefined"
  end.

Definition matches_context
  (context : list (string * json)) (l : LessonWithConfidence) : bool :=
  let contextKeys := map fst context in
  match l_contexts (lesson l) with
  | Some contexts =>
      existsb (fun c =>
                 existsb (fun key =>
                            includes (toLowerCase key) (toLowerCase c) ||
                            includes (toLowerCase c)
                                     (toLowerCase (context_value context key)))
                         contextKeys)
              contexts
  | None => true
  end.

Definition confidence_summary (l : list LessonWithConfidence) : ConfidenceSummary := {|
  cs_high :=
    List.length
      (filter (fun x => Rleb CONFIDENCE_THRESHOLDS.high (current_confidence x)) l);
  cs_medium :=
    List.length
      (filter (fun x =>
                 Rleb CONFIDENCE_THRESHOLDS.medium (current_confidence x) &&
                 Rltb (current_confidence x) CONFIDENCE_THRESHOLDS.high) l);
  cs_low :=
    List.length
      (filter (fun x => Rltb (current_confidence x) CONFIDENCE_THRESHOLDS.medium) l)
|}.

Definition getLessons (now : Z) (input : GetLessonsInput) (s : Store)
  : LessonsResult :=
  let minConfidence := or_else (gli_min_confidence input) 0 in
  let active := getActiveLessons now s minConfidence in
  let typed :=
    match gli_operation_type input with
    | Some operationType =>
        if truthy_string operationType
        then filter (matches_operation_type s operationType) active
        else active
    | None => active
    end in
  let matching :=
    match gli_context input with
    | Some context => filter (matches_context context) typed
    | None => typed
    end in
  let sorted := order_by_desc current_confidence_lt matching in
  {| lsr_lessons := sorted;
     lsr_confidence_summary := confidence_summary sorted |}.

End GetLessons.

(** ** The bodies of the claim handlers (src/interlock/handlers.ts)

    What a handler does from [if (lessonId)] on, for a lesson id that is a
    number or is absent.  The second component of the result is the
    [lesson_validated] event the handler broadcasts. *)

Record LessonValidated : Type := {
  lv_lesson_id : Z;
  lv_previous_confidence : R;
  lv_new_confidence : R
}.

Definition confidence_updates (now : Z) (newConfidence : R) : LessonUpdates := {|
  lu_initial_confidence := Some newConfidence;
  lu_last_validated := Some now;
  lu_times_applied := None;
  lu_times_succeeded := None;
  lu_deprecated_at := None;
  lu_contexts := None
|}.

Section Handlers.

Context {codec : JSON}.

Definition on_CLAIM_VERIFIED (now : Z) (lesson_id : option Z) (s : Store)
  : Store * option LessonValidated :=
  match lesson_id with
  | Some lessonId =>
      if (lessonId =? 0)%Z then (s, None)
      else
        match getLesson s lessonId with
        | Some l =>
            let previousConfidence := l_initial_confidence l in
            let newConfidence := Rmin 0.95 (previousConfidence * 1.1) in
            (fst (updateLesson lessonId (confidence_updates now newConfidence) s),
             Some {| lv_lesson_id := lessonId;
                     lv_previous_confidence := previousConfidence;
                     lv_new_confidence := newConfidence |})
        | None => (s, None)
        end
  | None => (s, None)
  end.

Definition on_CLAIM_REFUTED (now : Z) (lesson_id : option Z) (s : Store)
  : Store * option LessonValidated :=
  match lesson_id with
  | Some lessonId =>
      if (lessonId =? 0)%Z then (s, None)
      else
        match getLesson s lessonId with
        | Some l =>
            let previousConfidence := l_initial_confidence l in
            let newConfidence := Rmax 0.1 (previousConfidence * 0.7) in
            (fst (updateLesson lessonId (confidence_updates now newConfidence) s),
             Some {| lv_lesson_id := lessonId;
                     lv_previous_confidence := previousConfidence;
                     lv_new_confidence := newConfidence |})
        | None => (s, None)
        end
  | None => (s, None)
  end.

End Handlers.

(** ** The mesh protocol (src/interlock/protocol.ts) *)

Module SignalTypes.
Definition BUILD_COMPLETED : Z := 0xB0.
Definition VERIFICATION_RESULT : Z := 0xD0.
Definition VALIDATION_APPROVED : Z := 0xC0.
Definition VALIDATION_REJECTED : Z := 0xC1.
Definition OPERATION_COMPLETE : Z := 0xFF.
Definition LESSON_LEARNED : Z := 0xE5.
Definition CLAIM_VERIFIED : Z := 0xD1.
Definition CLAIM_REFUTED : Z := 0xD2.
Definition HEARTBEAT : Z := 0x00.
Definition EXPERIENCE_RECORDED : Z := 0xF0.
Definition PATTERN_EMERGED : Z := 0xF1.
Definition LESSON_EXTRACTED : Z := 0xF2.
Definition LESSON_VALIDATED : Z := 0xF3.

(** [Object.entries(SignalTypes)] *)
Definition entries : list (string * Z) := [
  ("BUILD_COMPLETED", BUILD_COMPLETED);
  ("VERIFICATION_RESULT", VERIFICATION_RESULT);
  ("VALIDATION_APPROVED", VALIDATION_APPROVED);
  ("VALIDATION_REJECTED", VALIDATION_REJECTED);
  ("OPERATION_COMPLETE", OPERATION_COMPLETE);
  ("LESSON_LEARNED", LESSON_LEARNED);
  ("CLAIM_VERIFIED", CLAIM_VERIFIED);
  ("CLAIM_REFUTED", CLAIM_REFUTED);
  ("HEARTBEAT", HEARTBEAT);
  ("EXPERIENCE_RECORDED", EXPERIENCE_RECORDED);
  ("PATTERN_EMERGED", PATTERN_EMERGED);
  ("LESSON_EXTRACTED", LESSON_EXTRACTED);
  ("LESSON_VALIDATED", LESSON_VALIDATED)
]%Z.
End SignalTypes.

Record Signal : Type := {
  sg_code : Z;
  sg_name : string;
  sg_sender : string;
  sg_timestamp : Z;
  sg_data : option json
}.

(** ASCII upper case, as [toUpperCase] acts on hexadecimal digits. *)
Definition upper (c : ascii) : ascii :=
  let n := nat_of_ascii c in
  if ((97 <=? n) && (n <=? 122))%nat then ascii_of_nat (n - 32) else c.

Fixpoint upper_string (s : string) : string :=
  match s with
  | EmptyString => EmptyString
  | String c rest => String (upper c) (upper_string rest)
  end.

(** [code.toString(16).toUpperCase()] *)
Definition hex_upper (code : Z) : string :=
  upper_string (HexadecimalString.NilZero.string_of_int (Z.to_hex_int code)).

Definition getSignalName (code : Z) : string :=
  match find (fun entry => (snd entry =? code)%Z) SignalTypes.entries with
  | Some entry => fst entry
  | None => "UNKNOWN_" ++ hex_upper code
  end.

(** [String.prototype.toUpperCase] belongs to the platform. *)
Class UpperCase : Type := {
  toUpperCase : string -> string
}.

#[export] Instance ascii_upper_case : UpperCase := {
  toUpperCase := upper_string
}.

(** The properties of a signal object as [decodeSignal] and [createSignal]
    build it: those of the interface [Signal], and no other.  A property
    that an object does not have reads as [undefined], here [None]. *)
Definition own_properties (signal : Signal) : list (string * json) :=
  ([("code", JNum (sg_code signal));
    ("name", JStr (sg_name signal));
    ("sender", JStr (sg_sender signal));
    ("timestamp", JNum (sg_timestamp signal))]
   ++ match sg_data signal with
      | Some data => [("data", data)]
      | None => []
      end)%list.

(** [getSignalName(code)] for whatever [code] is at run time.  No entry is
    [===] to a value that is no number; [undefined] and [null] have no
    [toString]; the [toString] of the other values takes no radix. *)
Definition getSignalName_of {upper_case : UpperCase} (code : option json)
  : result string :=
  match code with
  | Some (JNum n) => Ok (getSignalName n)
  | None | Some JNull => Err TypeError
  | Some v => Ok ("UNKNOWN_" ++ toUpperCase (template_string v))
  end.

(** A [Buffer] is the list of its bytes.  [Buffer.from(text, 'utf8')] and
    [buffer.toString('utf8')] belong to the platform. *)
Class UTF8 : Type := {
  Buffer_from : string -> list Byte.byte;
  Buffer_toString : list Byte.byte -> string
}.

(** A string read as the bytes of its UTF-8 encoding. *)
#[export] Instance byte_strings : UTF8 := {
  Buffer_from := list_byte_of_string;
  Buffer_toString := string_of_list_byte
}.

(** Whether [JSON.parse] returns on a text; it raises a [SyntaxError]
    otherwise. *)
Class JSONSyntax : Type := {
  JSON_accepts : string -> bool
}.

#[export] Instance mini_json_syntax : JSONSyntax := {
  JSON_accepts := fun text =>
    match MiniJson.parse_value (S (String.length text)) text with
    | Some (_, EmptyString) => true
    | _ => false
    end
}.

Definition Z_of_byte (b : Byte.byte) : Z := Z.of_N (Byte.to_N b).

Definition byte_of_Z (z : Z) : Byte.byte :=
  match Byte.of_N (Z.to_N (z mod 256)) with
  | Some b => b
  | None => Byte.x00
  end.

(** The [width] low-order bytes of [value], most significant first. *)
Fixpoint be_bytes (width : nat) (value : Z) : list Byte.byte :=
  match width with
  | O => []
  | S w => (be_bytes w (value / 256) ++ [byte_of_Z value])%list
  end.

Definition be_value (bytes : list Byte.byte) : Z :=
  fold_left (fun acc b => (acc * 256 + Z_of_byte b)%Z) bytes 0%Z.

(** [writeUInt8], [writeUInt32BE], [writeBigUInt64BE]: a value outside the
    range of the field raises a [RangeError] ([None]). *)
Definition writeUIntBE (width : nat) (value : Z) : option (list Byte.byte) :=
  if ((0 <=? value) && (value <? 2 ^ (8 * Z.of_nat width)))%Z
  then Some (be_bytes width value)
  else None.

(** [buffer.slice(start, stop)], which clamps to the buffer. *)
Definition slice (buffer : list Byte.byte) (start stop : nat) : list Byte.byte :=
  firstn (stop - start) (skipn start buffer).

(** [readUInt8], [readUInt32BE], [readBigUInt64BE]: reading past the end of
    the buffer raises a [RangeError] ([None]). *)
Definition readUIntBE (width : nat) (buffer : list Byte.byte) (offset : nat) : option Z :=
  if (offset + width <=? List.length buffer)%nat
  then Some (be_value (slice buffer offset (offset + width)))
  else None.

(** [Number(b)] for a BigInt [b >= 0]: the nearest double, ties to even; it
    is [b] itself up to [2^53]. *)
Definition Number_of_BigInt (b : Z) : Z :=
  let e := Z.log2 b in
  if (e <? 53)%Z then b
  else
    let ulp := (2 ^ (e - 52))%Z in
    let q := (b / ulp)%Z in
    let r := (b mod ulp)%Z in
    let q' :=
      if (2 * r <? ulp)%Z then q
      else if (ulp <? 2 * r)%Z then (q + 1)%Z
      else if Z.even q then q else (q + 1)%Z in
    (q' * ulp)%Z.

Section Protocol.

Context {codec : JSON} {syntax : JSONSyntax} {utf8 : UTF8}.

(** Format: [code:1][sender_len:1][sender:N][timestamp:8][data_len:4][data:M] *)
Definition encodeSignal (signal : Signal) : option (list Byte.byte) :=
  let senderBuffer := Buffer_from (sg_sender signal) in
  let dataBuffer :=
    match sg_data signal with
    | Some data => if truthy data then Buffer_from (JSON_stringify data) else []
    | None => []
    end in
  match writeUIntBE 1 (sg_code signal),
        writeUIntBE 1 (Z.of_nat (List.length senderBuffer)),
        writeUIntBE 8 (sg_timestamp signal),
        writeUIntBE 4 (Z.of_nat (List.length dataBuffer)) with
  | Some code, Some senderLen, Some timestamp, Some dataLen =>
      Some (code ++ senderLen ++ senderBuffer ++ timestamp ++ dataLen ++ dataBuffer)%list
  | _, _, _, _ => None
  end.

Definition decodeSignal (buffer : list Byte.byte) : option Signal :=
  match readUIntBE 1 buffer 0 with
  | None => None
  | Some code =>
      match readUIntBE 1 buffer 1 with
      | None => None
      | Some senderLen =>
          let senderEnd := (2 + Z.to_nat senderLen)%nat in
          let sender := Buffer_toString (slice buffer 2 senderEnd) in
          match readUIntBE 8 buffer senderEnd with
          | None => None
          | Some timestamp =>
              match readUIntBE 4 buffer (senderEnd + 8) with
              | None => None
              | Some dataLen =>
                  let offset := (senderEnd + 12)%nat in
                  let data :=
                    if (0 <? dataLen)%Z then
                      let dataStr :=
                        Buffer_toString
                          (slice buffer offset (offset + Z.to_nat dataLen)) in
                      Some (if JSON_accepts dataStr then JSON_parse dataStr
                            else JObj [("raw", JStr dataStr)])
                    else None in
                  Some {| sg_code := code;
                          sg_name := getSignalName code;
                          sg_sender := sender;
                          sg_timestamp := Number_of_BigInt timestamp;
                          sg_data := data |}
              end
          end
      end
  end.

(** [createSignal(code, sender, data)] at the instant [now]. *)
Definition createSignal (now : Z) (code : Z) (sender : string) (data : option json)
  : Signal := {|
  sg_code := code;
  sg_name := getSignalName code;
  sg_sender := sender;
  sg_timestamp := now;
  sg_data := data
|}.

End Protocol.

(** ** The tumbler (src/interlock/tumbler.ts) *)

Record TumblerConfig : Type := {
  tc_mode : string;
  tc_whitelist : option (list string);
  tc_blacklist : option (list string)
}.

(** The configuration the module starts with. *)
Definition default_tumbler_config : TumblerConfig := {|
  tc_mode := "whitelist";
  tc_whitelist := Some [];
  tc_blacklist := None
|}.

(** [list.includes(x)] *)
Definition list_includes (x : string) (l : list string) : bool :=
  existsb (fun y => (y =? x)%string) l.

(** Whether the configuration lets the signals of one name through. *)
Definition name_allowed (config : TumblerConfig) (signalName : string) : bool :=
  if (tc_mode config =? "whitelist")%string then
    match tc_whitelist config with
    | Some whitelist => list_includes signalName whitelist
    | None => false
    end
  else if (tc_mode config =? "blacklist")%string then
    negb match tc_blacklist config with
         | Some blacklist => list_includes signalName blacklist
         | None => false
         end
  else true.

(** [isSignalAllowed(signal)] starts with
    [getSignalName(signal.signalType)]; the signal is given by its
    properties. *)
Definition isSignalAllowed {upper_case : UpperCase}
  (config : TumblerConfig) (signal : list (string * json)) : result bool :=
  match getSignalName_of (assoc "signalType" signal) with
  | Err e => Err e
  | Ok signalName => Ok (name_allowed config signalName)
  end.

Definition getWhitelist (config : TumblerConfig) : list string :=
  match tc_whitelist config with
  | Some whitelist => whitelist
  | None => []
  end.

Definition addToWhitelist (signalName : string) (config : TumblerConfig)
  : TumblerConfig :=
  let whitelist := getWhitelist config in
  {| tc_mode := tc_mode config;
     tc_whitelist :=
       Some (if list_includes signalName whitelist then whitelist
             else (whitelist ++ [signalName])%list);
     tc_blacklist := tc_blacklist config |}.

(** [list.splice(list.indexOf(x), 1)] when [x] occurs: the first occurrence
    goes. *)
Fixpoint remove_first (x : string) (l : list string) : list string :=
  match l with
  | [] => []
  | y :: l' => if (y =? x)%string then l' else y :: remove_first x l'
  end.

Definition removeFromWhitelist (signalName : string) (config : TumblerConfig)
  : TumblerConfig := {|
  tc_mode := tc_mode config;
  tc_whitelist := option_map (remove_first signalName) (tc_whitelist config);
  tc_blacklist := tc_blacklist config
|}.

(** ** The claim handlers on signal objects (src/interlock/handlers.ts) *)

(** [const { sender, ...data } = signal.payload; data.lesson_id]: reading
    the properties of [undefined] or [null] raises; a payload that is no
    object has no [lesson_id]. *)
Definition payload_lesson_id (signal : list (string * json)) : result (option json) :=
  match assoc "payload" signal with
  | None | Some JNull => Err TypeError
  | Some (JObj fields) => Ok (assoc "lesson_id" fields)
  | Some _ => Ok None
  end.

Section ClaimSignals.

Context {codec : JSON}.

(** What a handler does with a truthy lesson id that is no number is up to
    the database driver, which decides what such a value selects; it is
    not modelled. *)
Variable other_lesson_id : json -> Store -> result (Store * option LessonValidated).

Definition handler_CLAIM_VERIFIED (now : Z) (signal : list (string * json)) (s : Store)
  : result (Store * option LessonValidated) :=
  match payload_lesson_id signal with
  | Err e => Err e
  | Ok None => Ok (on_CLAIM_VERIFIED now None s)
  | Ok (Some (JNum lessonId)) => Ok (on_CLAIM_VERIFIED now (Some lessonId) s)
  | Ok (Some lessonId) =>
      if truthy lessonId then other_lesson_id lessonId s
      else Ok (on_CLAIM_VERIFIED now None s)
  end.

Definition handler_CLAIM_REFUTED (now : Z) (signal : list (string * json)) (s : Store)
  : result (Store * option LessonValidated) :=
  match payload_lesson_id signal with
  | Err e => Err e
  | Ok None => Ok (on_CLAIM_REFUTED now None s)
  | Ok (Some (JNum lessonId)) => Ok (on_CLAIM_REFUTED now (Some lessonId) s)
  | Ok (Some lessonId) =>
      if truthy lessonId then other_lesson_id lessonId s
      else Ok (on_CLAIM_REFUTED now None s)
  end.

End ClaimSignals.

(** ** Trace propagation (src/http/server.ts) *)

Record TraceContext : Type := {
  traceId : string;
  spanId : string;
  parentSpanId : option string
}.

(** [text.split(sep)] for a one-character separator. *)
Fixpoint split_on (sep : ascii) (text : string) : list string :=
  match text with
  | EmptyString => [EmptyString]
  | String c rest =>
      if Ascii.eqb c sep then EmptyString :: split_on sep rest
      else
        match split_on sep rest with
        | part :: parts => String c part :: parts
        | [] => [String c EmptyString]
        end
  end.

Definition parseTraceparent (header : string) : option (string * string) :=
  let parts := split_on "-" header in
  if (List.length parts <? 3)%nat then None
  else Some (nth 1 parts EmptyString, nth 2 parts EmptyString).

Definition formatTraceparent (trace : TraceContext) : string :=
  "00-" ++ traceId trace ++ "-" ++ spanId trace ++ "-01".

(** A lesson drawn from the pattern of [rebuild_store]. *)
Definition linked_lesson_row : LessonRow := {|
  lr_id := 1;
  lr_statement := "Clean the cache before a rebuild";
  lr_pattern_id := Some 1%Z;
  lr_contexts := None;
  lr_initial_confidence := 0.6;
  lr_decay_constant := 0.01;
  lr_last_validated := 300;
  lr_times_applied := 0;
  lr_times_succeeded := 0;
  lr_created_at := 300;
  lr_deprecated_at := None
|}.

Definition linked_store : Store := set_lessons rebuild_store [linked_lesson_row] 1.

(** A signal as [emitExperienceRecorded] builds it. *)
Definition sample_signal : Signal := {|
  sg_code := SignalTypes.EXPERIENCE_RECORDED;
  sg_name := "EXPERIENCE_RECORDED";
  sg_sender := "experience-layer";
  sg_timestamp := 1767225600000;
  sg_data := Some (JObj [("episode_id", JNum 7); ("utility_score", JNum 1)])
|}.

Definition sample_trace : TraceContext := {|
  traceId := "4bf92f3577b34da6a3ce929d0e0e4736";
  spanId := "00f067aa0ba902b7";
  parentSpanId := None
|}.

(** * Properties *)

(** ** Numeric facts *)

Lemma day_ms_pos : 0 < day_ms.
Proof. unfold day_ms. lra. Qed.

Lemma exp_le_mono (x y : R) : x <= y -> exp x <= exp y.
Proof.
  intros [H | ->]; [left; now apply exp_increasing | right; reflexivity].
Qed.

Lemma Math_round_half_up (z : Z) (x : R) :
  IZR z - / 2 <= x < IZR z + / 2 -> Math_round x = z.
Proof.
  intros [Hlo Hhi]. unfold Math_round.
  assert (H : (z + 1)%Z = up (x + / 2)).
  { apply tech_up; rewrite plus_IZR; lra. }
  rewrite <- H. lia.
Qed.

Lemma elapsed_days_mono (a b : Z) :
  (a <= b)%Z -> IZR a / day_ms <= IZR b / day_ms.
Proof.
  intros H. apply IZR_le in H. pose proof day_ms_pos.
  unfold Rdiv. apply Rmult_le_compat_r; [left; now apply Rinv_0_lt_compat | lra].
Qed.

Lemma elapsed_days_strict (a b : Z) :
  (a < b)%Z -> IZR a / day_ms < IZR b / day_ms.
Proof.
  intros H. apply IZR_lt in H. pose proof day_ms_pos.
  unfold Rdiv. apply Rmult_lt_compat_r; [now apply Rinv_0_lt_compat | lra].
Qed.

(** ** Temporal decay *)

(** C6, as the code has it: for a confidence [c >= 0] and a decay constant
    [k >= 0], [calculateCurrentConfidence] is [c * e^(-k * days)], does not
    increase when the time elapsed since validation grows, and is [c] when
    read at the validation instant. *)
Theorem currentConfidence_decay (c k : R) (now1 t1 now2 t2 : Z) :
  0 <= c -> 0 <= k ->
  (now1 - t1 <= now2 - t2)%Z ->
  calculateCurrentConfidence now2 c k t2 <= calculateCurrentConfidence now1 c k t1
  /\ calculateCurrentConfidence t1 c k t1 = c
  /\ calculateCurrentConfidence now1 c k t1
     = c * exp (- k * (IZR (now1 - t1) / day_ms)).
Proof.
  intros Hc Hk Hle. unfold calculateCurrentConfidence. repeat split.
  - apply Rmult_le_compat_l; [assumption |]. apply exp_le_mono.
    pose proof (elapsed_days_mono _ _ Hle). nra.
  - rewrite Z.sub_diag. unfold Rdiv. rewrite Rmult_0_l, Rmult_0_r, exp_0. ring.
Qed.

Lemma currentConfidence_decay_witness :
  calculateCurrentConfidence 86400000 (1/2) (1/100) 0
  <= calculateCurrentConfidence 0 (1/2) (1/100) 0
  /\ calculateCurrentConfidence 0 (1/2) (1/100) 0 = 1/2
  /\ calculateCurrentConfidence 0 (1/2) (1/100) 0
     = 1/2 * exp (- (1/100) * (IZR (0 - 0) / day_ms)).
Proof.
  apply (currentConfidence_decay (1/2) (1/100) 0 0 86400000 0); [lra | lra | lia].
Defined.

(** C6, as stated, fails: the code computes in doubles, where the decay
    factor underflows.  With the confidence 0.5 and the decay constant
    0.01, both positive, the exponent is -1000 after 100000 days and -2000
    after 200000 days; every [Math.exp] that gives 0 there, as the
    exponentials are below the smallest positive double, makes the current
    confidence 0 at both instants, so that it does not strictly decrease
    between them.  The exponential by scaling and squaring is one. *)
Lemma currentConfidence_not_strict :
  let c := PrimFloat.div (Number_of_Z 1) (Number_of_Z 2) in
  let k := PrimFloat.div (Number_of_Z 1) (Number_of_Z 100) in
  let now1 := (100000 * day_ms_Z)%Z in
  let now2 := (200000 * day_ms_Z)%Z in
  PrimFloat.ltb (Number_of_Z 0) c = true
  /\ PrimFloat.ltb (Number_of_Z 0) k = true
  /\ (0 < now1 < now2)%Z
  /\ (forall math : Math64,
        Math_exp (Number_of_Z (-1000)) = Number_of_Z 0 ->
        Math_exp (Number_of_Z (-2000)) = Number_of_Z 0 ->
        calculateCurrentConfidence64 now1 c k 0 = Number_of_Z 0
        /\ calculateCurrentConfidence64 now2 c k 0 = Number_of_Z 0)
  /\ exp64 (Number_of_Z (-1000)) = Number_of_Z 0
  /\ exp64 (Number_of_Z (-2000)) = Number_of_Z 0
  /\ @calculateCurrentConfidence64 scaling_and_squaring now1 c k 0
     = @calculateCurrentConfidence64 scaling_and_squaring now2 c k 0.
Proof.
  cbv zeta.
  split; [vm_compute; reflexivity |]. split; [vm_compute; reflexivity |].
  split; [vm_compute; split; reflexivity |].
  split; [| split; [vm_compute; reflexivity |
                    split; [vm_compute; reflexivity | vm_compute; reflexivity]]].
  intros math H1 H2. unfold calculateCurrentConfidence64.
  change (PrimFloat.mul
            (PrimFloat.opp (PrimFloat.div (Number_of_Z 1) (Number_of_Z 100)))
            (PrimFloat.div (Number_of_Z (100000 * day_ms_Z - 0))
               (Number_of_Z day_ms_Z)))
    with (Number_of_Z (-1000)).
  change (PrimFloat.mul
            (PrimFloat.opp (PrimFloat.div (Number_of_Z 1) (Number_of_Z 100)))
            (PrimFloat.div (Number_of_Z (200000 * day_ms_Z - 0))
               (Number_of_Z day_ms_Z)))
    with (Number_of_Z (-2000)).
  rewrite H1, H2. split; vm_compute; reflexivity.
Qed.

(** ** Utility *)

(** C7: on scores in [0,1], [calculateUtilityScore] is exactly
    [0.3 * novelty + 0.5 * effectiveness + 0.2 * generalizability], a function
    of its three arguments only, and lies in [0,1]. *)
Theorem utilityScore_weighted_sum (novelty effectiveness generalizability : R) :
  0 <= novelty <= 1 -> 0 <= effectiveness <= 1 -> 0 <= generalizability <= 1 ->
  calculateUtilityScore novelty effectiveness generalizability
  = 0.3 * novelty + 0.5 * effectiveness + 0.2 * generalizability
  /\ 0 <= calculateUtilityScore novelty effectiveness generalizability <= 1.
Proof.
  intros Hn He Hg.
  unfold calculateUtilityScore, UTILITY_WEIGHTS.novelty,
    UTILITY_WEIGHTS.effectiveness, UTILITY_WEIGHTS.generalizability.
  split; [reflexivity | lra].
Qed.

Lemma utilityScore_weighted_sum_witness :
  calculateUtilityScore 1 (1/2) 0 = 0.3 * 1 + 0.5 * (1/2) + 0.2 * 0
  /\ 0 <= calculateUtilityScore 1 (1/2) 0 <= 1.
Proof.
  apply (utilityScore_weighted_sum 1 (1/2) 0); lra.
Defined.

(** ** Tables *)

Lemma max_rowid_ge (ids : list Z) (x : Z) : In x ids -> (x <= max_rowid ids)%Z.
Proof.
  induction ids as [| y ids IH]; simpl; [tauto |].
  intros [-> | H]; [lia | specialize (IH H); lia].
Qed.

Lemma next_rowid_fresh (ids : list Z) (seq x : Z) :
  In x ids -> (x < next_rowid ids seq)%Z.
Proof.
  intros H. apply max_rowid_ge in H. unfold next_rowid. lia.
Qed.

Section Keyed.

Context {A : Type} (key : A -> Z).

Lemma find_key_none (l : list A) (id : Z) :
  ~ In id (map key l) -> find (fun r => (key r =? id)%Z) l = None.
Proof.
  induction l as [| r l IH]; simpl; [reflexivity |].
  intros H. destruct (Z.eqb_spec (key r) id) as [E | E]; [tauto |].
  apply IH. tauto.
Qed.

Lemma find_app_fresh (l : list A) (row : A) (seq id : Z) :
  id = next_rowid (map key l) seq ->
  key row = id ->
  find (fun r => (key r =? id)%Z) (l ++ [row]) = Some row.
Proof.
  intros H Hrow.
  assert (Hfresh : ~ In id (map key l)).
  { intros Hin. apply (next_rowid_fresh _ seq) in Hin. lia. }
  clear H. induction l as [| r l IH]; simpl.
  - now rewrite Hrow, Z.eqb_refl.
  - simpl in Hfresh. destruct (Z.eqb_spec (key r) id); [tauto |].
    apply IH. tauto.
Qed.

Lemma find_app_old (l : list A) (row : A) (id : Z) :
  key row <> id ->
  find (fun r => (key r =? id)%Z) (l ++ [row])
  = find (fun r => (key r =? id)%Z) l.
Proof.
  intros H. induction l as [| r l IH]; simpl.
  - destruct (Z.eqb_spec (key row) id); [tauto | reflexivity].
  - destruct (key r =? id)%Z; [reflexivity | exact IH].
Qed.

Lemma find_map_update (f : A -> A) (id id' : Z) (l : list A) :
  (forall r, key (f r) = key r) ->
  find (fun r => (key r =? id')%Z)
       (map (fun r => if (key r =? id)%Z then f r else r) l)
  = option_map (fun r => if (key r =? id)%Z then f r else r)
               (find (fun r => (key r =? id')%Z) l).
Proof.
  intros Hf. induction l as [| r l IH]; simpl; [reflexivity |].
  destruct (key r =? id)%Z eqn:E.
  - rewrite Hf. destruct (key r =? id')%Z; [simpl; now rewrite E | exact IH].
  - destruct (key r =? id')%Z; [simpl; now rewrite E | exact IH].
Qed.

Lemma find_key_eq (l : list A) (id : Z) (r : A) :
  find (fun r => (key r =? id)%Z) l = Some r -> key r = id.
Proof.
  intros H. apply find_some in H. destruct H as [_ H].
  now apply Z.eqb_eq.
Qed.

Lemma map_key_update (f : A -> A) (id : Z) (l : list A) :
  (forall r, key (f r) = key r) ->
  map key (map (fun r => if (key r =? id)%Z then f r else r) l) = map key l.
Proof.
  intros Hf. rewrite map_map. apply map_ext. intros r.
  destruct (key r =? id)%Z; [apply Hf | reflexivity].
Qed.

End Keyed.

(** ** Applying a lesson *)

Lemma clamp_bounds (lo hi x : R) : lo <= hi -> lo <= Rmax lo (Rmin hi x) <= hi.
Proof.
  intros H. unfold Rmax, Rmin.
  destruct (Rle_dec hi x), (Rle_dec lo _); lra.
Qed.

Lemma clamp_inside (lo hi x : R) : lo <= x <= hi -> Rmax lo (Rmin hi x) = x.
Proof.
  intros H. unfold Rmax, Rmin.
  destruct (Rle_dec hi x), (Rle_dec lo _); lra.
Qed.

(** The counter [applyLesson] stores: a partial success rounds up to one
    more success. *)
Lemma stored_times_succeeded (times_succeeded : Z) (outcome : Outcome) :
  Math_round (IZR times_succeeded + evidence_of outcome)
  = (times_succeeded + match outcome with failure => 0 | _ => 1 end)%Z.
Proof.
  apply Math_round_half_up. rewrite plus_IZR.
  destruct outcome; unfold evidence_of; simpl IZR; lra.
Qed.

Section ApplyLesson.

Context {codec : JSON}.

Lemma lessons_updatePattern (id : Z) (u : PatternUpdates) (s : Store) :
  lessons (fst (updatePattern id u s)) = lessons s.
Proof. unfold updatePattern. now destruct (no_pattern_field u). Qed.

Lemma getLesson_row (s : Store) (id : Z) (l : Lesson) :
  getLesson s id = Some l ->
  exists row, find (fun r => (lr_id r =? id)%Z) (lessons s) = Some row
              /\ l = rowToLesson row.
Proof.
  unfold getLesson. destruct (find _ _) as [row |]; simpl; [| discriminate].
  intros [= <-]. now exists row.
Qed.

(** The deprecation rule: below the threshold with at least five
    applications, the lesson is deprecated now; otherwise the store is left
    as it is. *)
Lemma auto_deprecate_rule (now id : Z) (c : R) (n : Z) (s : Store) :
  (c < CONFIDENCE_THRESHOLDS.deprecation -> (5 <= n)%Z ->
   forall l, getLesson s id = Some l ->
   exists l', getLesson (auto_deprecate now id c n s) id = Some l'
              /\ l_deprecated_at l' = Some now)
  /\ (~ (c < CONFIDENCE_THRESHOLDS.deprecation /\ (5 <= n)%Z) ->
      auto_deprecate now id c n s = s).
Proof.
  unfold auto_deprecate. split.
  - intros Hc Hn l Hl.
    destruct (Rlt_dec c CONFIDENCE_THRESHOLDS.deprecation); [| tauto].
    destruct (Z.leb_spec 5 n); [| lia].
    apply getLesson_row in Hl. destruct Hl as (row & Hrow & ->).
    unfold getLesson, deprecateLesson; simpl.
    rewrite (find_map_update lr_id (set_deprecated_at now) id id) by reflexivity.
    rewrite Hrow. simpl. rewrite (find_key_eq _ _ _ _ Hrow), Z.eqb_refl.
    eexists; split; reflexivity.
  - intros H.
    destruct (Rlt_dec c CONFIDENCE_THRESHOLDS.deprecation); [| reflexivity].
    destruct (Z.leb_spec 5 n); [tauto | reflexivity].
Qed.

(** A clamped confidence never triggers the deprecation rule. *)
Lemma auto_deprecate_clamped (now id : Z) (x : R) (n : Z) (s : Store) :
  auto_deprecate now id (Rmax 0.1 (Rmin 0.95 x)) n s = s.
Proof.
  apply auto_deprecate_rule. intros [H _].
  unfold CONFIDENCE_THRESHOLDS.deprecation in H.
  pose proof (clamp_bounds 0.1 0.95 x). lra.
Qed.

(** What a successful [applyLesson] does to the lessons table: the row of
    the lesson is rewritten, nothing else. *)
Lemma applyLesson_found (now id : Z) (outcome : Outcome) (s : Store) (l : Lesson) :
  getLesson s id = Some l ->
  exists s' r,
    applyLesson now {| ali_lesson_id := id; ali_outcome := outcome |} s = Ok (s', r)
    /\ alr_new_confidence r = applied_confidence now l outcome
    /\ lessons s' =
       map (fun row =>
              if (lr_id row =? id)%Z
              then apply_lesson_updates (applied_updates now l outcome) row
              else row) (lessons s).
Proof.
  intros Hl. unfold applyLesson.
  cbv beta iota zeta delta [ali_lesson_id ali_outcome].
  rewrite Hl. unfold updateLesson.
  cbn [no_lesson_field lu_initial_confidence is_some orb negb].
  cbv iota beta. rewrite auto_deprecate_clamped.
  eexists. eexists. split; [reflexivity |]. split; [reflexivity |].
  destruct (l_pattern_id l) as [pid |]; [| reflexivity].
  destruct (pid =? 0)%Z; [reflexivity |].
  match goal with |- context [getPattern ?s pid] => destruct (getPattern s pid) end;
    [| reflexivity].
  now rewrite lessons_updatePattern.
Qed.

Lemma applyLesson_missing (now id : Z) (outcome : Outcome) (s : Store) :
  getLesson s id = None ->
  applyLesson now {| ali_lesson_id := id; ali_outcome := outcome |} s
  = Err (NotFound id).
Proof. intros H. unfold applyLesson. simpl. now rewrite H. Qed.

Lemma getLesson_applied (now id : Z) (outcome : Outcome) (s s' : Store) (l : Lesson) :
  getLesson s id = Some l ->
  lessons s' =
    map (fun row =>
           if (lr_id row =? id)%Z
           then apply_lesson_updates (applied_updates now l outcome) row
           else row) (lessons s) ->
  exists l',
    getLesson s' id = Some l'
    /\ l_initial_confidence l' = applied_confidence now l outcome
    /\ l_last_validated l' = now
    /\ l_times_applied l' = (l_times_applied l + 1)%Z
    /\ l_deprecated_at l' = l_deprecated_at l.
Proof.
  intros Hl Hs'. apply getLesson_row in Hl. destruct Hl as (row & Hrow & ->).
  unfold getLesson. rewrite Hs'.
  rewrite (find_map_update lr_id _ id id) by reflexivity.
  rewrite Hrow. simpl. rewrite (find_key_eq _ _ _ _ Hrow), Z.eqb_refl.
  eexists. split; [reflexivity |]. repeat split.
Qed.

Lemma deprecated_at_applied (u : LessonUpdates) (id : Z) (rows : list LessonRow) :
  lu_deprecated_at u = None ->
  map lr_deprecated_at
      (map (fun row => if (lr_id row =? id)%Z then apply_lesson_updates u row else row)
           rows)
  = map lr_deprecated_at rows.
Proof.
  intros Hu. rewrite map_map. apply map_ext. intros row.
  destruct (lr_id row =? id)%Z; [| reflexivity].
  simpl. now rewrite Hu.
Qed.

(** C1: for an existing lesson and any outcome, [applyLesson] succeeds;
    the new confidence is the prior weight times the decayed previous
    confidence plus the evidence weight times
    [0.7 * successRate + 0.3 * evidenceConfidence], with
    [priorWeight = max(0.3, 1 - ln(timesApplied + 1) / 5)],
    [evidenceWeight = 1 - priorWeight] and evidence 1 / 0.5 / 0 by outcome,
    clamped to [0.1, 0.95]; it is stored as [initial_confidence] with
    [last_validated = now]; the lesson is deprecated when the new confidence
    is below 0.1 with at least five applications; an id that does not
    resolve fails with [NotFound]. *)
Theorem applyLesson_bayesian_update (now id : Z) (outcome : Outcome) (s : Store) :
  (forall l, getLesson s id = Some l ->
     let timesApplied := (l_times_applied l + 1)%Z in
     let previousConfidence :=
       l_initial_confidence l
       * exp (- l_decay_constant l * (IZR (now - l_last_validated l) / day_ms)) in
     let evidenceConfidence :=
       match outcome with success => 1 | partial => 0.5 | failure => 0 end in
     let successRate :=
       (IZR (l_times_succeeded l) + evidenceConfidence) / IZR timesApplied in
     let priorWeight := Rmax 0.3 (1 - ln (IZR timesApplied + 1) / 5) in
     let evidenceWeight := 1 - priorWeight in
     let blended :=
       priorWeight * previousConfidence
       + evidenceWeight * (0.7 * successRate + 0.3 * evidenceConfidence) in
     let newConfidence := Rmax 0.1 (Rmin 0.95 blended) in
     exists s' r l',
       applyLesson now {| ali_lesson_id := id; ali_outcome := outcome |} s
       = Ok (s', r)
       /\ alr_new_confidence r = newConfidence
       /\ 0.1 <= newConfidence <= 0.95
       /\ (0.1 <= blended <= 0.95 -> newConfidence = blended)
       /\ getLesson s' id = Some l'
       /\ l_initial_confidence l' = newConfidence
       /\ l_last_validated l' = now
       /\ (newConfidence < 0.1 -> (5 <= timesApplied)%Z ->
           l_deprecated_at l' = Some now)
       /\ lessons s'
          = lessons (auto_deprecate now id newConfidence timesApplied
                       (fst (updateLesson id (applied_updates now l outcome) s))))
  /\ (forall confidence applications st l0,
        confidence < 0.1 -> (5 <= applications)%Z ->
        getLesson st id = Some l0 ->
        exists l1,
          getLesson (auto_deprecate now id confidence applications st) id = Some l1
          /\ l_deprecated_at l1 = Some now)
  /\ (getLesson s id = None ->
      applyLesson now {| ali_lesson_id := id; ali_outcome := outcome |} s
      = Err (NotFound id)).
Proof.
  split; [| split; [| apply applyLesson_missing]].
  2: { intros confidence applications st l0 Hc Hn Hl0.
       exact (proj1 (auto_deprecate_rule now id confidence applications st)
                Hc Hn l0 Hl0). }
  intros l Hl; intros.
  destruct (applyLesson_found now id outcome s l Hl) as (s' & r & Happ & Hr & Hs').
  destruct (getLesson_applied now id outcome s s' l Hl Hs')
    as (l' & Hl' & Hconf & Hval & _ & _).
  assert (Hnew : applied_confidence now l outcome = newConfidence) by reflexivity.
  pose proof (clamp_bounds 0.1 0.95 blended ltac:(lra)) as Hb.
  fold newConfidence in Hb.
  exists s', r, l'.
  split; [exact Happ |]. split; [congruence |]. split; [exact Hb |].
  split; [intros H; now apply clamp_inside |].
  split; [exact Hl' |]. split; [congruence |]. split; [exact Hval |].
  split; [intros H; lra |].
  unfold newConfidence. rewrite Hs', auto_deprecate_clamped.
  unfold updateLesson.
  cbn [no_lesson_field applied_updates lu_initial_confidence is_some orb negb].
  reflexivity.
Qed.

(** C2: a successful [applyLesson] stores an [initial_confidence] in
    [0.1, 0.95] and leaves every [deprecated_at] as it was: the deprecation
    check is never satisfied by a clamped confidence. *)
Theorem applyLesson_never_deprecates
  (now : Z) (input : ApplyLessonInput) (s s' : Store) (r : ApplyLessonResult) :
  applyLesson now input s = Ok (s', r) ->
  (exists l', getLesson s' (ali_lesson_id input) = Some l'
              /\ l_initial_confidence l' = alr_new_confidence r
              /\ 0.1 <= l_initial_confidence l' <= 0.95)
  /\ map lr_deprecated_at (lessons s') = map lr_deprecated_at (lessons s)
  /\ (forall x n st,
        auto_deprecate now (ali_lesson_id input) (Rmax 0.1 (Rmin 0.95 x)) n st = st).
Proof.
  intros Happ. destruct input as [id outcome]. simpl.
  destruct (getLesson s id) as [l |] eqn:Hl.
  - destruct (applyLesson_found now id outcome s l Hl) as (s1 & r1 & Happ1 & Hr & Hs').
    rewrite Happ1 in Happ. injection Happ as -> ->.
    destruct (getLesson_applied now id outcome s s' l Hl Hs')
      as (l' & Hl' & Hconf & _).
    split; [| split].
    + exists l'. split; [assumption |]. split; [congruence |].
      rewrite Hconf. apply clamp_bounds. lra.
    + rewrite Hs'. now apply deprecated_at_applied.
    + intros. apply auto_deprecate_clamped.
  - rewrite (applyLesson_missing now id outcome s Hl) in Happ. discriminate.
Qed.

End ApplyLesson.

Lemma applyLesson_bayesian_update_witness :
  exists s' r l',
    applyLesson 86400000 {| ali_lesson_id := 1; ali_outcome := success |} sample_lessons
    = Ok (s', r)
    /\ getLesson s' 1 = Some l'
    /\ l_initial_confidence l' = alr_new_confidence r
    /\ 0.1 <= alr_new_confidence r <= 0.95
    /\ l_last_validated l' = 86400000%Z.
Proof.
  destruct (proj1 (applyLesson_bayesian_update 86400000 1 success sample_lessons)
              (rowToLesson sample_lesson_row) eq_refl)
    as (s' & r & l' & Happ & Hr & Hb & _ & Hl' & Hc & Hv & _ & _).
  exists s', r, l'. rewrite Hr. rewrite Hc. tauto.
Defined.

Lemma applyLesson_never_deprecates_witness :
  exists s' r,
    applyLesson 86400000 {| ali_lesson_id := 1; ali_outcome := failure |} sample_lessons
    = Ok (s', r)
    /\ map lr_deprecated_at (lessons s') = [None].
Proof.
  destruct (applyLesson_found 86400000 1 failure sample_lessons
              (rowToLesson sample_lesson_row) eq_refl) as (s' & r & Happ & _).
  exists s', r. split; [exact Happ |].
  exact (proj1 (proj2 (applyLesson_never_deprecates _ _ _ _ _ Happ))).
Defined.

(** ** Learning from a pattern *)

Lemma find_key_in {A : Type} (key : A -> Z) (l : list A) (row : A) :
  In row l -> exists r, find (fun r => (key r =? key row)%Z) l = Some r.
Proof.
  induction l as [| x l IH]; simpl; [tauto |].
  intros [-> | H].
  - rewrite Z.eqb_refl. now exists row.
  - destruct (key x =? key row)%Z; [now exists x | now apply IH].
Qed.



Section LearnFromPattern.

Context {codec : JSON}.


Lemma getEpisodesByIds_within (s : Store) (ids : list Z) :
  (Z.of_nat (List.length ids) <= SQLITE_MAX_VARIABLE_NUMBER)%Z ->
  getEpisodesByIds s ids = Ok (selected_by_ids s ids).
Proof.
  intros H. unfold getEpisodesByIds. destruct ids as [| i ids].
  - unfold selected_by_ids. f_equal.
    induction (episodes s) as [| r l IH]; [reflexivity | exact IH].
  - destruct (Z.ltb_spec SQLITE_MAX_VARIABLE_NUMBER
                (Z.of_nat (List.length (i :: ids)))); [lia | reflexivity].
Qed.

Lemma getEpisodesByIds_beyond (s : Store) (ids : list Z) :
  (SQLITE_MAX_VARIABLE_NUMBER < Z.of_nat (List.length ids))%Z ->
  getEpisodesByIds s ids = Err (SqliteError "too many SQL variables").
Proof.
  intros H. unfold getEpisodesByIds. destruct ids as [| i ids].
  - unfold SQLITE_MAX_VARIABLE_NUMBER in H. simpl in H. lia.
  - destruct (Z.ltb_spec SQLITE_MAX_VARIABLE_NUMBER
                (Z.of_nat (List.length (i :: ids)))); [reflexivity | lia].
Qed.

(** A learning that succeeds has looked up at most as many ids as a
    statement may hold variables. *)
Lemma learnFromPattern_looked_up
  (now : Z) (input : LearnFromPatternInput) (s s' : Store) (r : LearnFromPatternResult) :
  learnFromPattern now input s = Ok (s', r) ->
  (Z.of_nat (List.length (lfi_episode_ids input)) <= SQLITE_MAX_VARIABLE_NUMBER)%Z
  /\ getEpisodesByIds s (lfi_episode_ids input)
     = Ok (selected_by_ids s (lfi_episode_ids input)).
Proof.
  intros H.
  destruct (Z.le_gt_cases (Z.of_nat (List.length (lfi_episode_ids input)))
              SQLITE_MAX_VARIABLE_NUMBER) as [Hle | Hgt].
  - split; [exact Hle | now apply getEpisodesByIds_within].
  - unfold learnFromPattern in H.
    rewrite getEpisodesByIds_beyond in H by exact Hgt. discriminate.
Qed.






Lemma getLesson_inserted (l : Lesson) (s : Store) :
  exists l',
    getLesson (fst (insertLesson l s)) (snd (insertLesson l s)) = Some l'
    /\ l_initial_confidence l' = l_initial_confidence l
    /\ l_pattern_id l' = l_pattern_id l
    /\ l_deprecated_at l' = l_deprecated_at l.
Proof.
  unfold getLesson, insertLesson. simpl.
  match goal with |- context [find _ (_ ++ [?row])] =>
    rewrite (find_app_fresh lr_id (lessons s) row (lessons_seq s) _ eq_refl eq_refl)
  end.
  eexists. split; [reflexivity |]. repeat split.
Qed.

Lemma patterns_insertLesson (l : Lesson) (s : Store) :
  patterns (fst (insertLesson l s)) = patterns s.
Proof. reflexivity. Qed.

Lemma learnFromPattern_sufficient
  (now : Z) (input : LearnFromPatternInput) (s : Store) :
  (Z.of_nat (List.length (lfi_episode_ids input)) <= SQLITE_MAX_VARIABLE_NUMBER)%Z ->
  (3 <= List.length (selected_by_ids s (lfi_episode_ids input)))%nat ->
  exists s' r pattern_id p l,
    learnFromPattern now input s = Ok (s', r)
    /\ lfr_pattern_id r = Some pattern_id
    /\ getPattern s' pattern_id = Some p
    /\ getLesson s' (lfr_lesson_id r) = Some l
    /\ l_pattern_id l = Some pattern_id
    /\ l_initial_confidence l
       = learned_confidence (selected_by_ids s (lfi_episode_ids input))
    /\ lfr_initial_confidence r = l_initial_confidence l.
Proof.
  intros Hids H. unfold learnFromPattern, PATTERN_CONFIG.minEpisodes.
  rewrite getEpisodesByIds_within by exact Hids.
  set (resolved := selected_by_ids s (lfi_episode_ids input)) in *.
  destruct (Nat.ltb_spec (List.length resolved) 3); [lia |].
  match goal with
  | |- context [let (s1, patternId) := ?e in _] =>
      assert (Hp : exists p, getPattern (fst e) (snd e) = Some p)
  end.
  { unfold findPatternByDescription, getPattern.
    destruct (find_matching_row s (lfi_pattern_description input))
      as [row |] eqn:E; simpl.
    - apply find_some in E. destruct E as [Hin _].
      unfold updatePattern; simpl.
      rewrite (find_map_update pr_id _ (pr_id row) (pr_id row)) by reflexivity.
      destruct (find_key_in pr_id _ _ Hin) as (r0 & ->).
      eexists; reflexivity.
    - match goal with |- context [find _ (_ ++ [?row])] =>
        rewrite (find_app_fresh pr_id (patterns s) row (patterns_seq s) _ eq_refl eq_refl)
      end.
      eexists; reflexivity. }
  match goal with
  | |- context [let (s1, patternId) := ?e in _] => destruct e as [s1 pid]
  end.
  simpl in Hp. destruct Hp as (p & Hp).
  match goal with
  | |- context [insertLesson ?l s1] =>
      destruct (getLesson_inserted l s1) as (l' & Hl' & Hc & Hpid & _);
      pose proof (patterns_insertLesson l s1) as Hpat;
      destruct (insertLesson l s1) as [s2 lid]
  end.
  simpl in *.
  exists s2, {| lfr_lesson_id := lid; lfr_created := true;
                lfr_initial_confidence := learned_confidence resolved;
                lfr_pattern_id := Some pid |}, pid, p, l'.
  split; [reflexivity |]. split; [reflexivity |].
  split; [unfold getPattern in *; now rewrite Hpat |].
  split; [exact Hl' |]. split; [exact Hpid |]. split; [exact Hc |].
  simpl. now rewrite Hc.
Qed.

Lemma learned_confidence_clamped (l : list Episode) :
  0.3 <= learned_confidence l <= 0.9.
Proof.
  unfold learned_confidence, Rmin, Rmax.
  repeat match goal with |- context [Rle_dec ?a ?b] => destruct (Rle_dec a b) end;
    lra.
Qed.


End LearnFromPattern.






(** ** Ordered scans *)

Lemma Rltb_true (x y : R) : Rltb x y = true <-> x < y.
Proof. unfold Rltb. destruct (Rlt_dec x y); split; intros; try tauto; discriminate. Qed.

Lemma Rltb_false (x y : R) : Rltb x y = false <-> y <= x.
Proof.
  unfold Rltb. destruct (Rlt_dec x y) as [H | H]; split; intros H'.
  - discriminate.
  - exfalso. lra.
  - lra.
  - reflexivity.
Qed.

Lemma Rleb_true (x y : R) : Rleb x y = true <-> x <= y.
Proof. unfold Rleb. destruct (Rle_dec x y); split; intros; try tauto; discriminate. Qed.

Section OrderBy.

Context {A : Type} (lt : A -> A -> bool).

Lemma insert_desc_perm (x : A) (l : list A) : Permutation (insert_desc lt x l) (x :: l).
Proof.
  induction l as [| y l IH]; simpl; [apply Permutation_refl |].
  destruct (lt x y); [| apply Permutation_refl].
  eapply perm_trans; [apply perm_skip, IH | apply perm_swap].
Qed.

Lemma order_by_desc_perm (l : list A) : Permutation (order_by_desc lt l) l.
Proof.
  induction l as [| x l IH]; simpl; [constructor |].
  eapply perm_trans; [apply insert_desc_perm | now apply perm_skip].
Qed.

Lemma order_by_desc_length (l : list A) :
  List.length (order_by_desc lt l) = List.length l.
Proof. apply Permutation_length, order_by_desc_perm. Qed.

Lemma order_by_desc_In (x : A) (l : list A) : In x (order_by_desc lt l) <-> In x l.
Proof.
  split; apply Permutation_in;
    [apply order_by_desc_perm | apply Permutation_sym, order_by_desc_perm].
Qed.

(** [lt] compares keys: it is asymmetric and its complement is transitive. *)
Hypothesis lt_asym : forall a b, lt a b = true -> lt b a = false.
Hypothesis ge_trans : forall a b c, lt a b = false -> lt b c = false -> lt a c = false.

Lemma insert_desc_sorted (x : A) (l : list A) :
  StronglySorted (fun a b => lt a b = false) l -> StronglySorted (fun a b => lt a b = false) (insert_desc lt x l).
Proof.
  induction l as [| y l IH]; simpl; intros Hs.
  - repeat constructor.
  - apply StronglySorted_inv in Hs. destruct Hs as [Hl Hy].
    destruct (lt x y) eqn:E.
    + constructor; [now apply IH |].
      rewrite Forall_forall in *. intros z Hz.
      apply (Permutation_in _ (insert_desc_perm x l)) in Hz.
      destruct Hz as [<- | Hz]; [now apply lt_asym | now apply Hy].
    + constructor; [now constructor |].
      constructor; [exact E |].
      rewrite Forall_forall in *. intros z Hz.
      apply (ge_trans x y z); [exact E | now apply Hy].
Qed.

Lemma order_by_desc_sorted (l : list A) : StronglySorted (fun a b => lt a b = false) (order_by_desc lt l).
Proof.
  induction l as [| x l IH]; simpl; [constructor | now apply insert_desc_sorted].
Qed.

(** Stability: rows that are tied keep the order of the scan. *)
Lemma insert_desc_stable (tied : A -> bool) (x : A) (l : list A) :
  (forall a b, tied a = true -> tied b = true -> lt a b = false) ->
  filter tied (insert_desc lt x l) = filter tied (x :: l).
Proof.
  intros Htied. induction l as [| y l IH]; [reflexivity |].
  simpl. destruct (lt x y) eqn:E; [| reflexivity].
  simpl. simpl in IH. rewrite IH.
  destruct (tied x) eqn:Ex, (tied y) eqn:Ey; try reflexivity.
  rewrite (Htied x y Ex Ey) in E. discriminate.
Qed.

Lemma order_by_desc_stable (tied : A -> bool) (l : list A) :
  (forall a b, tied a = true -> tied b = true -> lt a b = false) ->
  filter tied (order_by_desc lt l) = filter tied l.
Proof.
  intros Htied. induction l as [| x l IH]; [reflexivity |].
  simpl order_by_desc. rewrite insert_desc_stable by exact Htied.
  simpl. now rewrite IH.
Qed.

End OrderBy.

Lemma StronglySorted_filter {A : Type} (R : A -> A -> Prop) (keep : A -> bool) (l : list A) :
  StronglySorted R l -> StronglySorted R (filter keep l).
Proof.
  induction 1 as [| x l Hs IH Hx]; simpl; [constructor |].
  destruct (keep x); [| exact IH].
  constructor; [exact IH |].
  rewrite Forall_forall in *. intros y Hy. apply filter_In in Hy. now apply Hx.
Qed.

Lemma StronglySorted_map {A B : Type} (R : A -> A -> Prop) (Q : B -> B -> Prop)
  (f : A -> B) (l : list A) :
  (forall a b, R a b -> Q (f a) (f b)) ->
  StronglySorted R l -> StronglySorted Q (map f l).
Proof.
  intros HRQ. induction 1 as [| x l Hs IH Hx]; simpl; constructor; [exact IH |].
  rewrite Forall_forall in *. intros y Hy. apply in_map_iff in Hy.
  destruct Hy as (z & <- & Hz). now apply HRQ, Hx.
Qed.

(** ** Active lessons *)

Lemma currentConfidence_at_validation (c k : R) (t : Z) :
  calculateCurrentConfidence t c k t = c.
Proof.
  unfold calculateCurrentConfidence. rewrite Z.sub_diag.
  unfold Rdiv. rewrite Rmult_0_l, Rmult_0_r, exp_0. ring.
Qed.

Lemma Reqb_true (x y : R) : Reqb x y = true <-> x = y.
Proof. unfold Reqb. destruct (Req_dec_T x y); split; intros; try tauto; discriminate. Qed.

Lemma filter_map_swap {A B : Type} (f : A -> B) (keep : B -> bool) (l : list A) :
  filter keep (map f l) = map f (filter (fun a => keep (f a)) l).
Proof.
  induction l as [| a l IH]; simpl; [reflexivity |].
  destruct (keep (f a)); simpl; now rewrite IH.
Qed.

Lemma filter_filter_swap {A : Type} (p q : A -> bool) (l : list A) :
  filter p (filter q l) = filter q (filter p l).
Proof.
  induction l as [| a l IH]; simpl; [reflexivity |].
  destruct (p a) eqn:Ep, (q a) eqn:Eq; simpl; rewrite ?Ep, ?Eq, IH; reflexivity.
Qed.

Section ActiveLessons.

Context {codec : JSON}.

Lemma initial_confidence_lt_asym (a b : LessonRow) :
  initial_confidence_lt a b = true -> initial_confidence_lt b a = false.
Proof.
  unfold initial_confidence_lt. rewrite Rltb_true, Rltb_false. lra.
Qed.

Lemma initial_confidence_ge_trans (a b c : LessonRow) :
  initial_confidence_lt a b = false -> initial_confidence_lt b c = false ->
  initial_confidence_lt a c = false.
Proof.
  unfold initial_confidence_lt. rewrite !Rltb_false. lra.
Qed.

Lemma getActiveLessons_In (now : Z) (s : Store) (minConfidence : R)
  (lw : LessonWithConfidence) :
  In lw (getActiveLessons now s minConfidence) <->
  exists row,
    In row (lessons s) /\ lr_deprecated_at row = None
    /\ lw = with_current_confidence now row
    /\ minConfidence <= current_confidence lw.
Proof.
  unfold getActiveLessons. rewrite filter_In, in_map_iff, Rleb_true. split.
  - intros [(row & <- & Hrow) Hmin].
    apply order_by_desc_In, filter_In in Hrow. destruct Hrow as [Hrow Hact].
    exists row. repeat split; try assumption.
    now destruct (lr_deprecated_at row).
  - intros (row & Hrow & Hact & -> & Hmin). split; [| exact Hmin].
    exists row. split; [reflexivity |].
    apply order_by_desc_In, filter_In. split; [exact Hrow |].
    now rewrite Hact.
Qed.

Lemma getActiveLessons_sorted (now : Z) (s : Store) (minConfidence : R) :
  StronglySorted
    (fun a b => l_initial_confidence (lesson b) <= l_initial_confidence (lesson a))
    (getActiveLessons now s minConfidence).
Proof.
  unfold getActiveLessons. apply StronglySorted_filter.
  apply StronglySorted_map with (R := fun a b => initial_confidence_lt a b = false).
  - intros a b. unfold initial_confidence_lt. rewrite Rltb_false. simpl. tauto.
  - apply order_by_desc_sorted;
      [exact initial_confidence_lt_asym | exact initial_confidence_ge_trans].
Qed.

(** The scan of the active lessons before it is ordered. *)
Lemma getActiveLessons_stable (now : Z) (s : Store) (minConfidence c : R) :
  let tied := fun lw => Reqb (l_initial_confidence (lesson lw)) c in
  filter tied (getActiveLessons now s minConfidence)
  = filter tied
      (filter (fun lw => Rleb minConfidence (current_confidence lw))
         (map (with_current_confidence now)
            (filter (fun row => negb (is_some (lr_deprecated_at row))) (lessons s)))).
Proof.
  intros tied. unfold getActiveLessons.
  rewrite !(filter_filter_swap tied). f_equal.
  rewrite !filter_map_swap. f_equal.
  apply order_by_desc_stable. intros a b Ha Hb.
  unfold tied in Ha, Hb. simpl in Ha, Hb. apply Reqb_true in Ha, Hb.
  unfold initial_confidence_lt. apply Rltb_false. lra.
Qed.

Lemma getActiveLessons_deprecated (now now' id : Z) (s : Store) (minConfidence : R)
  (lw : LessonWithConfidence) :
  In lw (getActiveLessons now (fst (deprecateLesson now' id s)) minConfidence) ->
  l_id (lesson lw) <> id.
Proof.
  intros H. apply getActiveLessons_In in H.
  destruct H as (row & Hrow & Hact & -> & _). simpl in *.
  apply in_map_iff in Hrow. destruct Hrow as (row0 & <- & _).
  destruct (Z.eqb_spec (lr_id row0) id) as [E | E]; [discriminate | exact E].
Qed.

(** C4, as the code has it: [getActiveLessons] returns exactly the lessons
    that are not deprecated and whose decayed confidence
    [initial_confidence * e^(-k * days)] reaches the threshold, ordered by
    descending stored [initial_confidence], not by the decayed value, lessons
    with the same [initial_confidence] in table order; a lesson
    on which [deprecateLesson] was called is absent for every threshold. *)
Theorem getActiveLessons_by_initial_confidence
  (now : Z) (s : Store) (minConfidence : R) :
  let result := getActiveLessons now s minConfidence in
  (forall lw,
     In lw result <->
     exists row,
       In row (lessons s) /\ lr_deprecated_at row = None
       /\ lw = with_current_confidence now row
       /\ minConfidence <= current_confidence lw)
  /\ (forall lw, In lw result ->
        current_confidence lw
        = l_initial_confidence (lesson lw)
          * exp (- l_decay_constant (lesson lw)
                 * (IZR (now - l_last_validated (lesson lw)) / day_ms)))
  /\ StronglySorted
       (fun a b => l_initial_confidence (lesson b) <= l_initial_confidence (lesson a))
       result
  /\ (forall c,
        let tied := fun lw => Reqb (l_initial_confidence (lesson lw)) c in
        filter tied result
        = filter tied
            (filter (fun lw => Rleb minConfidence (current_confidence lw))
               (map (with_current_confidence now)
                  (filter (fun row => negb (is_some (lr_deprecated_at row)))
                     (lessons s)))))
  /\ (forall now' id threshold lw,
        In lw (getActiveLessons now (fst (deprecateLesson now' id s)) threshold) ->
        l_id (lesson lw) <> id).
Proof.
  intros result. split; [apply getActiveLessons_In |].
  split.
  { intros lw Hlw. apply getActiveLessons_In in Hlw.
    destruct Hlw as (row & _ & _ & -> & _). reflexivity. }
  split; [apply getActiveLessons_sorted |].
  split; [apply getActiveLessons_stable |].
  intros now' id threshold lw. apply getActiveLessons_deprecated.
Qed.

End ActiveLessons.

Ltac show_lesson_rows :=
  cbn [current_confidence lesson with_current_confidence rowToLesson
       l_initial_confidence l_decay_constant l_last_validated
       lr_initial_confidence lr_decay_constant lr_last_validated
       faded_lesson_row fresh_lesson_row].

Lemma faded_lessons_active :
  getActiveLessons (200 * day_ms_Z) faded_lessons 0
  = [with_current_confidence (200 * day_ms_Z) faded_lesson_row;
     with_current_confidence (200 * day_ms_Z) fresh_lesson_row].
Proof.
  unfold getActiveLessons, faded_lessons.
  change (filter (fun row => negb (is_some (lr_deprecated_at row)))
            (lessons (set_lessons empty_store [faded_lesson_row; fresh_lesson_row] 2)))
    with [faded_lesson_row; fresh_lesson_row].
  assert (Hord : order_by_desc initial_confidence_lt [faded_lesson_row; fresh_lesson_row]
                 = [faded_lesson_row; fresh_lesson_row]).
  { cbn [order_by_desc fold_right insert_desc].
    replace (initial_confidence_lt faded_lesson_row fresh_lesson_row) with false;
      [reflexivity |].
    symmetry. unfold initial_confidence_lt. apply Rltb_false. show_lesson_rows. lra. }
  rewrite Hord. cbn [map filter].
  assert (H1 : Rleb 0 (current_confidence
                         (with_current_confidence (200 * day_ms_Z) faded_lesson_row)) = true).
  { apply Rleb_true. show_lesson_rows. unfold calculateCurrentConfidence.
    apply Rmult_le_pos; [lra | left; apply exp_pos]. }
  assert (H2 : Rleb 0 (current_confidence
                         (with_current_confidence (200 * day_ms_Z) fresh_lesson_row)) = true).
  { apply Rleb_true. show_lesson_rows. unfold calculateCurrentConfidence.
    apply Rmult_le_pos; [lra | left; apply exp_pos]. }
  rewrite H1, H2. reflexivity.
Qed.

(** C4, as stated, fails: the lesson listed first has the lower decayed
    confidence. *)
Lemma getActiveLessons_not_by_decayed_confidence :
  exists a b,
    getActiveLessons (200 * day_ms_Z) faded_lessons 0 = [a; b]
    /\ current_confidence a < current_confidence b.
Proof.
  eexists. eexists. split; [apply faded_lessons_active |].
  show_lesson_rows. rewrite currentConfidence_at_validation.
  unfold calculateCurrentConfidence.
  assert (E : IZR (200 * day_ms_Z - 0) / day_ms = 200).
  { unfold day_ms_Z, day_ms. rewrite Z.sub_0_r, !mult_IZR. field. }
  rewrite E.
  match goal with |- context [exp ?x] => replace x with (Ropp 2) by lra end.
  rewrite exp_Ropp.
  pose proof (exp_ineq1_le 2) as H.
  assert (/ exp 2 <= / 3).
  { apply Rinv_le_contravar; lra. }
  lra.
Qed.

(** ** Retention sweep *)

Lemma filter_negb_idem {A : Type} (old : A -> bool) (l : list A) :
  filter (fun x => negb (old x)) (filter (fun x => negb (old x)) l)
  = filter (fun x => negb (old x)) l.
Proof.
  induction l as [| x l IH]; simpl; [reflexivity |].
  destruct (old x) eqn:E; simpl; [exact IH | now rewrite E, IH].
Qed.

Lemma filter_old_gone {A : Type} (old : A -> bool) (l : list A) :
  filter old (filter (fun x => negb (old x)) l) = [].
Proof.
  induction l as [| x l IH]; simpl; [reflexivity |].
  destruct (old x) eqn:E; simpl; [exact IH | now rewrite E].
Qed.

Lemma filter_split_length {A : Type} (old : A -> bool) (l : list A) :
  (List.length (filter old l) + List.length (filter (fun x => negb (old x)) l)
   = List.length l)%nat.
Proof.
  induction l as [| x l IH]; simpl; [reflexivity |].
  destruct (old x); simpl; lia.
Qed.

Lemma stale_after_sweep (now : Z) (lowConfidence : R) (cutoff : Z) (row : LessonRow) :
  stale_lesson now lowConfidence cutoff
    (if stale_lesson now lowConfidence cutoff row
     then set_deprecated_at now row else row) = false.
Proof.
  destruct (stale_lesson now lowConfidence cutoff row) eqn:E; [reflexivity | exact E].
Qed.

Lemma sweep_lessons_idem (now : Z) (lowConfidence : R) (cutoff : Z) (rows : list LessonRow) :
  let sweep := fun row =>
    if stale_lesson now lowConfidence cutoff row then set_deprecated_at now row else row in
  map sweep (map sweep rows) = map sweep rows
  /\ filter (stale_lesson now lowConfidence cutoff) (map sweep rows) = [].
Proof.
  intros sweep. induction rows as [| row rows [IH1 IH2]]; simpl; [split; reflexivity |].
  pose proof (stale_after_sweep now lowConfidence cutoff row) as H.
  fold (sweep row) in H. split.
  - rewrite IH1. f_equal. unfold sweep at 1. now rewrite H.
  - now rewrite H.
Qed.

(** C10, on the sweep as the specification describes it: [cleanupOldData]
    keeps exactly the episodes that are not older than [retentionDays] and
    the patterns last seen within twice that time, deletes no lesson and
    deprecates the stale ones, returns the three counts, and a second run
    at the same instant deletes and deprecates nothing. *)
Theorem cleanupOldData_retention
  (now : Z) (lowConfidence : R) (retentionDays : Z) (s : Store) :
  let s' := fst (cleanupOldData now lowConfidence retentionDays s) in
  let counts := snd (cleanupOldData now lowConfidence retentionDays s) in
  let cutoff := (now - retentionDays * day_ms_Z)%Z in
  let stale := stale_lesson now lowConfidence cutoff in
  episodes s' = filter (fun row => (cutoff <=? er_timestamp row)%Z) (episodes s)
  /\ (forall row, In row (episodes s) ->
        (In row (episodes s') <-> (cutoff <= er_timestamp row)%Z))
  /\ (forall row, In row (patterns s') <->
        In row (patterns s)
        /\ (now - 2 * retentionDays * day_ms_Z <= pr_last_seen row)%Z)
  /\ lessons s' =
       map (fun row => if stale row then set_deprecated_at now row else row) (lessons s)
  /\ map lr_id (lessons s') = map lr_id (lessons s)
  /\ (deletedEpisodes counts + List.length (episodes s') = List.length (episodes s))%nat
  /\ (deletedPatterns counts + List.length (patterns s') = List.length (patterns s))%nat
  /\ deprecatedLessons counts = List.length (filter stale (lessons s))
  /\ cleanupOldData now lowConfidence retentionDays s'
     = (s', {| deletedEpisodes := 0; deletedPatterns := 0; deprecatedLessons := 0 |}).
Proof.
  intros s' counts cutoff stale.
  assert (Hkeep : forall row : EpisodeRow,
             negb (er_timestamp row <? cutoff)%Z = (cutoff <=? er_timestamp row)%Z).
  { intros row. destruct (Z.ltb_spec (er_timestamp row) cutoff),
      (Z.leb_spec cutoff (er_timestamp row)); simpl; try reflexivity; lia. }
  split.
  { simpl. apply filter_ext. exact Hkeep. }
  split.
  { intros row Hrow. simpl. rewrite filter_In, Hkeep, Z.leb_le. tauto. }
  split.
  { intros row. simpl. rewrite filter_In.
    destruct (Z.ltb_spec (pr_last_seen row) (now - 2 * retentionDays * day_ms_Z));
      simpl; split; intros [H1 H2]; split;
      first [assumption | lia | discriminate | reflexivity]. }
  split; [reflexivity |].
  split.
  { simpl. rewrite map_map. apply map_ext. intros row.
    match goal with |- context [if ?b then _ else _] => destruct b end; reflexivity. }
  split; [simpl; apply filter_split_length |].
  split; [simpl; apply filter_split_length |].
  split; [reflexivity |].
  unfold s', cleanupOldData. simpl.
  destruct (sweep_lessons_idem now lowConfidence cutoff (lessons s)) as [H1 H2].
  fold cutoff. rewrite !filter_negb_idem, !filter_old_gone, H1, H2. reflexivity.
Qed.

(** ** The executable codec reproduces every value *)

Module MiniJsonFacts.

Import MiniJson.

Lemma append_assoc (a b c : string) : ((a ++ b) ++ c = a ++ (b ++ c))%string.
Proof. induction a as [| x a IH]; simpl; [reflexivity | now rewrite IH]. Qed.

Lemma append_nil_r (a : string) : (a ++ EmptyString)%string = a.
Proof. induction a as [| x a IH]; simpl; [reflexivity | now rewrite IH]. Qed.

Lemma length_append (a b : string) :
  String.length (a ++ b) = (String.length a + String.length b)%nat.
Proof. induction a as [| x a IH]; simpl; [reflexivity | now rewrite IH]. Qed.

(** *** Strings *)

Lemma parse_chars_escape_char (c : ascii) (rest : string) :
  parse_chars (escape_char c ++ rest)
  = match parse_chars rest with
    | Some (t, r) => Some (String c t, r)
    | None => None
    end.
Proof.
  destruct c as [b0 b1 b2 b3 b4 b5 b6 b7].
  destruct b0, b1, b2, b3, b4, b5, b6, b7; reflexivity.
Qed.

Lemma parse_chars_escape (s rest : string) :
  parse_chars (escape s ++ String dquote rest) = Some (s, rest).
Proof.
  induction s as [| c s IH]; [reflexivity |].
  cbn [escape]. rewrite append_assoc, parse_chars_escape_char, IH. reflexivity.
Qed.

Lemma parse_chars_quote (s rest : string) :
  exists body, (quote s ++ rest)%string = String dquote body
               /\ parse_chars body = Some (s, rest).
Proof.
  exists (escape s ++ String dquote rest)%string. split.
  - unfold quote. cbn [append]. now rewrite append_assoc.
  - apply parse_chars_escape.
Qed.

(** *** Numbers *)

Lemma string_of_uint_digits (u : uint) : all_digits (NilEmpty.string_of_uint u) = true.
Proof. induction u; simpl; try reflexivity; exact IHu. Qed.

Lemma string_of_uint_digits' (u : uint) : all_digits (NilZero.string_of_uint u) = true.
Proof. destruct u; try reflexivity; apply (string_of_uint_digits (_ u)). Qed.

Lemma span_digits_all (ds rest : string) :
  all_digits ds = true -> delimited rest ->
  span_digits (ds ++ rest) = (ds, rest).
Proof.
  intros Hds Hrest. induction ds as [| c ds IH]; cbn [append span_digits].
  - destruct rest as [| c r]; [reflexivity |].
    unfold delimited in Hrest. cbn [span_digits]. unfold is_digit.
    now rewrite Hrest.
  - cbn [all_digits] in Hds. apply andb_prop in Hds. destruct Hds as [Hc Hds].
    rewrite Hc, (IH Hds). reflexivity.
Qed.

Lemma digit_not_minus (c : ascii) : is_digit c = true -> Ascii.eqb c "-" = false.
Proof.
  destruct c as [b0 b1 b2 b3 b4 b5 b6 b7].
  destruct b0, b1, b2, b3, b4, b5, b6, b7; try reflexivity; discriminate.
Qed.

Lemma to_int_proper (n : Z) : Z.to_int n <> Pos Nil /\ Z.to_int n <> Neg Nil.
Proof.
  destruct n as [| p | p]; simpl; split; try discriminate;
    intros [= H]; now apply DecimalPos.Unsigned.to_uint_nonnil in H.
Qed.

Lemma parse_number_print (n : Z) (rest : string) :
  delimited rest ->
  parse_number (string_of_Z n ++ rest) = Some (JNum n, rest).
Proof.
  intros Hrest. unfold string_of_Z.
  destruct (to_int_proper n) as [Hpos Hneg].
  pose proof (NilZero.isi (Z.to_int n) Hpos Hneg) as Hisi.
  pose proof (DecimalZ.of_to n) as Hof.
  destruct (Z.to_int n) as [u | u]; cbn [NilZero.string_of_int] in *.
  - pose proof (string_of_uint_digits' u) as Hds.
    destruct (NilZero.string_of_uint u) as [| c ds] eqn:Hu; [discriminate |].
    cbn [all_digits] in Hds. apply andb_prop in Hds. destruct Hds as [Hc Hds].
    unfold parse_number.
    assert (Hsplit : (let (neg, body) :=
                        match (String c ds ++ rest)%string with
                        | String "-" r => (true, r)
                        | _ => (false, (String c ds ++ rest)%string)
                        end in (neg, body))
                     = (false, (String c ds ++ rest)%string)).
    { cbn [append]. pose proof (digit_not_minus c Hc) as Hm.
      destruct c as [b0 b1 b2 b3 b4 b5 b6 b7].
      destruct b0, b1, b2, b3, b4, b5, b6, b7; try reflexivity; discriminate. }
    revert Hsplit.
    destruct (match (String c ds ++ rest)%string with
              | String "-" r => (true, r)
              | _ => (false, (String c ds ++ rest)%string)
              end) as [neg body].
    intros [= -> ->].
    change (String c (ds ++ rest)) with (String c ds ++ rest)%string.
    rewrite (span_digits_all (String c ds) rest); [| simpl; now rewrite Hc, Hds | exact Hrest].
    rewrite Hisi, Hof. reflexivity.
  - pose proof (string_of_uint_digits' u) as Hds.
    unfold parse_number. cbn [append].
    rewrite (span_digits_all _ rest Hds Hrest).
    destruct (NilZero.string_of_uint u) as [| c ds] eqn:Hu; [discriminate |].
    rewrite Hisi, Hof. reflexivity.
Qed.

(** *** Values *)

Lemma json_nested_ind (P : json -> Prop) :
  P JNull ->
  (forall b, P (JBool b)) ->
  (forall n, P (JNum n)) ->
  (forall s, P (JStr s)) ->
  (forall l, Forall P l -> P (JArr l)) ->
  (forall m, Forall (fun kv => P (snd kv)) m -> P (JObj m)) ->
  forall v, P v.
Proof.
  intros Hnull Hbool Hnum Hstr Harr Hobj.
  fix IH 1. intros [| b | n | s | l | m].
  - exact Hnull.
  - apply Hbool.
  - apply Hnum.
  - apply Hstr.
  - apply Harr. revert l. fix IHl 1. intros [| x l]; constructor.
    + apply IH.
    + apply IHl.
  - apply Hobj. revert m. fix IHm 1. intros [| [k x] m]; constructor.
    + apply IH.
    + apply IHm.
Qed.

Lemma print_number_first (n : Z) :
  exists c r, string_of_Z n = String c r
              /\ (is_digit c = true \/ Ascii.eqb c "-" = true).
Proof.
  unfold string_of_Z. destruct (to_int_proper n) as [Hpos Hneg].
  pose proof (NilZero.isi (Z.to_int n) Hpos Hneg) as Hisi.
  destruct (Z.to_int n) as [u | u]; cbn [NilZero.string_of_int] in *.
  - pose proof (string_of_uint_digits' u) as Hds.
    destruct (NilZero.string_of_uint u) as [| c ds]; [discriminate |].
    cbn [all_digits] in Hds. apply andb_prop in Hds.
    exists c, ds. split; [reflexivity | left; apply Hds].
  - eexists. eexists. split; [reflexivity | right; reflexivity].
Qed.

Lemma print_first (v : json) :
  exists c r, print v = String c r /\ Ascii.eqb c "]" = false.
Proof.
  destruct v as [| [|] | n | s | l | m];
    try (eexists; eexists; split; [reflexivity | reflexivity]).
  destruct (print_number_first n) as (c & r & Hn & Hc).
  exists c, r. split; [exact Hn |].
  destruct Hc as [Hc | Hc];
    destruct c as [b0 b1 b2 b3 b4 b5 b6 b7];
    destruct b0, b1, b2, b3, b4, b5, b6, b7; try reflexivity; discriminate.
Qed.

Lemma parse_value_number (c : ascii) (r : string) (n : nat) :
  is_digit c = true \/ Ascii.eqb c "-" = true ->
  parse_value (S n) (String c r) = parse_number (String c r).
Proof.
  destruct c as [b0 b1 b2 b3 b4 b5 b6 b7].
  destruct b0, b1, b2, b3, b4, b5, b6, b7;
    intros [H | H]; first [discriminate H | reflexivity].
Qed.

Lemma parse_value_array (c : ascii) (r : string) (n : nat) :
  Ascii.eqb c "]" = false ->
  parse_value (S n) (String "[" (String c r))
  = match parse_elems n (String c r) with
    | Some (l, rest) => Some (JArr l, rest)
    | None => None
    end.
Proof.
  destruct c as [b0 b1 b2 b3 b4 b5 b6 b7].
  destruct b0, b1, b2, b3, b4, b5, b6, b7;
    intros H; first [discriminate H | reflexivity].
Qed.

Lemma parse_elems_print (l : list json) :
  l <> [] -> Forall parses l ->
  forall fuel rest,
    (size_elems l <= fuel)%nat ->
    parse_elems fuel (print_elems l ++ String "]" rest) = Some (l, rest).
Proof.
  induction l as [| x l IH]; [tauto |].
  intros _ Hl fuel rest Hfuel.
  apply Forall_cons_iff in Hl. destruct Hl as [Hx Hl].
  cbn [size_elems] in Hfuel. destruct fuel as [| fuel]; [lia |].
  destruct l as [| y l].
  - cbn [print_elems parse_elems].
    rewrite (Hx fuel (String "]" rest)); [reflexivity | lia | reflexivity].
  - change (print_elems (x :: y :: l))
      with (print x ++ String "," (print_elems (y :: l)))%string.
    rewrite append_assoc. cbn [append parse_elems].
    rewrite (Hx fuel (String "," (print_elems (y :: l) ++ String "]" rest)));
      [| lia | reflexivity].
    rewrite (IH ltac:(discriminate) Hl fuel rest); [reflexivity | lia].
Qed.

Lemma parse_members_print (m : list (string * json)) :
  m <> [] -> Forall (fun kv => parses (snd kv)) m ->
  forall fuel rest,
    (size_members m <= fuel)%nat ->
    parse_members fuel (print_members m ++ String "}" rest) = Some (m, rest).
Proof.
  induction m as [| [k x] m IH]; [tauto |].
  intros _ Hm fuel rest Hfuel.
  apply Forall_cons_iff in Hm. destruct Hm as [Hx Hm]. cbn [snd] in Hx.
  cbn [size_members] in Hfuel. destruct fuel as [| fuel]; [lia |].
  destruct m as [| [k' y] m].
  - cbn [print_members]. unfold quote. cbn [append].
    rewrite !append_assoc. cbn [append parse_members].
    rewrite Ascii.eqb_refl, parse_chars_escape.
    rewrite (Hx fuel (String "}" rest)); [reflexivity | lia | reflexivity].
  - change (print_members ((k, x) :: (k', y) :: m))
      with (quote k ++ ":" ++ print x ++ String "," (print_members ((k', y) :: m)))%string.
    unfold quote at 1. cbn [append].
    rewrite !append_assoc. cbn [append parse_members].
    rewrite Ascii.eqb_refl, parse_chars_escape.
    rewrite append_assoc. cbn [append].
    rewrite (Hx fuel (String "," (print_members ((k', y) :: m) ++ String "}" rest)));
      [| lia | reflexivity].
    rewrite (IH ltac:(discriminate) Hm fuel rest); [reflexivity | lia].
Qed.

Lemma parse_value_print (v : json) : parses v.
Proof.
  induction v as [| b | n | s | l Hl | m Hm] using json_nested_ind;
    intros fuel rest Hfuel Hrest;
    (destruct fuel as [| fuel]; [simpl in Hfuel; lia |]).
  - reflexivity.
  - destruct b; reflexivity.
  - destruct (print_number_first n) as (c & r & Hn & Hc).
    cbn [print]. rewrite Hn. cbn [append].
    rewrite parse_value_number by exact Hc.
    change (String c (r ++ rest)) with (String c r ++ rest)%string.
    rewrite <- Hn. now apply parse_number_print.
  - cbn [print]. destruct (parse_chars_quote s rest) as (body & -> & Hbody).
    change (parse_value (S fuel) (String dquote body))
      with (match parse_chars body with
            | Some (t, rest) => Some (JStr t, rest)
            | None => None
            end).
    now rewrite Hbody.
  - destruct l as [| x l]; [reflexivity |].
    change (print (JArr (x :: l))) with ("[" ++ print_elems (x :: l) ++ "]")%string.
    cbn [append]. rewrite append_assoc. cbn [append].
    assert (Hfirst : exists c r, print_elems (x :: l) = String c r
                                 /\ Ascii.eqb c "]" = false).
    { destruct (print_first x) as (c & r & Hx & Hc).
      destruct l as [| y l]; cbn [print_elems]; rewrite Hx;
        eexists; eexists; split; try reflexivity; exact Hc. }
    destruct Hfirst as (c & r & Helems & Hc).
    pose proof (parse_elems_print (x :: l) ltac:(discriminate) Hl fuel rest) as Hp.
    rewrite Helems in *. cbn [append] in *.
    rewrite parse_value_array by exact Hc.
    rewrite Hp; [reflexivity |].
    change (size (JArr (x :: l))) with (S (size_elems (x :: l))) in Hfuel. lia.
  - destruct m as [| [k x] m]; [reflexivity |].
    change (print (JObj ((k, x) :: m)))
      with ("{" ++ print_members ((k, x) :: m) ++ "}")%string.
    cbn [append]. rewrite append_assoc. cbn [append].
    assert (Hfirst : exists r, print_members ((k, x) :: m) = String dquote r).
    { destruct m as [| [k' y] m]; cbn [print_members]; unfold quote;
        cbn [append]; eexists; reflexivity. }
    destruct Hfirst as (r & Hmembers).
    pose proof (parse_members_print ((k, x) :: m) ltac:(discriminate) Hm fuel rest)
      as Hp.
    rewrite Hmembers in *. cbn [append] in *.
    change (parse_value (S fuel) (String "{" (String dquote (r ++ String "}" rest))))
      with (match parse_members fuel (String dquote (r ++ String "}" rest)) with
            | Some (m, rest) => Some (JObj m, rest)
            | None => None
            end).
    rewrite Hp; [reflexivity |].
    change (size (JObj ((k, x) :: m))) with (S (size_members ((k, x) :: m))) in Hfuel.
    lia.
Qed.

Lemma size_elems_le (l : list json) :
  Forall (fun x => (size x <= String.length (print x))%nat) l ->
  (size_elems l <= S (String.length (print_elems l)))%nat.
Proof.
  induction l as [| x l IH]; intros Hl; [simpl; lia |].
  apply Forall_cons_iff in Hl. destruct Hl as [Hx Hl]. specialize (IH Hl).
  destruct l as [| y l].
  - cbn [size_elems print_elems]. lia.
  - change (print_elems (x :: y :: l))
      with (print x ++ String "," (print_elems (y :: l)))%string.
    cbn [size_elems] in *. rewrite length_append. cbn [String.length]. lia.
Qed.

Lemma size_members_le (m : list (string * json)) :
  Forall (fun kv => (size (snd kv) <= String.length (print (snd kv)))%nat) m ->
  (size_members m <= S (String.length (print_members m)))%nat.
Proof.
  induction m as [| [k x] m IH]; intros Hm; [simpl; lia |].
  apply Forall_cons_iff in Hm. destruct Hm as [Hx Hm]. specialize (IH Hm).
  cbn [snd] in Hx.
  destruct m as [| [k' y] m].
  - cbn [size_members print_members]. rewrite !length_append.
    cbn [String.length]. lia.
  - change (print_members ((k, x) :: (k', y) :: m))
      with (quote k ++ ":" ++ print x ++ String "," (print_members ((k', y) :: m)))%string.
    cbn [size_members] in *. rewrite !length_append. cbn [String.length]. lia.
Qed.

Lemma size_le_length (v : json) : (size v <= String.length (print v))%nat.
Proof.
  induction v as [| b | n | s | l Hl | m Hm] using json_nested_ind.
  - simpl. lia.
  - destruct b; simpl; lia.
  - destruct (print_number_first n) as (c & r & Hn & _).
    cbn [print size]. rewrite Hn. simpl. lia.
  - simpl. lia.
  - change (size (JArr l)) with (S (size_elems l)).
    change (print (JArr l)) with ("[" ++ print_elems l ++ "]")%string.
    pose proof (size_elems_le l Hl).
    cbn [append String.length]. rewrite length_append. cbn [String.length]. lia.
  - change (size (JObj m)) with (S (size_members m)).
    change (print (JObj m)) with ("{" ++ print_members m ++ "}")%string.
    pose proof (size_members_le m Hm).
    cbn [append String.length]. rewrite length_append. cbn [String.length]. lia.
Qed.

(** The printer followed by the parser is the identity. *)
Theorem parse_print (v : json) : parse (print v) = v.
Proof.
  unfold parse.
  pose proof (parse_value_print v (S (String.length (print v))) EmptyString
                ltac:(pose proof (size_le_length v); lia) I) as H.
  rewrite append_nil_r in H. now rewrite H.
Qed.

Lemma print_truthy (v : json) : truthy_string (print v) = true.
Proof. destruct (print_first v) as (c & r & -> & _). reflexivity. Qed.

End MiniJsonFacts.

(** Every truthy payload passes through [mini_json] unchanged. *)
Lemma mini_json_round_trips (v : json) :
  truthy v = true -> round_trips (codec := mini_json) (Some v).
Proof.
  intros Hv. split; [exact Hv |]. split.
  - apply MiniJsonFacts.print_truthy.
  - apply MiniJsonFacts.parse_print.
Qed.

(** ** Stored payloads *)

Section RoundTrip.

Context {codec : JSON}.

Lemma column_round_trip (v : option json) :
  round_trips v -> parse_column (stringify_column v) = v.
Proof.
  destruct v as [x |]; simpl; [| reflexivity].
  intros (Hx & Htext & Hparse). now rewrite Hx; simpl; rewrite Htext, Hparse.
Qed.

Lemma getEpisode_inserted (episode : Episode) (s : Store) :
  exists row,
    getEpisode (fst (insertEpisode episode s)) (snd (insertEpisode episode s))
    = Some (rowToEpisode row)
    /\ episodes (fst (insertEpisode episode s)) = (episodes s ++ [row])%list
    /\ er_id row = snd (insertEpisode episode s)
    /\ er_timestamp row = e_timestamp episode
    /\ er_operation_type row = e_operation_type episode
    /\ er_outcome row = e_outcome episode
    /\ er_utility_score row = e_utility_score episode
    /\ er_problem row = stringify_column (e_problem episode)
    /\ er_solution row = stringify_column (e_solution episode)
    /\ er_metadata row = stringify_column (e_metadata episode).
Proof.
  unfold getEpisode, insertEpisode. simpl.
  match goal with |- context [find _ (_ ++ [?row])] =>
    rewrite (find_app_fresh er_id (episodes s) row (episodes_seq s) _ eq_refl eq_refl);
    exists row
  end.
  repeat split.
Qed.

(** C9: an episode whose problem, solution and metadata are nested values
    that the JSON codec reproduces is read back by id with the same three
    structures, and with the scalar columns it was inserted with. *)
Theorem insertEpisode_round_trip (episode : Episode) (s : Store) :
  round_trips (e_problem episode) ->
  round_trips (e_solution episode) ->
  round_trips (e_metadata episode) ->
  exists saved,
    getEpisode (fst (insertEpisode episode s)) (snd (insertEpisode episode s))
    = Some saved
    /\ e_id saved = snd (insertEpisode episode s)
    /\ e_problem saved = e_problem episode
    /\ e_solution saved = e_solution episode
    /\ e_metadata saved = e_metadata episode
    /\ e_timestamp saved = e_timestamp episode
    /\ e_operation_type saved = e_operation_type episode
    /\ e_outcome saved = e_outcome episode.
Proof.
  intros Hp Hs Hm.
  destruct (getEpisode_inserted episode s)
    as (row & Hget & _ & Hid & Hts & Hty & Hout & _ & Hrp & Hrs & Hrm).
  exists (rowToEpisode row). split; [exact Hget |].
  unfold rowToEpisode; simpl. rewrite Hrp, Hrs, Hrm.
  rewrite !column_round_trip by assumption.
  repeat split; assumption.
Qed.

End RoundTrip.

Lemma insertEpisode_round_trip_witness :
  exists saved,
    getEpisode (fst (insertEpisode nested_episode sample_episodes))
               (snd (insertEpisode nested_episode sample_episodes))
    = Some saved
    /\ e_id saved = 4%Z
    /\ e_problem saved = e_problem nested_episode
    /\ e_solution saved = e_solution nested_episode
    /\ e_metadata saved = e_metadata nested_episode.
Proof.
  destruct (insertEpisode_round_trip nested_episode sample_episodes)
    as (saved & Hget & Hid & Hp & Hs & Hm & _).
  - repeat split; vm_compute; reflexivity.
  - repeat split; vm_compute; reflexivity.
  - repeat split; vm_compute; reflexivity.
  - exists saved. repeat split; assumption.
Defined.

(** ** Description lookup *)






(** ** Pattern detection *)

Lemma In_firstn {A : Type} (n : nat) (l : list A) (x : A) :
  In x (firstn n l) -> In x l.
Proof.
  intros H. rewrite <- (firstn_skipn n l). apply in_or_app. now left.
Qed.


Section Detection.

Context {codec : JSON}.









End Detection.

Section DetectionCases.

Context {codec : JSON}.




Lemma recordExperience_store (now : Z) (input : RecordExperienceInput) (s : Store) :
  fst (recordExperience now input s)
  = fst (detectPatterns now (rowToEpisode (recorded_row now input s))
           (fst (insertEpisode (new_episode now input s) s))).
Proof.
  unfold recordExperience, recorded_row.
  unfold insertEpisode at 1. cbv zeta.
  unfold getEpisode. cbn [episodes set_episodes].
  rewrite (find_app_fresh er_id (episodes s)
             (episode_row (next_rowid (map er_id (episodes s)) (episodes_seq s))
                (new_episode now input s))
             (episodes_seq s) _ eq_refl eq_refl).
  cbn [option_map].
  unfold insertEpisode. cbv zeta. cbn [fst].
  match goal with |- context [detectPatterns ?n ?e ?st] =>
    destruct (detectPatterns n e st) end.
  reflexivity.
Qed.

Lemma episodes_detectPatterns (now : Z) (e : Episode) (s : Store) :
  episodes (fst (detectPatterns now e s)) = episodes s.
Proof.
  unfold detectPatterns.
  destruct (_ <? _)%nat; [reflexivity |].
  destruct (Rlt_dec _ _); [reflexivity |].
  destruct (findPatternByDescription s (e_operation_type e)) as [existing |].
  - unfold updatePattern.
    cbn [no_pattern_field refresh_updates pu_frequency is_some orb negb].
    cbv iota beta.
    match goal with |- context [getPattern ?st ?i] => destruct (getPattern st i) end;
      reflexivity.
  - destruct (insertPattern _ s) as [s1 pid] eqn:E.
    assert (H : episodes s1 = episodes s).
    { unfold insertPattern in E. injection E as <- _. reflexivity. }
    destruct (getPattern s1 pid); exact H.
Qed.

Lemma episodes_recordExperience (now : Z) (input : RecordExperienceInput) (s : Store) :
  episodes (fst (recordExperience now input s))
  = (episodes s ++ [recorded_row now input s])%list.
Proof. rewrite recordExperience_store, episodes_detectPatterns. reflexivity. Qed.

Lemma recorded_row_type (now : Z) (input : RecordExperienceInput) (s : Store) :
  er_operation_type (recorded_row now input s) = rei_operation_type input
  /\ er_timestamp (recorded_row now input s) = now
  /\ er_outcome (recorded_row now input s) = rei_outcome input
  /\ er_id (recorded_row now input s)
     = next_rowid (map er_id (episodes s)) (episodes_seq s).
Proof. repeat split. Qed.

End DetectionCases.

Section NewType.

Context {codec : JSON}.



Lemma patterns_inserted_episode (e : Episode) (s : Store) :
  patterns (fst (insertEpisode e s)) = patterns s
  /\ patterns_seq (fst (insertEpisode e s)) = patterns_seq s.
Proof. split; reflexivity. Qed.






End NewType.

Section Threshold.

Context {codec : JSON}.





End Threshold.



(** ** One description, one pattern *)

Lemma NoDup_snoc {A : Type} (l : list A) (x : A) :
  NoDup l -> ~ In x l -> NoDup (l ++ [x]).
Proof.
  intros Hl Hx. apply NoDup_app; [exact Hl | repeat constructor; simpl; tauto |].
  intros y Hy [<- | []]. contradiction.
Qed.

Section Descriptions.

Context {codec : JSON}.




Lemma learnFromPattern_store (now : Z) (input : LearnFromPatternInput) (s s' : Store)
  (r : LearnFromPatternResult) :
  learnFromPattern now input s = Ok (s', r) ->
  let resolved := selected_by_ids s (lfi_episode_ids input) in
  (3 <= List.length resolved)%nat
  /\ episodes s' = episodes s
  /\ patterns s'
     = patterns
         (match find_matching_row s (lfi_pattern_description input) with
          | Some row =>
              fst (updatePattern (pr_id row) (learned_updates now input resolved) s)
          | None => fst (insertPattern (learned_pattern now input resolved) s)
          end).
Proof.
  intros H resolved.
  destruct (learnFromPattern_looked_up _ _ _ _ _ H) as [_ Hlooked].
  unfold learnFromPattern in H. rewrite Hlooked in H. fold resolved in H.
  unfold PATTERN_CONFIG.minEpisodes in H.
  destruct (Nat.ltb_spec (List.length resolved) 3) as [Hlt | Hge]; [discriminate |].
  split; [exact Hge |].
  unfold findPatternByDescription in H.
  destruct (find_matching_row s (lfi_pattern_description input)) as [row |];
    cbn [option_map] in H.
  - injection H as <- _. cbn [p_id rowToPattern]. split; [| reflexivity].
    unfold updatePattern. cbn. reflexivity.
  - injection H as <- _. split; reflexivity.
Qed.





End Descriptions.


Section Reachable.

Context {codec : JSON}.






End Reachable.






(** * Further properties of the queries, tools, handlers and mesh protocol *)
(** ** Scans ordered by time *)

Lemma StronglySorted_firstn {A : Type} (R : A -> A -> Prop) (n : nat) (l : list A) :
  StronglySorted R l -> StronglySorted R (firstn n l).
Proof.
  intros H. revert n. induction H as [| x l Hs IH Hx]; intros [| n]; simpl;
    try constructor.
  - apply IH.
  - rewrite Forall_forall in *. intros y Hy. apply Hx. eapply In_firstn, Hy.
Qed.

Lemma StronglySorted_app_cross {A : Type} (R : A -> A -> Prop) (l1 l2 : list A) :
  StronglySorted R (l1 ++ l2) ->
  forall x y, In x l1 -> In y l2 -> R x y.
Proof.
  induction l1 as [| a l1 IH]; simpl; intros H x y Hx Hy; [contradiction |].
  inversion H as [| ? ? Hs Ha]; subst.
  destruct Hx as [<- | Hx].
  - rewrite Forall_forall in Ha. apply Ha, in_or_app. now right.
  - now apply IH.
Qed.

Lemma timestamp_lt_asym (a b : EpisodeRow) :
  timestamp_lt a b = true -> timestamp_lt b a = false.
Proof. unfold timestamp_lt. intros H. apply Z.ltb_lt in H. apply Z.ltb_ge. lia. Qed.

Lemma timestamp_ge_trans (a b c : EpisodeRow) :
  timestamp_lt a b = false -> timestamp_lt b c = false -> timestamp_lt a c = false.
Proof. unfold timestamp_lt. rewrite !Z.ltb_ge. lia. Qed.

Section NewestFirst.

Context {codec : JSON}.

(** What [ORDER BY timestamp DESC LIMIT ?] returns over the rows [rows]. *)
Lemma newest_first (rows : list EpisodeRow) (limit : nat) :
  let sorted := order_by_desc timestamp_lt rows in
  let result := map rowToEpisode (firstn limit sorted) in
  List.length result = Nat.min limit (List.length rows)
  /\ (forall e, In e result -> exists row, In row rows /\ e = rowToEpisode row)
  /\ StronglySorted (fun a b => (e_timestamp b <= e_timestamp a)%Z) result
  /\ (forall e e', In e result -> In e' (map rowToEpisode sorted) ->
        In e' result \/ (e_timestamp e' <= e_timestamp e)%Z).
Proof.
  intros sorted result.
  assert (Hsorted : StronglySorted (fun a b => timestamp_lt a b = false) sorted).
  { apply order_by_desc_sorted; [exact timestamp_lt_asym | exact timestamp_ge_trans]. }
  repeat split.
  - unfold result. rewrite length_map, length_firstn. unfold sorted.
    now rewrite order_by_desc_length.
  - intros e He. apply in_map_iff in He. destruct He as (row & <- & Hrow).
    exists row. split; [| reflexivity].
    apply In_firstn in Hrow. now apply order_by_desc_In in Hrow.
  - unfold result.
    apply StronglySorted_map with (R := fun a b => timestamp_lt a b = false).
    + intros a b H. unfold timestamp_lt in H. apply Z.ltb_ge in H. exact H.
    + now apply StronglySorted_firstn.
  - intros e e' He He'.
    apply in_map_iff in He. destruct He as (row & <- & Hrow).
    apply in_map_iff in He'. destruct He' as (row' & <- & Hrow').
    rewrite <- (firstn_skipn limit sorted) in Hrow', Hsorted.
    apply in_app_or in Hrow'. destruct Hrow' as [Hin | Hout].
    + left. unfold result. now apply in_map.
    + right.
      pose proof (StronglySorted_app_cross _ _ _ Hsorted row row' Hrow Hout) as H.
      unfold timestamp_lt in H. apply Z.ltb_ge in H. exact H.
Qed.

(** X1: [getEpisodesByType] returns stored episodes of the given type that
    are not older than [since], newest first; their number is the smaller
    of the limit and the number of matching rows, and a matching episode
    that the limit leaves out is not newer than any that is returned. *)
Theorem getEpisodesByType_newest_first
  (s : Store) (operationType : string) (since : option Z) (limit : nat) :
  let matching row :=
    (er_operation_type row =? operationType)%string &&
    match since with Some t => (t <=? er_timestamp row)%Z | None => true end in
  let result := getEpisodesByType s operationType since limit in
  List.length result = Nat.min limit (List.length (filter matching (episodes s)))
  /\ (forall e, In e result ->
        e_operation_type e = operationType
        /\ (forall t, since = Some t -> (t <= e_timestamp e)%Z)
        /\ exists row, In row (episodes s) /\ e = rowToEpisode row)
  /\ StronglySorted (fun a b => (e_timestamp b <= e_timestamp a)%Z) result
  /\ (forall e e',
        In e result ->
        In e' (getEpisodesByType s operationType since (List.length (episodes s))) ->
        In e' result \/ (e_timestamp e' <= e_timestamp e)%Z).
Proof.
  intros matching result.
  destruct (newest_first (filter matching (episodes s)) limit)
    as (Hlen & Hin & Hsorted & Hkept).
  fold matching in result. split; [exact Hlen |]. split; [| split; [exact Hsorted |]].
  - intros e He. destruct (Hin e He) as (row & Hrow & ->).
    apply filter_In in Hrow. destruct Hrow as [Hrow Hm].
    unfold matching in Hm. apply andb_true_iff in Hm. destruct Hm as [Hty Hsince].
    split; [now apply String.eqb_eq in Hty |]. split; [| now exists row].
    intros t ->. now apply Z.leb_le in Hsince.
  - intros e e' He He'. apply Hkept; [exact He |].
    unfold getEpisodesByType in He'. fold matching in He'.
    rewrite firstn_all2 in He'; [exact He' |].
    rewrite order_by_desc_length.
    apply Nat.le_trans with (List.length (episodes s)); [apply filter_length_le | lia].
Qed.

(** X2: [getEpisodesByOutcome] returns stored episodes with the given
    outcome, and of the given operation type when one is given, newest
    first and at most [limit]; an empty operation type is no filter at
    all. *)
Theorem getEpisodesByOutcome_newest_first
  (s : Store) (outcome : Outcome) (operationType : option string) (limit : nat) :
  let result := getEpisodesByOutcome s outcome operationType limit in
  (List.length result <= limit)%nat
  /\ (forall e, In e result ->
        e_outcome e = outcome
        /\ (forall ty, operationType = Some ty -> ty <> EmptyString ->
              e_operation_type e = ty)
        /\ exists row, In row (episodes s) /\ e = rowToEpisode row)
  /\ StronglySorted (fun a b => (e_timestamp b <= e_timestamp a)%Z) result
  /\ getEpisodesByOutcome s outcome (Some EmptyString) limit
     = getEpisodesByOutcome s outcome None limit.
Proof.
  intros result. unfold result, getEpisodesByOutcome.
  match goal with
  | |- context [filter ?keep (episodes s)] => set (matching := keep)
  end.
  destruct (newest_first (filter matching (episodes s)) limit)
    as (Hlen & Hin & Hsorted & _).
  split; [rewrite Hlen; apply Nat.le_min_l |].
  split; [| split; [exact Hsorted | reflexivity]].
  intros e He. destruct (Hin e He) as (row & Hrow & ->).
  apply filter_In in Hrow. destruct Hrow as [Hrow Hm].
  unfold matching in Hm. apply andb_true_iff in Hm. destruct Hm as [Ho Hty].
  split; [| split; [| now exists row]].
  - simpl. destruct (er_outcome row), outcome; simpl in Ho; congruence.
  - intros ty -> Hne. simpl.
    unfold truthy_string in Hty.
    destruct (String.eqb_spec ty EmptyString) as [-> | _]; [contradiction |].
    simpl in Hty. now apply String.eqb_eq in Hty.
Qed.

Lemma timestamp_rowid_lt_asym (a b : EpisodeRow) :
  timestamp_rowid_lt a b = true -> timestamp_rowid_lt b a = false.
Proof.
  unfold timestamp_rowid_lt. intros H.
  apply orb_true_iff in H. apply orb_false_iff.
  rewrite andb_true_iff, Z.ltb_lt, Z.eqb_eq, Z.ltb_lt in H.
  rewrite andb_false_iff, Z.ltb_ge, Z.eqb_neq, Z.ltb_ge. lia.
Qed.

Lemma timestamp_rowid_ge (a b : EpisodeRow) :
  timestamp_rowid_lt a b = false <->
  (er_timestamp b < er_timestamp a)%Z
  \/ (er_timestamp b = er_timestamp a /\ (er_id b <= er_id a)%Z).
Proof.
  unfold timestamp_rowid_lt.
  rewrite orb_false_iff, andb_false_iff, Z.ltb_ge, Z.eqb_neq, Z.ltb_ge. lia.
Qed.

Lemma timestamp_rowid_ge_trans (a b c : EpisodeRow) :
  timestamp_rowid_lt a b = false -> timestamp_rowid_lt b c = false ->
  timestamp_rowid_lt a c = false.
Proof. rewrite !timestamp_rowid_ge. lia. Qed.

(** X3: [getRecentEpisodes] returns the [min(limit, count)] newest
    episodes, newest first and those of one instant by descending id; a
    larger limit extends the list and does not reorder it. *)
Theorem getRecentEpisodes_newest_first (s : Store) (limit more : nat) :
  let result := getRecentEpisodes s limit in
  List.length result = Nat.min limit (getEpisodeCount s)
  /\ StronglySorted
       (fun a b =>
          (e_timestamp b < e_timestamp a)%Z
          \/ (e_timestamp b = e_timestamp a /\ (e_id b <= e_id a)%Z)) result
  /\ (forall e e',
        In e result -> In e' (getRecentEpisodes s (getEpisodeCount s)) ->
        In e' result \/ (e_timestamp e' <= e_timestamp e)%Z)
  /\ result = firstn limit (getRecentEpisodes s (limit + more)).
Proof.
  intros result. unfold result, getRecentEpisodes, getEpisodeCount.
  set (sorted := order_by_desc timestamp_rowid_lt (episodes s)).
  assert (Hsorted : StronglySorted (fun a b => timestamp_rowid_lt a b = false) sorted).
  { apply order_by_desc_sorted;
      [exact timestamp_rowid_lt_asym | exact timestamp_rowid_ge_trans]. }
  split; [| split; [| split]].
  - rewrite length_map, length_firstn. unfold sorted.
    now rewrite order_by_desc_length.
  - apply StronglySorted_map with (R := fun a b => timestamp_rowid_lt a b = false).
    + intros a b H. apply timestamp_rowid_ge in H. exact H.
    + now apply StronglySorted_firstn.
  - intros e e' He He'.
    rewrite firstn_all2 in He' by (unfold sorted; now rewrite order_by_desc_length).
    apply in_map_iff in He. destruct He as (row & <- & Hrow).
    apply in_map_iff in He'. destruct He' as (row' & <- & Hrow').
    rewrite <- (firstn_skipn limit sorted) in Hrow', Hsorted.
    apply in_app_or in Hrow'. destruct Hrow' as [Hin | Hout].
    + left. now apply in_map.
    + right.
      pose proof (StronglySorted_app_cross _ _ _ Hsorted row row' Hrow Hout) as H.
      apply timestamp_rowid_ge in H. cbn [e_timestamp rowToEpisode]. lia.
  - rewrite <- firstn_map, <- firstn_map, firstn_firstn.
    now replace (Nat.min limit (limit + more)) with limit by lia.
Qed.

End NewestFirst.

(** ** Filtering a sorted scan *)

Section FilterSorted.

Context {A : Type} (lt : A -> A -> bool).
Hypothesis ge_trans : forall a b c, lt a b = false -> lt b c = false -> lt a c = false.



Hypothesis lt_asym : forall a b, lt a b = true -> lt b a = false.


End FilterSorted.





Section PatternQueries.

Context {codec : JSON}.





End PatternQueries.

(** ** The recall tools *)




Section RecallByType.

Context {codec : JSON}.


End RecallByType.

(** ** Recording an experience *)

Section Recording.

Context {codec : JSON}.

Lemma recordExperience_result (now : Z) (input : RecordExperienceInput) (s : Store) :
  snd (recordExperience now input s)
  = {| rer_episode_id := next_rowid (map er_id (episodes s)) (episodes_seq s);
       rer_recorded := true;
       rer_utility_score := e_utility_score (new_episode now input s);
       rer_patterns_triggered :=
         map p_description
           (snd (detectPatterns now (rowToEpisode (recorded_row now input s))
                   (fst (insertEpisode (new_episode now input s) s)))) |}.
Proof.
  unfold recordExperience, recorded_row.
  unfold insertEpisode at 1. cbv zeta.
  unfold getEpisode. cbn [episodes set_episodes].
  rewrite (find_app_fresh er_id (episodes s)
             (episode_row (next_rowid (map er_id (episodes s)) (episodes_seq s))
                (new_episode now input s))
             (episodes_seq s) _ eq_refl eq_refl).
  cbn [option_map].
  unfold insertEpisode. cbv zeta. cbn [fst].
  match goal with |- context [detectPatterns ?n ?e ?st] =>
    destruct (detectPatterns n e st) end.
  reflexivity.
Qed.

Lemma lessons_detectPatterns (now : Z) (e : Episode) (s : Store) :
  lessons (fst (detectPatterns now e s)) = lessons s
  /\ lessons_seq (fst (detectPatterns now e s)) = lessons_seq s
  /\ (List.length (snd (detectPatterns now e s)) <= 1)%nat.
Proof.
  unfold detectPatterns.
  destruct (_ <? _)%nat; [simpl; auto |].
  destruct (Rlt_dec _ _); [simpl; auto |].
  destruct (findPatternByDescription s (e_operation_type e)) as [existing |].
  - unfold updatePattern.
    cbn [no_pattern_field refresh_updates pu_frequency is_some orb negb].
    cbv iota beta.
    match goal with |- context [getPattern ?st ?i] => destruct (getPattern st i) end;
      simpl; auto.
  - destruct (insertPattern _ s) as [s1 pid] eqn:E.
    assert (H : lessons s1 = lessons s /\ lessons_seq s1 = lessons_seq s).
    { unfold insertPattern in E. injection E as <- _. split; reflexivity. }
    destruct (getPattern s1 pid); simpl; split; try apply H; split; try apply H; auto.
Qed.

Lemma getEpisode_recorded (now : Z) (input : RecordExperienceInput) (s : Store) :
  getEpisode (fst (recordExperience now input s))
    (next_rowid (map er_id (episodes s)) (episodes_seq s))
  = Some (rowToEpisode (recorded_row now input s)).
Proof.
  unfold getEpisode. rewrite episodes_recordExperience.
  now rewrite (find_app_fresh er_id (episodes s) (recorded_row now input s)
                 (episodes_seq s) _ eq_refl eq_refl).
Qed.


End Recording.

(** ** Scores of a recorded experience *)

Lemma filter_none {A : Type} (keep : A -> bool) (l : list A) :
  (forall x, In x l -> keep x = false) -> filter keep l = [].
Proof.
  induction l as [| x l IH]; intros H; [reflexivity |].
  simpl. rewrite (H x (or_introl eq_refl)). apply IH.
  intros y Hy. apply H. now right.
Qed.

Section Scores.

Context {codec : JSON}.

Lemma calculateNoveltyScore_range (s : Store) (ty : string) (problem : option json) :
  0.1 <= calculateNoveltyScore s ty problem <= 1.
Proof.
  unfold calculateNoveltyScore.
  destruct (getEpisodesByType s ty None 50) as [| e l]; [lra |].
  set (n := List.length (e :: l)).
  match goal with |- context [INR (List.length ?f)] => set (k := List.length f) end.
  assert (Hn : 0 < INR n) by (apply lt_0_INR; unfold n; simpl; lia).
  assert (Hk : 0 <= INR k) by apply pos_INR.
  assert (Hq : 0 <= INR k / INR n).
  { unfold Rdiv. apply Rmult_le_pos; [exact Hk |]. left. now apply Rinv_0_lt_compat. }
  split; [apply Rmax_l |]. apply Rmax_lub; lra.
Qed.

Lemma calculateGeneralizabilityScore_range
  (s : Store) (ty : string) (metadata : option json) :
  0.1 <= calculateGeneralizabilityScore s ty metadata <= 1.
Proof. unfold calculateGeneralizabilityScore. apply clamp_bounds. lra. Qed.

Lemma calculateEffectivenessScore_range (outcome : Outcome) (quality : option R) :
  match quality with Some q => 0 <= q <= 1 | None => True end ->
  0 <= calculateEffectivenessScore outcome quality <= 1.
Proof.
  unfold calculateEffectivenessScore. destruct quality as [q |], outcome; intros H; lra.
Qed.

(** X7: when the quality score of the input is absent or lies in [0, 1],
    the utility score [recordExperience] reports lies in [0.05, 1]; the
    stored episode carries that score, a novelty and a generalizability in
    [0.1, 1] and an effectiveness in [0, 1], and its utility is their
    weighted sum. *)
Theorem recordExperience_utility_range
  (now : Z) (input : RecordExperienceInput) (s : Store) :
  match rei_quality_score input with Some q => 0 <= q <= 1 | None => True end ->
  let s' := fst (recordExperience now input s) in
  let r := snd (recordExperience now input s) in
  0.05 <= rer_utility_score r <= 1
  /\ exists e,
       getEpisode s' (rer_episode_id r) = Some e
       /\ e_utility_score e = rer_utility_score r
       /\ 0.1 <= e_novelty_score e <= 1
       /\ 0 <= e_effectiveness_score e <= 1
       /\ 0.1 <= e_generalizability_score e <= 1
       /\ e_utility_score e
          = 0.3 * e_novelty_score e + 0.5 * e_effectiveness_score e
            + 0.2 * e_generalizability_score e.
Proof.
  intros Hq s' r. unfold r, s'. rewrite recordExperience_result.
  cbn [rer_utility_score rer_episode_id].
  pose proof (calculateNoveltyScore_range s (rei_operation_type input)
                (rei_problem input)) as Hn.
  pose proof (calculateGeneralizabilityScore_range s (rei_operation_type input)
                (rei_metadata input)) as Hg.
  pose proof (calculateEffectivenessScore_range (rei_outcome input)
                (rei_quality_score input) Hq) as He.
  assert (Hu : e_utility_score (new_episode now input s)
               = 0.3 * calculateNoveltyScore s (rei_operation_type input)
                         (rei_problem input)
                 + 0.5 * calculateEffectivenessScore (rei_outcome input)
                           (rei_quality_score input)
                 + 0.2 * calculateGeneralizabilityScore s (rei_operation_type input)
                           (rei_metadata input)).
  { reflexivity. }
  split; [rewrite Hu; lra |].
  exists (rowToEpisode (recorded_row now input s)).
  split; [apply getEpisode_recorded |].
  split; [reflexivity |].
  split; [exact Hn |]. split; [exact He |]. split; [exact Hg | exact Hu].
Qed.

(** X8: the novelty score is 1 when no episode of the operation type is
    stored, and it is 0.1, the floor, when every one of the 50 newest
    episodes of the type has the query of the new problem; an absent query
    counts as equal to an absent query, so an experience without a problem
    is at the floor as soon as the stored episodes of its type have no
    problem either. *)
Theorem calculateNoveltyScore_edges
  (s : Store) (operationType : string) (problem : option json) :
  ((forall row, In row (episodes s) -> er_operation_type row <> operationType) ->
   calculateNoveltyScore s operationType problem = 1)
  /\ (getEpisodesByType s operationType None 50 <> [] ->
      (forall e, In e (getEpisodesByType s operationType None 50) ->
         strict_eq (opt_field "query" (e_problem e)) (opt_field "query" problem)
         = true) ->
      calculateNoveltyScore s operationType problem = 0.1)
  /\ ((exists row, In row (episodes s) /\ er_operation_type row = operationType) ->
      (forall row, In row (episodes s) -> er_operation_type row = operationType ->
         er_problem row = None) ->
      opt_field "query" problem = None ->
      calculateNoveltyScore s operationType problem = 0.1).
Proof.
  assert (Hfloor :
    getEpisodesByType s operationType None 50 <> [] ->
    (forall e, In e (getEpisodesByType s operationType None 50) ->
       strict_eq (opt_field "query" (e_problem e)) (opt_field "query" problem)
       = true) ->
    calculateNoveltyScore s operationType problem = 0.1).
  { intros Hne Hall. unfold calculateNoveltyScore.
    destruct (getEpisodesByType s operationType None 50) as [| e l] eqn:E;
      [contradiction |].
    rewrite forallb_filter_id by (apply forallb_forall; exact Hall).
    assert (Hn : 0 < INR (List.length (e :: l)))
      by (apply lt_0_INR; simpl; lia).
    replace (INR (List.length (e :: l)) / INR (List.length (e :: l))) with 1
      by (field; lra).
    rewrite Rmax_left; lra. }
  split; [| split; [exact Hfloor |]].
  - intros Hnone. unfold calculateNoveltyScore, getEpisodesByType.
    rewrite filter_none; [reflexivity |].
    intros row Hrow. rewrite andb_true_r. apply String.eqb_neq. now apply Hnone.
  - intros (row & Hrow & Hty) Hnull Hquery.
    destruct (newest_first
                (filter (fun r => (er_operation_type r =? operationType)%string && true)
                        (episodes s)) 50) as (Hlen & Hin & _).
    change (map rowToEpisode
              (firstn 50
                 (order_by_desc timestamp_lt
                    (filter (fun r => (er_operation_type r =? operationType)%string
                                      && true) (episodes s)))))
      with (getEpisodesByType s operationType None 50) in Hlen, Hin.
    apply Hfloor.
    + intros Hnil. rewrite Hnil in Hlen. cbn [List.length] in Hlen.
      assert (Hpos : (0 < List.length
                (filter (fun r => (er_operation_type r =? operationType)%string && true)
                        (episodes s)))%nat).
      { destruct (filter _ (episodes s)) eqn:Ef; [| simpl; lia].
        assert (Hin' : In row (filter (fun r => (er_operation_type r =? operationType)%string && true) (episodes s))).
        { apply filter_In. split; [exact Hrow |].
          rewrite andb_true_r. now apply String.eqb_eq. }
        rewrite Ef in Hin'. contradiction. }
      lia.
    + intros e He. destruct (Hin e He) as (r & Hr & ->).
      apply filter_In in Hr. destruct Hr as [Hr Hm].
      rewrite andb_true_r in Hm. apply String.eqb_eq in Hm.
      simpl. rewrite (Hnull r Hr Hm). simpl. rewrite Hquery. reflexivity.
Qed.

End Scores.

Lemma recordExperience_utility_range_witness :
  0.05 <= rer_utility_score (snd (recordExperience 1000 (build_attempt success)
                                    sample_episodes)) <= 1.
Proof.
  exact (proj1 (recordExperience_utility_range 1000 (build_attempt success)
                  sample_episodes I)).
Defined.

Lemma calculateNoveltyScore_edges_witness :
  calculateNoveltyScore sample_episodes "build" None = 0.1.
Proof.
  apply (proj2 (proj2 (calculateNoveltyScore_edges sample_episodes "build" None))).
  - exists (sample_episode_row 1 1000 success). split; [left |]; reflexivity.
  - intros row [<- | [<- | [<- | []]]] _; reflexivity.
  - reflexivity.
Defined.

(** ** Averages and counts *)



Lemma mean_bounds (lo hi sum n : R) :
  0 < n -> n * lo <= sum <= n * hi -> lo <= sum / n <= hi.
Proof.
  intros Hn [Hlo Hhi].
  assert (Hi : 0 < / n) by now apply Rinv_0_lt_compat.
  split.
  - replace lo with (n * lo * / n) by (field; lra).
    unfold Rdiv. apply Rmult_le_compat_r; lra.
  - replace hi with (n * hi * / n) by (field; lra).
    unfold Rdiv. apply Rmult_le_compat_r; lra.
Qed.


Section Averages.

Context {codec : JSON}.



End Averages.


(** ** A lesson just learned *)

Lemma created_at_lt_asym (a b : LessonRow) :
  created_at_lt a b = true -> created_at_lt b a = false.
Proof. unfold created_at_lt. intros H. apply Z.ltb_lt in H. apply Z.ltb_ge. lia. Qed.

Lemma created_at_ge_trans (a b c : LessonRow) :
  created_at_lt a b = false -> created_at_lt b c = false -> created_at_lt a c = false.
Proof. unfold created_at_lt. rewrite !Z.ltb_ge. lia. Qed.

Section Learned.

Context {codec : JSON}.

(** The lesson row a successful [learnFromPattern] appends. *)
Lemma learnFromPattern_lesson (now : Z) (input : LearnFromPatternInput) (s s' : Store)
  (r : LearnFromPatternResult) :
  learnFromPattern now input s = Ok (s', r) ->
  let resolved := selected_by_ids s (lfi_episode_ids input) in
  exists row pattern_id,
    lessons s' = (lessons s ++ [row])%list
    /\ lfr_lesson_id r = lr_id row
    /\ lr_id row = next_rowid (map lr_id (lessons s)) (lessons_seq s)
    /\ lfr_pattern_id r = Some pattern_id
    /\ lfr_initial_confidence r = learned_confidence resolved
    /\ lr_statement row = lfi_lesson_statement input
    /\ lr_pattern_id row = Some pattern_id
    /\ lr_contexts row
       = Some (JSON_stringify (json_of_strings (learned_contexts resolved)))
    /\ lr_initial_confidence row = learned_confidence resolved
    /\ lr_decay_constant row = PATTERN_CONFIG.decayConstant
    /\ lr_last_validated row = now
    /\ lr_times_applied row = 0%Z
    /\ lr_times_succeeded row = 0%Z
    /\ lr_created_at row = now
    /\ lr_deprecated_at row = None.
Proof.
  intros H resolved.
  destruct (learnFromPattern_looked_up _ _ _ _ _ H) as [_ Hlooked].
  unfold learnFromPattern in H. rewrite Hlooked in H. fold resolved in H.
  unfold PATTERN_CONFIG.minEpisodes in H.
  destruct (Nat.ltb_spec (List.length resolved) 3) as [Hlt | Hge]; [discriminate |].
  unfold findPatternByDescription in H.
  destruct (find_matching_row s (lfi_pattern_description input)) as [prow |];
    cbn [option_map] in H.
  - injection H as <- <-. cbn [p_id rowToPattern].
    eexists. exists (pr_id prow).
    split; [reflexivity |]. cbn. repeat split; reflexivity.
  - injection H as <- <-.
    eexists. exists (next_rowid (map pr_id (patterns s)) (patterns_seq s)).
    split; [reflexivity |]. cbn. repeat split; reflexivity.
Qed.

(** X10: a lesson that [learnFromPattern] has just created is active: at
    the instant of its creation [getActiveLessons] returns it, for every
    threshold up to the confidence of the result, with that confidence as
    its current confidence; [getLessonsByPattern] lists it under the
    pattern of the result; the number of lessons, deprecated ones counted
    or not, has grown by one and the episodes are as they were. *)
Theorem learnFromPattern_lesson_active
  (now : Z) (input : LearnFromPatternInput) (s s' : Store) (r : LearnFromPatternResult) :
  learnFromPattern now input s = Ok (s', r) ->
  (forall minConfidence, minConfidence <= lfr_initial_confidence r ->
     exists lw,
       In lw (getActiveLessons now s' minConfidence)
       /\ l_id (lesson lw) = lfr_lesson_id r
       /\ l_statement (lesson lw) = lfi_lesson_statement input
       /\ current_confidence lw = lfr_initial_confidence r)
  /\ (exists pattern_id l,
        lfr_pattern_id r = Some pattern_id
        /\ In l (getLessonsByPattern s' pattern_id)
        /\ l_id l = lfr_lesson_id r)
  /\ getLessonCount s' false = S (getLessonCount s false)
  /\ getLessonCount s' true = S (getLessonCount s true)
  /\ getEpisodeCount s' = getEpisodeCount s
  /\ Forall (fun id => (id < lfr_lesson_id r)%Z) (map lr_id (lessons s)).
Proof.
  intros H.
  destruct (learnFromPattern_lesson _ _ _ _ _ H)
    as (row & pid & Hl & Hid & Hfresh & Hpid & Hconf & Hst & Hrp & _ & Hrc & _
        & Hval & _ & _ & _ & Hdep).
  apply learnFromPattern_store in H. destruct H as (_ & He & _).
  assert (Hin : In row (lessons s')) by (rewrite Hl; apply in_or_app; right; now left).
  split; [| split; [| split; [| split; [| split]]]].
  - intros minConfidence Hmin. exists (with_current_confidence now row).
    assert (Hcc : current_confidence (with_current_confidence now row)
                  = lfr_initial_confidence r).
    { unfold with_current_confidence. cbn [current_confidence rowToLesson
        l_initial_confidence l_decay_constant l_last_validated].
      rewrite Hval, Hrc, Hconf. apply currentConfidence_at_validation. }
    split; [| split; [symmetry; exact Hid | split; [exact Hst | exact Hcc]]].
    apply getActiveLessons_In. exists row. rewrite Hcc. auto.
  - exists pid, (rowToLesson row). split; [exact Hpid |].
    split; [| symmetry; exact Hid].
    unfold getLessonsByPattern. apply in_map, order_by_desc_In, filter_In.
    split; [exact Hin |]. rewrite Hrp. apply Z.eqb_refl.
  - unfold getLessonCount. rewrite Hl, filter_app, length_app. simpl.
    rewrite Hdep. simpl. lia.
  - unfold getLessonCount. rewrite Hl, length_app. simpl. lia.
  - unfold getEpisodeCount. now rewrite He.
  - rewrite Hid, Hfresh. apply Forall_forall. intros id Hi. now apply next_rowid_fresh.
Qed.

End Learned.

Lemma learnFromPattern_lesson_active_witness :
  exists s' r lw,
    learnFromPattern 5000 sample_learning sample_episodes = Ok (s', r)
    /\ In lw (getActiveLessons 5000 s' 0.3)
    /\ l_id (lesson lw) = lfr_lesson_id r.
Proof.
  destruct (learnFromPattern_sufficient 5000 sample_learning sample_episodes
              ltac:(vm_compute; discriminate))
    as (s' & r & pid & p & l & Hlearn & _ & _ & _ & _ & Hc & Hr);
    [vm_compute; lia |].
  destruct (proj1 (learnFromPattern_lesson_active _ _ _ _ _ Hlearn) 0.3)
    as (lw & Hin & Hid & _).
  { rewrite Hr, Hc. apply learned_confidence_clamped. }
  exists s', r, lw. auto.
Defined.

(** ** get_lessons *)

Lemma current_confidence_lt_asym (a b : LessonWithConfidence) :
  current_confidence_lt a b = true -> current_confidence_lt b a = false.
Proof.
  unfold current_confidence_lt. intros H. apply Rltb_true in H. apply Rltb_false. lra.
Qed.

Lemma current_confidence_ge_trans (a b c : LessonWithConfidence) :
  current_confidence_lt a b = false -> current_confidence_lt b c = false ->
  current_confidence_lt a c = false.
Proof. unfold current_confidence_lt. rewrite !Rltb_false. lra. Qed.

Lemma filter_length_perm {A : Type} (keep : A -> bool) (l l' : list A) :
  Permutation l l' -> List.length (filter keep l) = List.length (filter keep l').
Proof.
  induction 1 as [| x l l' _ IH | x y l | l l' l'' _ IH1 _ IH2]; simpl.
  - reflexivity.
  - destruct (keep x); simpl; now rewrite IH.
  - destruct (keep x), (keep y); reflexivity.
  - now rewrite IH1.
Qed.

Section GetLessonsFacts.

Context {codec : JSON} {strings : Strings}.

Lemma confidence_summary_total (l : list LessonWithConfidence) :
  (cs_high (confidence_summary l) + cs_medium (confidence_summary l)
   + cs_low (confidence_summary l) = List.length l)%nat.
Proof.
  unfold confidence_summary. cbn [cs_high cs_medium cs_low].
  unfold CONFIDENCE_THRESHOLDS.high, CONFIDENCE_THRESHOLDS.medium, Rleb, Rltb.
  induction l as [| x l IH]; [reflexivity |].
  cbn [filter List.length].
  destruct (Rle_dec 0.7 (current_confidence x)),
           (Rle_dec 0.4 (current_confidence x)),
           (Rlt_dec (current_confidence x) 0.7),
           (Rlt_dec (current_confidence x) 0.4);
    cbn [andb List.length]; try lia; exfalso; lra.
Qed.

(** The lessons [getLessons] keeps once the filters are applied. *)
Lemma getLessons_sorted_of (now : Z) (input : GetLessonsInput) (s : Store) :
  exists kept,
    lsr_lessons (getLessons now input s) = order_by_desc current_confidence_lt kept
    /\ (forall lw, In lw kept ->
          In lw (getActiveLessons now s (or_else (gli_min_confidence input) 0)))
    /\ (gli_context input = None ->
        gli_operation_type input = None
        \/ gli_operation_type input = Some EmptyString ->
        kept = getActiveLessons now s (or_else (gli_min_confidence input) 0)).
Proof.
  unfold getLessons. cbn [lsr_lessons].
  eexists. split; [reflexivity |]. split.
  - intros lw Hlw.
    destruct (gli_context input); [apply filter_In in Hlw; destruct Hlw as [Hlw _] |];
      (destruct (gli_operation_type input) as [ty |];
       [destruct (truthy_string ty); [apply filter_In in Hlw |]; tauto | exact Hlw]).
  - intros -> [-> | ->]; reflexivity.
Qed.

(** X11: [getLessons] returns active lessons whose current confidence
    reaches the threshold (0 when none is given), by descending current
    confidence; the three counts of the summary add up to the number of
    lessons returned; without an operation type (or with an empty one) and
    without a context, every such lesson is returned. *)
Theorem getLessons_by_current_confidence
  (now : Z) (input : GetLessonsInput) (s : Store) :
  let result := getLessons now input s in
  let minConfidence := or_else (gli_min_confidence input) 0 in
  StronglySorted (fun a b => current_confidence b <= current_confidence a)
    (lsr_lessons result)
  /\ (forall lw, In lw (lsr_lessons result) ->
        In lw (getActiveLessons now s minConfidence)
        /\ minConfidence <= current_confidence lw
        /\ l_deprecated_at (lesson lw) = None)
  /\ (cs_high (lsr_confidence_summary result)
      + cs_medium (lsr_confidence_summary result)
      + cs_low (lsr_confidence_summary result)
      = List.length (lsr_lessons result))%nat
  /\ (gli_context input = None ->
      gli_operation_type input = None
      \/ gli_operation_type input = Some EmptyString ->
      Permutation (lsr_lessons result) (getActiveLessons now s minConfidence)).
Proof.
  intros result minConfidence.
  destruct (getLessons_sorted_of now input s) as (kept & Hsorted & Hkept & Hall).
  fold result minConfidence in Hsorted, Hkept, Hall.
  split; [| split; [| split]].
  - rewrite Hsorted.
    assert (H : StronglySorted (fun a b => current_confidence_lt a b = false)
                  (order_by_desc current_confidence_lt kept)).
    { apply order_by_desc_sorted;
        [exact current_confidence_lt_asym | exact current_confidence_ge_trans]. }
    rewrite <- (map_id (order_by_desc current_confidence_lt kept)).
    apply StronglySorted_map with (R := fun a b => current_confidence_lt a b = false);
      [| exact H].
    intros a b Hab. unfold current_confidence_lt in Hab. now apply Rltb_false in Hab.
  - intros lw Hlw. rewrite Hsorted in Hlw. apply order_by_desc_In in Hlw.
    specialize (Hkept lw Hlw). split; [exact Hkept |].
    apply getActiveLessons_In in Hkept.
    destruct Hkept as (row & _ & Hdep & -> & Hmin). split; [exact Hmin | exact Hdep].
  - unfold result, getLessons. cbn [lsr_lessons lsr_confidence_summary].
    apply confidence_summary_total.
  - intros Hc Hty. rewrite Hsorted, (Hall Hc Hty). apply order_by_desc_perm.
Qed.

(** X12: the statistics are consistent: the high-confidence lessons are
    among the lessons that are not deprecated, these among all lessons,
    and their number is the [high] count [getLessons] reports when called
    without arguments. *)
Theorem getStats_consistent (now : Z) (s : Store) :
  let stats := getStats now s in
  let summary :=
    lsr_confidence_summary
      (getLessons now {| gli_context := None; gli_operation_type := None;
                         gli_min_confidence := None |} s) in
  (stats_highConfidenceLessons stats <= stats_lessons stats)%nat
  /\ (stats_lessons stats <= getLessonCount s true)%nat
  /\ stats_highConfidenceLessons stats = cs_high summary
  /\ stats_episodes stats = getEpisodeCount s
  /\ stats_patterns stats
     = (List.length (getPatternsByType s pattern_success)
        + List.length (getPatternsByType s pattern_failure)
        + List.length (getPatternsByType s pattern_correlation))%nat.
Proof.
  intros stats summary. unfold stats, getStats.
  cbn [stats_highConfidenceLessons stats_lessons stats_episodes stats_patterns].
  split; [| split; [| split; [| split]]].
  - eapply Nat.le_trans; [apply filter_length_le |].
    unfold getActiveLessons, getLessonCount.
    eapply Nat.le_trans; [apply filter_length_le |].
    now rewrite length_map, order_by_desc_length.
  - unfold getLessonCount. apply filter_length_le.
  - unfold summary, getLessons, confidence_summary.
    cbn [gli_context gli_operation_type gli_min_confidence or_else
         lsr_confidence_summary cs_high].
    apply filter_length_perm. symmetry. apply order_by_desc_perm.
  - reflexivity.
  - unfold getPatternsByType, getPatternCount.
    rewrite !length_map, !order_by_desc_length.
    induction (patterns s) as [| row rows IH]; [reflexivity |].
    simpl. destruct (pr_pattern_type row); simpl; lia.
Qed.

End GetLessonsFacts.

(** ** Applying a lesson: what else changes *)

Section Applied.

Context {codec : JSON}.

Lemma applyLesson_effect (now id : Z) (outcome : Outcome) (s : Store) (l : Lesson) :
  getLesson s id = Some l ->
  exists s',
    applyLesson now {| ali_lesson_id := id; ali_outcome := outcome |} s
    = Ok (s', {| alr_applied := true;
                 alr_lesson_id := id;
                 alr_previous_confidence :=
                   calculateCurrentConfidence now (l_initial_confidence l)
                     (l_decay_constant l) (l_last_validated l);
                 alr_new_confidence := applied_confidence now l outcome;
                 alr_total_applications := (l_times_applied l + 1)%Z;
                 alr_success_rate :=
                   (IZR (l_times_succeeded l) + evidence_of outcome)
                   / IZR (l_times_applied l + 1) |})
    /\ lessons s' =
       map (fun row =>
              if (lr_id row =? id)%Z
              then apply_lesson_updates (applied_updates now l outcome) row
              else row) (lessons s)
    /\ episodes s' = episodes s
    /\ patterns s' =
       match l_pattern_id l with
       | Some pid =>
           if (pid =? 0)%Z then patterns s
           else
             match find (fun row => (pr_id row =? pid)%Z) (patterns s) with
             | Some prow =>
                 map (fun row =>
                        if (pr_id row =? pid)%Z
                        then apply_pattern_updates
                               {| pu_frequency := None;
                                  pu_last_seen := None;
                                  pu_initial_confidence := None;
                                  pu_last_validated := Some now;
                                  pu_times_applied := Some (pr_times_applied prow + 1)%Z;
                                  pu_times_succeeded :=
                                    Some (pr_times_succeeded prow
                                          + (if Outcome_eqb outcome success
                                             then 1 else 0))%Z;
                                  pu_discrimination_weight := None;
                                  pu_episode_ids := None |} row
                        else row) (patterns s)
             | None => patterns s
             end
       | None => patterns s
       end.
Proof.
  intros Hl. unfold applyLesson.
  cbv beta iota zeta delta [ali_lesson_id ali_outcome].
  rewrite Hl. unfold updateLesson.
  cbn [no_lesson_field lu_initial_confidence is_some orb negb].
  cbv iota beta. rewrite auto_deprecate_clamped.
  eexists. split; [reflexivity |].
  destruct (l_pattern_id l) as [pid |]; [| repeat split].
  destruct (pid =? 0)%Z; [repeat split |].
  unfold getPattern. cbn [patterns set_lessons].
  destruct (find (fun row => (pr_id row =? pid)%Z) (patterns s)) as [prow |];
    cbn [option_map]; [| repeat split].
  unfold updatePattern.
  cbn [no_pattern_field pu_frequency pu_last_seen pu_initial_confidence
       pu_last_validated is_some orb negb fst].
  repeat split.
Qed.

Lemma getLesson_other (f : LessonRow -> LessonRow) (id id' : Z) (s s' : Store) :
  (forall row, lr_id (f row) = lr_id row) ->
  lessons s' = map (fun row => if (lr_id row =? id)%Z then f row else row) (lessons s) ->
  id' <> id -> getLesson s' id' = getLesson s id'.
Proof.
  intros Hf Hs' Hne. unfold getLesson. rewrite Hs'.
  rewrite (find_map_update lr_id f id id') by exact Hf.
  destruct (find (fun r => (lr_id r =? id')%Z) (lessons s)) as [row |] eqn:E;
    [| reflexivity].
  simpl. apply find_key_eq in E. rewrite E.
  destruct (Z.eqb_spec id' id); [contradiction | reflexivity].
Qed.

Lemma getPattern_other (f : PatternRow -> PatternRow) (id id' : Z) (s s' : Store) :
  (forall row, pr_id (f row) = pr_id row) ->
  patterns s' = map (fun row => if (pr_id row =? id)%Z then f row else row) (patterns s) ->
  id' <> id -> getPattern s' id' = getPattern s id'.
Proof.
  intros Hf Hs' Hne. unfold getPattern. rewrite Hs'.
  rewrite (find_map_update pr_id f id id') by exact Hf.
  destruct (find (fun r => (pr_id r =? id')%Z) (patterns s)) as [row |] eqn:E;
    [| reflexivity].
  simpl. apply find_key_eq in E. rewrite E.
  destruct (Z.eqb_spec id' id); [contradiction | reflexivity].
Qed.

(** X13: [applyLesson] keeps the counters of a lesson consistent: the
    applications grow by one, the stored successes by one on a success and
    also on a partial success, whose half is rounded up, and by nothing on
    a failure; when the successes did not exceed the applications before,
    they do not afterwards, and the success rate of the result lies in
    [0, 1].  The statement, the pattern and the creation time of the
    lesson are not touched. *)
Theorem applyLesson_counters
  (now id : Z) (outcome : Outcome) (s : Store) (l : Lesson) :
  getLesson s id = Some l ->
  (0 <= l_times_succeeded l <= l_times_applied l)%Z ->
  exists s' r l',
    applyLesson now {| ali_lesson_id := id; ali_outcome := outcome |} s = Ok (s', r)
    /\ getLesson s' id = Some l'
    /\ alr_applied r = true
    /\ alr_total_applications r = (l_times_applied l + 1)%Z
    /\ l_times_applied l' = (l_times_applied l + 1)%Z
    /\ l_times_succeeded l'
       = (l_times_succeeded l + match outcome with failure => 0 | _ => 1 end)%Z
    /\ (0 <= l_times_succeeded l' <= l_times_applied l')%Z
    /\ alr_success_rate r
       = (IZR (l_times_succeeded l) + evidence_of outcome)
         / IZR (l_times_applied l + 1)
    /\ 0 <= alr_success_rate r <= 1
    /\ l_statement l' = l_statement l
    /\ l_pattern_id l' = l_pattern_id l
    /\ l_created_at l' = l_created_at l
    /\ l_decay_constant l' = l_decay_constant l.
Proof.
  intros Hl Hcount.
  destruct (applyLesson_effect now id outcome s l Hl) as (s' & Happ & Hs' & _).
  pose proof Hl as Hrow. apply getLesson_row in Hrow.
  destruct Hrow as (row & Hrow & ->).
  eexists s', _, _. split; [exact Happ |].
  cbn [alr_applied alr_total_applications alr_success_rate].
  split.
  { unfold getLesson. rewrite Hs'.
    rewrite (find_map_update lr_id _ id id) by reflexivity.
    rewrite Hrow. cbn [option_map]. rewrite (find_key_eq _ _ _ _ Hrow), Z.eqb_refl.
    reflexivity. }
  cbn [rowToLesson apply_lesson_updates applied_updates l_times_applied
       l_times_succeeded l_statement l_pattern_id l_created_at l_decay_constant
       lr_times_applied lr_times_succeeded lr_statement lr_pattern_id lr_created_at
       lr_decay_constant lu_times_applied lu_times_succeeded or_else] in *.
  rewrite stored_times_succeeded.
  assert (Hrate : 0 <= (IZR (lr_times_succeeded row) + evidence_of outcome)
                       / IZR (lr_times_applied row + 1) <= 1).
  { assert (Hn : 0 < IZR (lr_times_applied row + 1)) by (apply IZR_lt; lia).
    assert (Hs : 0 <= IZR (lr_times_succeeded row)) by (apply IZR_le; lia).
    assert (Hle : IZR (lr_times_succeeded row) + 1 <= IZR (lr_times_applied row + 1)).
    { rewrite plus_IZR. apply Rplus_le_compat_r, IZR_le. lia. }
    assert (He : 0 <= evidence_of outcome <= 1) by (destruct outcome; simpl; lra).
    replace 0 with (IZR (lr_times_applied row + 1) * 0 / IZR (lr_times_applied row + 1))
      at 1 by (field; lra).
    replace 1 with (IZR (lr_times_applied row + 1) * 1 / IZR (lr_times_applied row + 1))
      at 2 by (field; lra).
    apply mean_bounds; lra || (split; lra). }
  repeat split; try reflexivity; try (destruct outcome; lia); apply Hrate.
Qed.

(** X14: [applyLesson] also books the application on the pattern of the
    lesson, when the lesson names one that exists: its applications grow
    by one, its successes by one on a success only (a partial success
    counts for the lesson and not for the pattern), and it is validated at
    the instant of the call; nothing else of that pattern changes, and no
    other pattern, no other lesson and no episode is touched.  A lesson
    without pattern, with pattern id 0 or with a pattern that is gone
    leaves the patterns as they are. *)
Theorem applyLesson_books_pattern
  (now id : Z) (outcome : Outcome) (s : Store) (l : Lesson) :
  getLesson s id = Some l ->
  exists s' r,
    applyLesson now {| ali_lesson_id := id; ali_outcome := outcome |} s = Ok (s', r)
    /\ episodes s' = episodes s
    /\ (forall id', id' <> id -> getLesson s' id' = getLesson s id')
    /\ match l_pattern_id l with
       | Some pid =>
           if (pid =? 0)%Z then patterns s' = patterns s
           else
             match getPattern s pid with
             | Some p =>
                 (exists p',
                    getPattern s' pid = Some p'
                    /\ p_times_applied p' = (p_times_applied p + 1)%Z
                    /\ p_times_succeeded p'
                       = (p_times_succeeded p
                          + match outcome with success => 1 | _ => 0 end)%Z
                    /\ p_last_validated p' = now
                    /\ p_id p' = p_id p
                    /\ p_pattern_type p' = p_pattern_type p
                    /\ p_description p' = p_description p
                    /\ p_episode_ids p' = p_episode_ids p
                    /\ p_frequency p' = p_frequency p
                    /\ p_last_seen p' = p_last_seen p
                    /\ p_created_at p' = p_created_at p
                    /\ p_initial_confidence p' = p_initial_confidence p
                    /\ p_decay_constant p' = p_decay_constant p
                    /\ p_discrimination_weight p' = p_discrimination_weight p)
                 /\ (forall pid', pid' <> pid -> getPattern s' pid' = getPattern s pid')
             | None => patterns s' = patterns s
             end
       | None => patterns s' = patterns s
       end.
Proof.
  intros Hl.
  destruct (applyLesson_effect now id outcome s l Hl) as (s' & Happ & Hs' & He & Hp).
  eexists s', _. split; [exact Happ |]. split; [exact He |]. split.
  { intros id' Hne. eapply getLesson_other; [| exact Hs' | exact Hne]. reflexivity. }
  destruct (l_pattern_id l) as [pid |]; [| exact Hp].
  destruct (pid =? 0)%Z; [exact Hp |].
  unfold getPattern at 1.
  destruct (find (fun row => (pr_id row =? pid)%Z) (patterns s)) as [prow |] eqn:Hfind;
    cbn [option_map]; [| exact Hp].
  split.
  - unfold getPattern. rewrite Hp.
    rewrite (find_map_update pr_id _ pid pid) by reflexivity.
    rewrite Hfind. cbn [option_map].
    rewrite (find_key_eq _ _ _ _ Hfind), Z.eqb_refl.
    eexists. split; [reflexivity |].
    cbn. destruct outcome; repeat split; reflexivity.
  - intros pid' Hne. eapply getPattern_other; [| exact Hp | exact Hne]. reflexivity.
Qed.

End Applied.

Lemma applyLesson_counters_witness :
  exists s' r l',
    applyLesson 86400000 {| ali_lesson_id := 1; ali_outcome := partial |} sample_lessons
    = Ok (s', r)
    /\ getLesson s' 1 = Some l'
    /\ l_times_applied l' = 1%Z
    /\ l_times_succeeded l' = 1%Z.
Proof.
  destruct (applyLesson_counters 86400000 1 partial sample_lessons
              (rowToLesson sample_lesson_row) eq_refl)
    as (s' & r & l' & Happ & Hl' & _ & _ & Hta & Hts & _).
  { simpl. lia. }
  exists s', r, l'. auto.
Defined.

Lemma applyLesson_books_pattern_witness :
  exists s' r p',
    applyLesson 5000 {| ali_lesson_id := 1; ali_outcome := partial |} linked_store
    = Ok (s', r)
    /\ getPattern s' 1 = Some p'
    /\ p_times_applied p' = 1%Z
    /\ p_times_succeeded p' = 0%Z.
Proof.
  destruct (applyLesson_books_pattern 5000 1 partial linked_store
              (rowToLesson linked_lesson_row) eq_refl)
    as (s' & r & Happ & _ & _ & Hp).
  change (l_pattern_id (rowToLesson linked_lesson_row)) with (Some 1%Z) in Hp.
  change (1 =? 0)%Z with false in Hp.
  change (getPattern linked_store 1) with (Some (rowToPattern rebuild_pattern_row)) in Hp.
  cbv iota beta in Hp.
  destruct Hp as ((p' & Hget & Hta & Hts & _) & _).
  exists s', r, p'. auto.
Defined.

(** ** Updates by id *)

Section Keyed2.

Context {A : Type} (key : A -> Z).

Lemma existsb_key_find (l : list A) (id : Z) :
  existsb (fun r => (key r =? id)%Z) l
  = is_some (find (fun r => (key r =? id)%Z) l).
Proof.
  induction l as [| r l IH]; [reflexivity |].
  simpl. destruct (key r =? id)%Z; [reflexivity | exact IH].
Qed.

Lemma map_update_missing (f : A -> A) (l : list A) (id : Z) :
  find (fun r => (key r =? id)%Z) l = None ->
  map (fun r => if (key r =? id)%Z then f r else r) l = l.
Proof.
  induction l as [| r l IH]; [reflexivity |].
  simpl. destruct (key r =? id)%Z; [discriminate |].
  intros H. now rewrite IH.
Qed.

End Keyed2.

Lemma find_app_found {A : Type} (f : A -> bool) (l l' : list A) (x : A) :
  find f l = Some x -> find f (l ++ l') = Some x.
Proof.
  induction l as [| y l IH]; [discriminate |].
  simpl. destruct (f y); [trivial | exact IH].
Qed.

Section Updates.

Context {codec : JSON}.

Lemma getLesson_none_find (s : Store) (id : Z) :
  getLesson s id = None -> find (fun r => (lr_id r =? id)%Z) (lessons s) = None.
Proof.
  unfold getLesson. now destruct (find _ (lessons s)).
Qed.

Lemma getPattern_none_find (s : Store) (id : Z) :
  getPattern s id = None -> find (fun r => (pr_id r =? id)%Z) (patterns s) = None.
Proof.
  unfold getPattern. now destruct (find _ (patterns s)).
Qed.

(** X15: [updateLesson] and [updatePattern] return false and leave the
    store as it is when no field is given or when no row has the id;
    otherwise they return true and [updateLesson] sets the given fields
    on the lesson and no other: a field that is not given keeps its
    value, the statement, the pattern and the creation time cannot be
    changed, a deprecation can be set but never cleared, and no other
    lesson changes. *)
Theorem update_by_id_edges (id : Z) (s : Store) :
  (forall u, no_lesson_field u = true -> updateLesson id u s = (s, false))
  /\ (forall u, getLesson s id = None -> updateLesson id u s = (s, false))
  /\ (forall u, no_pattern_field u = true -> updatePattern id u s = (s, false))
  /\ (forall u, getPattern s id = None -> updatePattern id u s = (s, false))
  /\ (forall u p, no_pattern_field u = false -> getPattern s id = Some p ->
        snd (updatePattern id u s) = true)
  /\ (forall u l, no_lesson_field u = false -> getLesson s id = Some l ->
        snd (updateLesson id u s) = true
        /\ (exists l',
              getLesson (fst (updateLesson id u s)) id = Some l'
              /\ l_initial_confidence l'
                 = or_else (lu_initial_confidence u) (l_initial_confidence l)
              /\ l_last_validated l'
                 = or_else (lu_last_validated u) (l_last_validated l)
              /\ l_times_applied l' = or_else (lu_times_applied u) (l_times_applied l)
              /\ l_times_succeeded l'
                 = or_else (lu_times_succeeded u) (l_times_succeeded l)
              /\ l_deprecated_at l'
                 = match lu_deprecated_at u with
                   | Some t => Some t
                   | None => l_deprecated_at l
                   end
              /\ l_statement l' = l_statement l
              /\ l_pattern_id l' = l_pattern_id l
              /\ l_created_at l' = l_created_at l
              /\ l_decay_constant l' = l_decay_constant l)
        /\ (forall id', id' <> id ->
              getLesson (fst (updateLesson id u s)) id' = getLesson s id')).
Proof.
  assert (Hs : forall st, set_lessons st (lessons st) (lessons_seq st) = st)
    by (now intros []).
  assert (Hp : forall st, set_patterns st (patterns st) (patterns_seq st) = st)
    by (now intros []).
  split; [| split; [| split; [| split; [| split]]]].
  - intros u Hu. unfold updateLesson. now rewrite Hu.
  - intros u Hnone. unfold updateLesson.
    destruct (no_lesson_field u); [reflexivity |].
    apply getLesson_none_find in Hnone.
    rewrite (existsb_key_find lr_id), Hnone.
    rewrite (map_update_missing lr_id _ _ _ Hnone), Hs. reflexivity.
  - intros u Hu. unfold updatePattern. now rewrite Hu.
  - intros u Hnone. unfold updatePattern.
    destruct (no_pattern_field u); [reflexivity |].
    apply getPattern_none_find in Hnone.
    rewrite (existsb_key_find pr_id), Hnone.
    rewrite (map_update_missing pr_id _ _ _ Hnone), Hp. reflexivity.
  - intros u p Hu Hsome. unfold updatePattern. rewrite Hu. cbn [snd].
    rewrite (existsb_key_find pr_id). unfold getPattern in Hsome.
    now destruct (find _ (patterns s)).
  - intros u l Hu Hl. unfold updateLesson. rewrite Hu. cbn [fst snd].
    apply getLesson_row in Hl. destruct Hl as (row & Hrow & ->).
    split; [| split].
    + rewrite (existsb_key_find lr_id), Hrow. reflexivity.
    + unfold getLesson. cbn [lessons set_lessons].
      rewrite (find_map_update lr_id _ id id) by reflexivity.
      rewrite Hrow. cbn [option_map].
      rewrite (find_key_eq _ _ _ _ Hrow), Z.eqb_refl.
      eexists. split; [reflexivity |]. repeat split.
    + intros id' Hne.
      eapply getLesson_other; [| reflexivity | exact Hne]. reflexivity.
Qed.

(** X16: deprecation is permanent: a lesson that is deprecated stays
    deprecated under [updateLesson], [deprecateLesson], [applyLesson],
    [recordExperience], [learnFromPattern] and the two claim handlers,
    whatever their arguments; and [applyLesson] does not refuse a
    deprecated lesson. *)
Theorem deprecation_is_permanent (s : Store) (id : Z) (l : Lesson) (t : Z) :
  getLesson s id = Some l ->
  l_deprecated_at l = Some t ->
  let deprecated s' :=
    exists l' t', getLesson s' id = Some l' /\ l_deprecated_at l' = Some t' in
  (forall id' u, deprecated (fst (updateLesson id' u s)))
  /\ (forall now id', deprecated (fst (deprecateLesson now id' s)))
  /\ (forall now input s' r, applyLesson now input s = Ok (s', r) -> deprecated s')
  /\ (forall now outcome, exists s' r,
        applyLesson now {| ali_lesson_id := id; ali_outcome := outcome |} s
        = Ok (s', r))
  /\ (forall now input, deprecated (fst (recordExperience now input s)))
  /\ (forall now input s' r, learnFromPattern now input s = Ok (s', r) -> deprecated s')
  /\ (forall now lesson_id, deprecated (fst (on_CLAIM_VERIFIED now lesson_id s)))
  /\ (forall now lesson_id, deprecated (fst (on_CLAIM_REFUTED now lesson_id s))).
Proof.
  intros Hl Hdep deprecated.
  assert (Hsame : deprecated s) by (exists l, t; auto).
  pose proof Hl as Hrow. apply getLesson_row in Hrow.
  destruct Hrow as (row & Hrow & ->).
  cbn [l_deprecated_at rowToLesson] in Hdep.
  assert (Hmapped : forall (f : LessonRow -> LessonRow) id' s',
            (forall r, lr_id (f r) = lr_id r) ->
            (forall r, is_some (lr_deprecated_at r) = true ->
                       is_some (lr_deprecated_at (f r)) = true) ->
            lessons s' = map (fun r => if (lr_id r =? id')%Z then f r else r)
                             (lessons s) ->
            deprecated s').
  { intros f id' s' Hid Hkeep Hs'. unfold deprecated, getLesson. rewrite Hs'.
    rewrite (find_map_update lr_id f id' id) by exact Hid.
    rewrite Hrow. cbn [option_map].
    destruct (lr_id row =? id')%Z.
    - specialize (Hkeep row). rewrite Hdep in Hkeep. specialize (Hkeep eq_refl).
      destruct (lr_deprecated_at (f row)) as [t' |] eqn:E; [| discriminate].
      eexists _, t'. split; [reflexivity | exact E].
    - eexists _, t. split; [reflexivity | exact Hdep]. }
  assert (Hupd : forall id' u, deprecated (fst (updateLesson id' u s))).
  { intros id' u. unfold updateLesson.
    destruct (no_lesson_field u); [exact Hsame |]. cbn [fst].
    apply (Hmapped (apply_lesson_updates u) id'); [reflexivity | | reflexivity].
    intros r Hr. cbn [apply_lesson_updates lr_deprecated_at].
    now destruct (lu_deprecated_at u). }
  split; [exact Hupd |]. split; [| split; [| split; [| split; [| split; [| split]]]]].
  - intros now id'. unfold deprecateLesson. cbn [fst].
    apply (Hmapped (set_deprecated_at now) id'); reflexivity.
  - intros now [id' outcome] s' r Happ.
    destruct (getLesson s id') as [l0 |] eqn:Hl0.
    + destruct (applyLesson_effect now id' outcome s l0 Hl0) as (s1 & Happ1 & Hs1 & _).
      rewrite Happ1 in Happ. injection Happ as <- _.
      apply (Hmapped (apply_lesson_updates (applied_updates now l0 outcome)) id');
        [reflexivity | | exact Hs1].
      intros r0 Hr0. exact Hr0.
    + rewrite (applyLesson_missing now id' outcome s Hl0) in Happ. discriminate.
  - intros now outcome.
    destruct (applyLesson_effect now id outcome s (rowToLesson row) Hl)
      as (s' & Happ & _).
    eexists s', _. exact Happ.
  - intros now input. unfold deprecated, getLesson.
    rewrite recordExperience_store.
    rewrite (proj1 (lessons_detectPatterns _ _ _)). cbn [insertEpisode fst lessons
      set_episodes]. unfold insertEpisode. cbn [fst lessons set_episodes].
    exact Hsame.
  - intros now input s' r Hlearn.
    destruct (learnFromPattern_lesson _ _ _ _ _ Hlearn) as (new & pid & Hs' & _).
    unfold deprecated, getLesson. rewrite Hs'.
    rewrite (find_app_found _ _ _ _ Hrow).
    cbn [option_map]. eexists _, t. split; [reflexivity | exact Hdep].
  - intros now [lesson_id |]; [| exact Hsame]. unfold on_CLAIM_VERIFIED.
    destruct (lesson_id =? 0)%Z; [exact Hsame |].
    destruct (getLesson s lesson_id); [apply Hupd | exact Hsame].
  - intros now [lesson_id |]; [| exact Hsame]. unfold on_CLAIM_REFUTED.
    destruct (lesson_id =? 0)%Z; [exact Hsame |].
    destruct (getLesson s lesson_id); [apply Hupd | exact Hsame].
Qed.

End Updates.

Lemma deprecation_is_permanent_witness :
  exists s' r l' t',
    applyLesson 200 {| ali_lesson_id := 1; ali_outcome := success |}
      (fst (deprecateLesson 100 1 sample_lessons)) = Ok (s', r)
    /\ getLesson s' 1 = Some l'
    /\ l_deprecated_at l' = Some t'.
Proof.
  pose proof (deprecation_is_permanent (fst (deprecateLesson 100 1 sample_lessons))
                1 _ 100 eq_refl eq_refl) as H.
  cbv zeta in H. destruct H as (_ & _ & Hkeep & Hok & _).
  destruct (Hok 200%Z success) as (s' & r & Happ).
  destruct (Hkeep _ _ _ _ Happ) as (l' & t' & Hl' & Ht').
  exists s', r, l', t'. auto.
Defined.

(** ** Claims about a lesson *)

Section Claims.

Context {codec : JSON}.

Lemma getLesson_confidence_updated (now id : Z) (c : R) (s : Store) (l : Lesson) :
  getLesson s id = Some l ->
  exists l',
    getLesson (fst (updateLesson id (confidence_updates now c) s)) id = Some l'
    /\ l_initial_confidence l' = c
    /\ l_last_validated l' = now
    /\ l_times_applied l' = l_times_applied l
    /\ l_times_succeeded l' = l_times_succeeded l
    /\ l_deprecated_at l' = l_deprecated_at l
    /\ l_decay_constant l' = l_decay_constant l.
Proof.
  intros Hl. apply getLesson_row in Hl. destruct Hl as (row & Hrow & ->).
  unfold updateLesson, getLesson. cbn [no_lesson_field confidence_updates
    lu_initial_confidence is_some orb negb fst lessons set_lessons].
  rewrite (find_map_update lr_id _ id id) by reflexivity.
  rewrite Hrow. cbn [option_map]. rewrite (find_key_eq _ _ _ _ Hrow), Z.eqb_refl.
  eexists. split; [reflexivity |]. repeat split.
Qed.

(** The bodies of the two handlers. *)
Lemma claim_bodies (now : Z) (s : Store) :
  (forall id l, id <> 0%Z -> getLesson s id = Some l ->
     let c := l_initial_confidence l in
     (exists l',
        getLesson (fst (on_CLAIM_VERIFIED now (Some id) s)) id = Some l'
        /\ l_initial_confidence l' = Rmin 0.95 (c * 1.1)
        /\ l_initial_confidence l' <= 0.95
        /\ (0 <= c <= 0.95 -> c <= l_initial_confidence l')
        /\ calculateCurrentConfidence now (l_initial_confidence l')
             (l_decay_constant l') (l_last_validated l')
           = l_initial_confidence l'
        /\ l_times_applied l' = l_times_applied l
        /\ l_times_succeeded l' = l_times_succeeded l
        /\ l_deprecated_at l' = l_deprecated_at l
        /\ snd (on_CLAIM_VERIFIED now (Some id) s)
           = Some {| lv_lesson_id := id;
                     lv_previous_confidence := c;
                     lv_new_confidence := l_initial_confidence l' |})
     /\ (exists l',
           getLesson (fst (on_CLAIM_REFUTED now (Some id) s)) id = Some l'
           /\ l_initial_confidence l' = Rmax 0.1 (c * 0.7)
           /\ 0.1 <= l_initial_confidence l'
           /\ (0.1 <= c -> l_initial_confidence l' <= c)
           /\ calculateCurrentConfidence now (l_initial_confidence l')
                (l_decay_constant l') (l_last_validated l')
              = l_initial_confidence l'
           /\ l_times_applied l' = l_times_applied l
           /\ l_times_succeeded l' = l_times_succeeded l
           /\ l_deprecated_at l' = l_deprecated_at l
           /\ snd (on_CLAIM_REFUTED now (Some id) s)
              = Some {| lv_lesson_id := id;
                        lv_previous_confidence := c;
                        lv_new_confidence := l_initial_confidence l' |}))
  /\ (forall lesson_id,
        lesson_id = None \/ lesson_id = Some 0%Z
        \/ (exists id, lesson_id = Some id /\ getLesson s id = None) ->
        on_CLAIM_VERIFIED now lesson_id s = (s, None)
        /\ on_CLAIM_REFUTED now lesson_id s = (s, None)).
Proof.
  split.
  - intros id l Hid Hl c.
    unfold on_CLAIM_VERIFIED, on_CLAIM_REFUTED. rewrite Hl.
    destruct (Z.eqb_spec id 0) as [-> | _]; [contradiction |]. cbn [fst snd].
    split.
    + destruct (getLesson_confidence_updated now id (Rmin 0.95 (c * 1.1)) s l Hl)
        as (l' & Hl' & Hc & Hv & Hta & Hts & Hd & _).
      exists l'. rewrite Hc, Hv.
      split; [exact Hl' |]. split; [reflexivity |]. split; [apply Rmin_l |].
      split; [intros H; apply Rmin_glb; lra |].
      split; [apply currentConfidence_at_validation |]. auto.
    + destruct (getLesson_confidence_updated now id (Rmax 0.1 (c * 0.7)) s l Hl)
        as (l' & Hl' & Hc & Hv & Hta & Hts & Hd & _).
      exists l'. rewrite Hc, Hv.
      split; [exact Hl' |]. split; [reflexivity |]. split; [apply Rmax_l |].
      split; [intros H; apply Rmax_lub; lra |].
      split; [apply currentConfidence_at_validation |]. auto.
  - intros lesson_id [-> | [-> | (id & -> & Hnone)]]; [split; reflexivity .. |].
    unfold on_CLAIM_VERIFIED, on_CLAIM_REFUTED. rewrite Hnone.
    destruct (id =? 0)%Z; split; reflexivity.
Qed.

(** X17: on a signal as [decodeSignal] and [createSignal] build it, which
    has no [payload], the two claim handlers raise a [TypeError] at their
    first statement; on a signal whose payload names a lesson by number,
    or names none, they act as follows.  A verified claim multiplies the
    stored confidence of its lesson by 1.1 up to the cap 0.95, a refuted
    claim by 0.7 down to the floor 0.1; both validate the lesson at the
    instant of the signal, so that its current confidence is the new stored
    one, announce the previous and the new confidence, and leave the
    counters and the deprecation as they are.  Without a lesson id, with
    the id 0 or with an id that does not resolve, nothing changes and
    nothing is announced. *)
Theorem claim_handlers
  (other : json -> Store -> result (Store * option LessonValidated))
  (now : Z) (s : Store) :
  (forall built : Signal,
     handler_CLAIM_VERIFIED other now (own_properties built) s = Err TypeError
     /\ handler_CLAIM_REFUTED other now (own_properties built) s = Err TypeError)
  /\ (forall signal,
        assoc "payload" signal = None ->
        handler_CLAIM_VERIFIED other now signal s = Err TypeError
        /\ handler_CLAIM_REFUTED other now signal s = Err TypeError)
  /\ (forall signal fields lesson_id,
        assoc "payload" signal = Some (JObj fields) ->
        assoc "lesson_id" fields = option_map JNum lesson_id ->
        handler_CLAIM_VERIFIED other now signal s
        = Ok (on_CLAIM_VERIFIED now lesson_id s)
        /\ handler_CLAIM_REFUTED other now signal s
           = Ok (on_CLAIM_REFUTED now lesson_id s))
  /\ (forall id l, id <> 0%Z -> getLesson s id = Some l ->
        let c := l_initial_confidence l in
        (exists l',
           getLesson (fst (on_CLAIM_VERIFIED now (Some id) s)) id = Some l'
           /\ l_initial_confidence l' = Rmin 0.95 (c * 1.1)
           /\ l_initial_confidence l' <= 0.95
           /\ (0 <= c <= 0.95 -> c <= l_initial_confidence l')
           /\ calculateCurrentConfidence now (l_initial_confidence l')
                (l_decay_constant l') (l_last_validated l')
              = l_initial_confidence l'
           /\ l_times_applied l' = l_times_applied l
           /\ l_times_succeeded l' = l_times_succeeded l
           /\ l_deprecated_at l' = l_deprecated_at l
           /\ snd (on_CLAIM_VERIFIED now (Some id) s)
              = Some {| lv_lesson_id := id;
                        lv_previous_confidence := c;
                        lv_new_confidence := l_initial_confidence l' |})
        /\ (exists l',
              getLesson (fst (on_CLAIM_REFUTED now (Some id) s)) id = Some l'
              /\ l_initial_confidence l' = Rmax 0.1 (c * 0.7)
              /\ 0.1 <= l_initial_confidence l'
              /\ (0.1 <= c -> l_initial_confidence l' <= c)
              /\ calculateCurrentConfidence now (l_initial_confidence l')
                   (l_decay_constant l') (l_last_validated l')
                 = l_initial_confidence l'
              /\ l_times_applied l' = l_times_applied l
              /\ l_times_succeeded l' = l_times_succeeded l
              /\ l_deprecated_at l' = l_deprecated_at l
              /\ snd (on_CLAIM_REFUTED now (Some id) s)
                 = Some {| lv_lesson_id := id;
                           lv_previous_confidence := c;
                           lv_new_confidence := l_initial_confidence l' |}))
  /\ (forall lesson_id,
        lesson_id = None \/ lesson_id = Some 0%Z
        \/ (exists id, lesson_id = Some id /\ getLesson s id = None) ->
        on_CLAIM_VERIFIED now lesson_id s = (s, None)
        /\ on_CLAIM_REFUTED now lesson_id s = (s, None)).
Proof.
  destruct (claim_bodies now s) as [Hfound Hnone].
  split; [| split; [| split; [| split; [exact Hfound | exact Hnone]]]].
  - intros built. unfold handler_CLAIM_VERIFIED, handler_CLAIM_REFUTED,
      payload_lesson_id, own_properties.
    destruct (sg_data built); split; reflexivity.
  - intros signal Hp.
    unfold handler_CLAIM_VERIFIED, handler_CLAIM_REFUTED, payload_lesson_id.
    rewrite Hp. split; reflexivity.
  - intros signal fields lesson_id Hp Hid.
    unfold handler_CLAIM_VERIFIED, handler_CLAIM_REFUTED, payload_lesson_id.
    rewrite Hp, Hid. destruct lesson_id; split; reflexivity.
Qed.

End Claims.

Lemma claim_handlers_witness :
  let other (lessonId : json) (s : Store) :=
    @Ok (Store * option LessonValidated) (s, None) in
  let refuted :=
    [("payload", JObj [("sender", JStr "verifier"); ("lesson_id", JNum 1)])] in
  handler_CLAIM_REFUTED other 500 (own_properties sample_signal) sample_lessons
  = Err TypeError
  /\ handler_CLAIM_REFUTED other 500 refuted sample_lessons
     = Ok (on_CLAIM_REFUTED 500 (Some 1%Z) sample_lessons)
  /\ exists l',
       getLesson (fst (on_CLAIM_REFUTED 500 (Some 1%Z) sample_lessons)) 1 = Some l'
       /\ 0.1 <= l_initial_confidence l' <= 0.8.
Proof.
  intros other refuted.
  destruct (claim_handlers other 500 sample_lessons)
    as (Hbuilt & _ & Hpayload & Hfound & _).
  split; [apply Hbuilt |].
  split; [exact (proj2 (Hpayload refuted _ (Some 1%Z) eq_refl eq_refl)) |].
  pose proof (Hfound 1%Z (rowToLesson sample_lesson_row)) as H.
  cbv zeta in H.
  destruct H as (_ & l' & Hl' & _ & Hfloor & Hle & _); [discriminate | reflexivity |].
  exists l'. split; [exact Hl' |]. split; [exact Hfloor |].
  change 0.8 with (l_initial_confidence (rowToLesson sample_lesson_row)).
  apply Hle. simpl. lra.
Defined.

(** ** Patterns that detection triggers *)

Lemma ln_nonneg (x : R) : 1 <= x -> 0 <= ln x.
Proof.
  intros [H | <-]; [| rewrite ln_1; lra].
  left. rewrite <- ln_1. apply ln_increasing; lra.
Qed.

Lemma exp_decay_le_1 (k d : R) : 0 <= k -> 0 <= d -> 0 < exp (- k * d) <= 1.
Proof.
  intros Hk Hd. split; [apply exp_pos |].
  rewrite <- exp_0. apply exp_le_mono.
  assert (0 <= k * d) by now apply Rmult_le_pos. lra.
Qed.

Section Triggered.

Context {codec : JSON}.


(** The percentage of a description is rounded from the double product:
    23 successes of 40 print as 57, and an exact half is rounded up. *)
Lemma success_percentage_in_doubles (won lost : Episode) :
  e_outcome won = success -> e_outcome lost = failure ->
  success_percentage (repeat won 23 ++ repeat lost 17) = "57"
  /\ success_percentage (repeat won 1 ++ repeat lost 7) = "13"
  /\ success_percentage (repeat won 3) = "100".
Proof.
  intros Hwon Hlost. unfold success_percentage, count_success.
  assert (Hcount : forall n m,
            List.length (filter (fun e => Outcome_eqb (e_outcome e) success)
                           (repeat won n ++ repeat lost m)) = n).
  { intros n m. rewrite filter_app, length_app.
    replace (filter _ (repeat lost m)) with (@nil Episode).
    - rewrite <- (repeat_length won n) at 2. rewrite Nat.add_0_r. f_equal.
      apply forallb_filter_id. apply forallb_forall. intros e He.
      apply repeat_spec in He. now rewrite He, Hwon.
    - symmetry. induction m as [| m IH]; [reflexivity |].
      simpl. now rewrite Hlost. }
  rewrite <- (app_nil_r (repeat won 3)). change (@nil Episode) with (repeat lost 0).
  rewrite !Hcount, !length_app, !repeat_length.
  repeat split; vm_compute; reflexivity.
Qed.


End Triggered.

(** X19: [calculateDiscriminationWeight] rates a pattern that was never
    applied at one half; for counters with
    [0 <= timesSucceeded <= timesApplied], a frequency that is not
    negative and a pattern seen no later than now, the weight lies between
    0 and [ln(frequency + 1)], and it does not grow as time passes. *)
Theorem calculateDiscriminationWeight_range
  (now later timesSucceeded timesApplied frequency lastSeen : Z) :
  (0 <= timesSucceeded <= timesApplied)%Z ->
  (0 <= frequency)%Z ->
  (lastSeen <= now <= later)%Z ->
  0 <= calculateDiscriminationWeight now timesSucceeded timesApplied frequency lastSeen
    <= ln (IZR frequency + 1)
  /\ calculateDiscriminationWeight later timesSucceeded timesApplied frequency lastSeen
     <= calculateDiscriminationWeight now timesSucceeded timesApplied frequency lastSeen
  /\ (timesApplied = 0%Z ->
      calculateDiscriminationWeight now timesSucceeded timesApplied frequency lastSeen
      = 0.5 * ln (IZR frequency + 1)
        * exp (- PATTERN_CONFIG.decayConstant * (IZR (now - lastSeen) / day_ms))).
Proof.
  intros Hcount Hf Ht. unfold calculateDiscriminationWeight.
  set (rate := if (0 <? timesApplied)%Z
               then IZR timesSucceeded / IZR timesApplied else 0.5).
  set (fw := ln (IZR frequency + 1)).
  assert (Hrate : 0 <= rate <= 1).
  { unfold rate. destruct (Z.ltb_spec 0 timesApplied) as [Hpos |]; [| lra].
    assert (Hn : 0 < IZR timesApplied) by now apply IZR_lt.
    apply (mean_bounds 0 1); [exact Hn |].
    split; [rewrite Rmult_0_r; apply IZR_le; lia | rewrite Rmult_1_r; apply IZR_le; lia]. }
  assert (Hfw : 0 <= fw).
  { apply ln_nonneg. assert (0 <= IZR frequency) by (apply IZR_le; lia). lra. }
  assert (Hd : forall t, (lastSeen <= t)%Z -> 0 <= IZR (t - lastSeen) / day_ms).
  { intros t Hle. unfold Rdiv. apply Rmult_le_pos; [apply IZR_le; lia |].
    left. apply Rinv_0_lt_compat, day_ms_pos. }
  assert (Hk : 0 <= PATTERN_CONFIG.decayConstant)
    by (unfold PATTERN_CONFIG.decayConstant; lra).
  destruct (exp_decay_le_1 PATTERN_CONFIG.decayConstant
              (IZR (now - lastSeen) / day_ms)) as [He0 He1];
    [exact Hk | apply Hd; lia |].
  assert (Hrf : 0 <= rate * fw) by (apply Rmult_le_pos; lra).
  split; [split |]; [| | split].
  - apply Rmult_le_pos; lra.
  - apply Rle_trans with (rate * fw * 1); [apply Rmult_le_compat_l; lra |].
    rewrite Rmult_1_r. rewrite <- (Rmult_1_l fw) at 2.
    apply Rmult_le_compat_r; lra.
  - apply Rmult_le_compat_l; [exact Hrf |]. apply exp_le_mono.
    assert (Hmono : IZR (now - lastSeen) / day_ms <= IZR (later - lastSeen) / day_ms).
    { unfold Rdiv. apply Rmult_le_compat_r;
        [left; apply Rinv_0_lt_compat, day_ms_pos | apply IZR_le; lia]. }
    assert (Hprod : PATTERN_CONFIG.decayConstant * (IZR (now - lastSeen) / day_ms)
                    <= PATTERN_CONFIG.decayConstant
                       * (IZR (later - lastSeen) / day_ms))
      by now apply Rmult_le_compat_l.
    lra.
  - intros ->. unfold rate. reflexivity.
Qed.

Lemma calculateDiscriminationWeight_range_witness :
  0 <= calculateDiscriminationWeight 86400000 2 4 3 0 <= ln (IZR 3 + 1).
Proof.
  apply (calculateDiscriminationWeight_range 86400000 86400000 2 4 3 0); lia.
Defined.

(** ** The mesh protocol *)

Lemma Z_of_byte_range (b : Byte.byte) : (0 <= Z_of_byte b <= 255)%Z.
Proof.
  unfold Z_of_byte. pose proof (Byte.to_N_bounded b). lia.
Qed.

Lemma Z_of_byte_of_Z (z : Z) : Z_of_byte (byte_of_Z z) = (z mod 256)%Z.
Proof.
  unfold Z_of_byte, byte_of_Z.
  assert (Hr : (0 <= z mod 256 < 256)%Z) by (apply Z.mod_pos_bound; lia).
  destruct (Byte.of_N (Z.to_N (z mod 256))) as [b |] eqn:E.
  - apply Byte.to_of_N in E. rewrite E. lia.
  - apply Byte.of_N_None_iff in E. lia.
Qed.

Lemma be_value_snoc (l : list Byte.byte) (b : Byte.byte) :
  be_value (l ++ [b]) = (be_value l * 256 + Z_of_byte b)%Z.
Proof. unfold be_value. now rewrite fold_left_app. Qed.

Lemma be_bytes_length (width : nat) (value : Z) :
  List.length (be_bytes width value) = width.
Proof.
  revert value. induction width as [| w IH]; intros value; [reflexivity |].
  simpl. rewrite length_app, IH. simpl. lia.
Qed.

(** Reading back the bytes of a value that fits the field gives the
    value. *)
Lemma be_value_bytes (width : nat) (value : Z) :
  (0 <= value < 2 ^ (8 * Z.of_nat width))%Z ->
  be_value (be_bytes width value) = value.
Proof.
  revert value. induction width as [| w IH]; intros value Hv.
  - simpl in Hv. assert (value = 0%Z) by lia. now subst.
  - cbn [be_bytes]. rewrite be_value_snoc, Z_of_byte_of_Z, IH.
    + symmetry. rewrite Z.mul_comm. apply Z.div_mod. lia.
    + replace (8 * Z.of_nat (S w))%Z with (8 + 8 * Z.of_nat w)%Z in Hv by lia.
      rewrite Z.pow_add_r in Hv by lia. change (2 ^ 8)%Z with 256%Z in Hv.
      split; [apply Z.div_pos; lia |].
      apply Z.div_lt_upper_bound; lia.
Qed.

Lemma writeUIntBE_some (width : nat) (value : Z) :
  (0 <= value < 2 ^ (8 * Z.of_nat width))%Z ->
  writeUIntBE width value = Some (be_bytes width value).
Proof.
  intros [H0 H1]. unfold writeUIntBE.
  apply Z.leb_le in H0. apply Z.ltb_lt in H1. now rewrite H0, H1.
Qed.

Lemma writeUIntBE_none (width : nat) (value : Z) :
  writeUIntBE width value = None <->
  ~ (0 <= value < 2 ^ (8 * Z.of_nat width))%Z.
Proof.
  unfold writeUIntBE.
  destruct (Z.leb_spec 0 value) as [Ha | Ha],
           (Z.ltb_spec value (2 ^ (8 * Z.of_nat width))) as [Hb | Hb];
    cbn [andb]; split; intros Hn; try discriminate; try reflexivity; lia.
Qed.

Lemma slice_middle (before field after : list Byte.byte) :
  slice (before ++ field ++ after) (List.length before)
        (List.length before + List.length field) = field.
Proof.
  unfold slice. rewrite skipn_app, skipn_all, Nat.sub_diag. simpl.
  replace (List.length before + List.length field - List.length before)%nat
    with (List.length field) by lia.
  rewrite firstn_app, firstn_all, Nat.sub_diag. simpl. apply app_nil_r.
Qed.

Lemma readUIntBE_field (width : nat) (value : Z) (before after : list Byte.byte) :
  (0 <= value < 2 ^ (8 * Z.of_nat width))%Z ->
  readUIntBE width (before ++ be_bytes width value ++ after) (List.length before)
  = Some value.
Proof.
  intros Hv. unfold readUIntBE.
  rewrite !length_app, be_bytes_length.
  destruct (Nat.leb_spec (List.length before + width)
              (List.length before + (width + List.length after))) as [_ | H]; [| lia].
  rewrite <- (be_bytes_length width value) at 2.
  rewrite slice_middle. now rewrite be_value_bytes.
Qed.

Lemma slice_app_within (buffer extra : list Byte.byte) (start stop : nat) :
  (stop <= List.length buffer)%nat ->
  slice (buffer ++ extra) start stop = slice buffer start stop.
Proof.
  intros H. unfold slice.
  destruct (Nat.le_gt_cases start (List.length buffer)) as [Hs | Hs].
  - rewrite skipn_app. replace (start - List.length buffer)%nat with O by lia.
    simpl. rewrite firstn_app, length_skipn.
    replace (stop - start - (List.length buffer - start))%nat with O by lia.
    simpl. apply app_nil_r.
  - now replace (stop - start)%nat with O by lia.
Qed.

Lemma Number_of_BigInt_safe (b : Z) :
  (0 <= b < 2 ^ 53)%Z -> Number_of_BigInt b = b.
Proof.
  intros Hb. unfold Number_of_BigInt.
  destruct (Z.ltb_spec (Z.log2 b) 53) as [_ | H]; [reflexivity |].
  exfalso. destruct (Z.eq_dec b 0) as [-> | Hne]; [simpl in H; lia |].
  assert (Hlog : (Z.log2 b < 53)%Z) by (apply Z.log2_lt_pow2; lia). lia.
Qed.

Lemma readUIntBE_at (width : nat) (value : Z) (before after buffer : list Byte.byte)
  (offset : nat) :
  buffer = (before ++ be_bytes width value ++ after)%list ->
  offset = List.length before ->
  (0 <= value < 2 ^ (8 * Z.of_nat width))%Z ->
  readUIntBE width buffer offset = Some value.
Proof. intros -> -> Hv. now apply readUIntBE_field. Qed.

Lemma slice_at (before field after buffer : list Byte.byte) (start stop : nat) :
  buffer = (before ++ field ++ after)%list ->
  start = List.length before ->
  stop = (start + List.length field)%nat ->
  slice buffer start stop = field.
Proof. intros -> -> ->. apply slice_middle. Qed.

Section ProtocolFacts.

Context {codec : JSON} {syntax : JSONSyntax} {utf8 : UTF8}.

(** X20: decoding what [encodeSignal] wrote gives the signal back, with the
    name of its code: for a code that fits one byte, a sender of at most
    255 bytes that the platform decodes to itself, a timestamp from 0 up
    to [2^53], and a payload that is absent or is a truthy value with a
    text of fewer than [2^32] bytes that the platform reads back.  The
    buffer is 14 bytes longer than sender and payload together. *)
Theorem decodeSignal_encodeSignal (signal : Signal) :
  let senderBuffer := Buffer_from (sg_sender signal) in
  let dataBuffer :=
    match sg_data signal with
    | Some data => Buffer_from (JSON_stringify data)
    | None => []
    end in
  (0 <= sg_code signal <= 255)%Z ->
  (List.length senderBuffer <= 255)%nat ->
  Buffer_toString senderBuffer = sg_sender signal ->
  (0 <= sg_timestamp signal < 2 ^ 53)%Z ->
  match sg_data signal with
  | Some data =>
      truthy data = true
      /\ (0 < Z.of_nat (List.length dataBuffer) < 2 ^ 32)%Z
      /\ Buffer_toString dataBuffer = JSON_stringify data
      /\ JSON_accepts (JSON_stringify data) = true
      /\ JSON_parse (JSON_stringify data) = data
  | None => True
  end ->
  exists buffer,
    encodeSignal signal = Some buffer
    /\ List.length buffer
       = (14 + List.length senderBuffer + List.length dataBuffer)%nat
    /\ decodeSignal buffer
       = Some {| sg_code := sg_code signal;
                 sg_name := getSignalName (sg_code signal);
                 sg_sender := sg_sender signal;
                 sg_timestamp := sg_timestamp signal;
                 sg_data := sg_data signal |}.
Proof.
  intros senderBuffer dataBuffer Hcode Hsender Hutf Htime Hdata.
  set (code := be_bytes 1 (sg_code signal)).
  set (senderLen := be_bytes 1 (Z.of_nat (List.length senderBuffer))).
  set (timestamp := be_bytes 8 (sg_timestamp signal)).
  set (dataLen := be_bytes 4 (Z.of_nat (List.length dataBuffer))).
  set (buffer := (code ++ senderLen ++ senderBuffer ++ timestamp ++ dataLen
                  ++ dataBuffer)%list).
  assert (Hsl : (0 <= Z.of_nat (List.length senderBuffer) < 2 ^ (8 * Z.of_nat 1))%Z).
  { change (2 ^ (8 * Z.of_nat 1))%Z with 256%Z. lia. }
  assert (Hc : (0 <= sg_code signal < 2 ^ (8 * Z.of_nat 1))%Z).
  { change (2 ^ (8 * Z.of_nat 1))%Z with 256%Z. lia. }
  assert (Ht : (0 <= sg_timestamp signal < 2 ^ (8 * Z.of_nat 8))%Z).
  { change (2 ^ (8 * Z.of_nat 8))%Z with (2 ^ 64)%Z.
    assert ((2 ^ 53 < 2 ^ 64)%Z) by (apply Z.pow_lt_mono_r; lia). lia. }
  assert (Hdl : (0 <= Z.of_nat (List.length dataBuffer) < 2 ^ (8 * Z.of_nat 4))%Z).
  { change (2 ^ (8 * Z.of_nat 4))%Z with (2 ^ 32)%Z.
    unfold dataBuffer in *. destruct (sg_data signal); [lia |].
    simpl. assert ((0 < 2 ^ 32)%Z) by (apply Z.pow_pos_nonneg; lia). lia. }
  assert (Hencoded : encodeSignal signal = Some buffer).
  { unfold encodeSignal. fold senderBuffer.
    replace (match sg_data signal with
             | Some data =>
                 if truthy data then Buffer_from (JSON_stringify data) else []
             | None => []
             end) with dataBuffer.
    - rewrite !writeUIntBE_some by assumption. reflexivity.
    - unfold dataBuffer. destruct (sg_data signal) as [data |]; [| reflexivity].
      destruct Hdata as (-> & _). reflexivity. }
  exists buffer. split; [exact Hencoded |]. split.
  { unfold buffer. rewrite !length_app. unfold code, senderLen, timestamp, dataLen.
    rewrite !be_bytes_length. lia. }
  unfold decodeSignal.
  rewrite (readUIntBE_at 1 (sg_code signal) [] 
             (senderLen ++ senderBuffer ++ timestamp ++ dataLen ++ dataBuffer)
             buffer 0 eq_refl eq_refl Hc).
  rewrite (readUIntBE_at 1 (Z.of_nat (List.length senderBuffer)) code
             (senderBuffer ++ timestamp ++ dataLen ++ dataBuffer)
             buffer 1 eq_refl eq_refl Hsl).
  rewrite Nat2Z.id.
  rewrite (slice_at (code ++ senderLen) senderBuffer
             (timestamp ++ dataLen ++ dataBuffer) buffer 2
             (2 + List.length senderBuffer));
    [| unfold buffer; now rewrite <- !app_assoc | reflexivity | reflexivity].
  rewrite (readUIntBE_at 8 (sg_timestamp signal) (code ++ senderLen ++ senderBuffer)
             (dataLen ++ dataBuffer) buffer (2 + List.length senderBuffer));
    [| unfold buffer; now rewrite <- !app_assoc
     | rewrite !length_app; reflexivity | exact Ht].
  rewrite (readUIntBE_at 4 (Z.of_nat (List.length dataBuffer))
             (code ++ senderLen ++ senderBuffer ++ timestamp) dataBuffer buffer
             (2 + List.length senderBuffer + 8));
    [| unfold buffer; now rewrite <- !app_assoc
     | rewrite !length_app; unfold code, senderLen, timestamp;
       rewrite !be_bytes_length; simpl; lia
     | exact Hdl].
  rewrite Hutf, Number_of_BigInt_safe by exact Htime.
  rewrite Nat2Z.id.
  rewrite (slice_at (code ++ senderLen ++ senderBuffer ++ timestamp ++ dataLen)
             dataBuffer [] buffer (2 + List.length senderBuffer + 12)
             (2 + List.length senderBuffer + 12 + List.length dataBuffer));
    [| unfold buffer; now rewrite <- !app_assoc, app_nil_r
     | rewrite !length_app; unfold code, senderLen, timestamp, dataLen;
       rewrite !be_bytes_length; simpl; lia
     | reflexivity].
  f_equal. f_equal.
  unfold dataBuffer in *. destruct (sg_data signal) as [data |].
  - destruct Hdata as (_ & Hlen & Hback & Hacc & Hparse).
    destruct (Z.ltb_spec 0 (Z.of_nat (List.length (Buffer_from (JSON_stringify data)))))
      as [_ | H]; [| lia].
    now rewrite Hback, Hacc, Hparse.
  - reflexivity.
Qed.

End ProtocolFacts.

Lemma decodeSignal_encodeSignal_witness :
  exists buffer,
    encodeSignal sample_signal = Some buffer
    /\ decodeSignal buffer = Some sample_signal.
Proof.
  destruct (decodeSignal_encodeSignal sample_signal) as (buffer & He & _ & Hd).
  - vm_compute. split; discriminate.
  - vm_compute. repeat constructor.
  - apply string_of_list_byte_of_string.
  - vm_compute. split; [discriminate | reflexivity].
  - split; [reflexivity |]. split; [vm_compute; split; reflexivity |].
    split; [apply string_of_list_byte_of_string |].
    split; vm_compute; reflexivity.
  - exists buffer. split; [exact He | exact Hd].
Defined.

Lemma readUIntBE_app_within (width : nat) (buffer extra : list Byte.byte) (offset : nat) :
  (offset + width <= List.length buffer)%nat ->
  readUIntBE width (buffer ++ extra) offset = readUIntBE width buffer offset.
Proof.
  intros H. unfold readUIntBE. rewrite length_app.
  destruct (Nat.leb_spec (offset + width) (List.length buffer)) as [_ | H']; [| lia].
  destruct (Nat.leb_spec (offset + width) (List.length buffer + List.length extra))
    as [_ | H']; [| lia].
  now rewrite slice_app_within.
Qed.

Lemma be_value_range (bytes : list Byte.byte) : (0 <= be_value bytes)%Z.
Proof.
  unfold be_value.
  assert (H : forall acc, (0 <= acc)%Z ->
            (0 <= fold_left (fun a b => (a * 256 + Z_of_byte b)%Z) bytes acc)%Z).
  { induction bytes as [| b bytes IH]; intros acc Hacc; [exact Hacc |].
    simpl. apply IH. pose proof (Z_of_byte_range b). lia. }
  apply H. lia.
Qed.

Section Decoding.

Context {codec : JSON} {syntax : JSONSyntax} {utf8 : UTF8}.

Lemma readUIntBE_range (width : nat) (buffer : list Byte.byte) (offset : nat) (v : Z) :
  readUIntBE width buffer offset = Some v ->
  (0 <= v)%Z /\ (offset + width <= List.length buffer)%nat.
Proof.
  unfold readUIntBE.
  destruct (Nat.leb_spec (offset + width) (List.length buffer)); [| discriminate].
  intros [= <-]. split; [apply be_value_range | assumption].
Qed.

(** Bytes after the announced payload are not read. *)
Lemma decodeSignal_app (buffer extra : list Byte.byte) (dataLen : Z) :
  let senderLen := Z.to_nat (Z_of_byte (nth 1 buffer Byte.x00)) in
  readUIntBE 4 buffer (2 + senderLen + 8) = Some dataLen ->
  (14 + senderLen + Z.to_nat dataLen <= List.length buffer)%nat ->
  decodeSignal (buffer ++ extra) = decodeSignal buffer.
Proof.
  intros senderLen Hdl Hall.
  destruct (readUIntBE_range _ _ _ _ Hdl) as [_ Hlong].
  destruct buffer as [| code [| len rest]]; [simpl in Hlong; lia .. |].
  assert (Hlen : readUIntBE 1 (code :: len :: rest) 1 = Some (Z_of_byte len))
    by reflexivity.
  change (nth 1 (code :: len :: rest) Byte.x00) with len in senderLen.
  remember (code :: len :: rest) as buffer eqn:Hb.
  assert (H2 : (2 <= List.length buffer)%nat) by (subst buffer; simpl; lia).
  unfold decodeSignal.
  rewrite !(readUIntBE_app_within 1) by lia.
  destruct (readUIntBE 1 buffer 0) as [c |]; [| reflexivity].
  rewrite Hlen. fold senderLen.
  rewrite !readUIntBE_app_within by lia.
  destruct (readUIntBE 8 buffer (2 + senderLen)) as [ts |]; [| reflexivity].
  rewrite Hdl.
  rewrite !slice_app_within by lia.
  reflexivity.
Qed.

(** X21: [decodeSignal] raises exactly on a buffer that is shorter than the
    14 bytes of the fixed fields plus the announced length of the sender.
    On any other buffer it returns a signal whose code is the first byte
    and whose name is the name of that code; a payload is present exactly
    when the announced payload length is positive, it is read from the
    bytes that are there even when they are fewer than announced, and
    bytes that follow the announced payload do not change the result. *)
Theorem decodeSignal_total (buffer : list Byte.byte) :
  let senderLen := Z.to_nat (Z_of_byte (nth 1 buffer Byte.x00)) in
  (decodeSignal buffer = None <-> (List.length buffer < 14 + senderLen)%nat)
  /\ (forall signal, decodeSignal buffer = Some signal ->
        sg_code signal = Z_of_byte (nth 0 buffer Byte.x00)
        /\ (0 <= sg_code signal <= 255)%Z
        /\ sg_name signal = getSignalName (sg_code signal)
        /\ sg_sender signal = Buffer_toString (slice buffer 2 (2 + senderLen))
        /\ exists dataLen,
             readUIntBE 4 buffer (2 + senderLen + 8) = Some dataLen
             /\ (sg_data signal = None <-> dataLen = 0%Z)
             /\ forall extra,
                  (14 + senderLen + Z.to_nat dataLen <= List.length buffer)%nat ->
                  decodeSignal (buffer ++ extra) = Some signal).
Proof.
  intros senderLen.
  pose proof (decodeSignal_app buffer) as Happ. cbv zeta in Happ. fold senderLen in Happ.
  destruct buffer as [| code [| len rest]].
  - split; [split; [simpl; lia | reflexivity] | discriminate].
  - split; [split; [simpl; lia | reflexivity] | discriminate].
  - assert (Hcode : readUIntBE 1 (code :: len :: rest) 0 = Some (Z_of_byte code))
      by reflexivity.
    assert (Hlen : readUIntBE 1 (code :: len :: rest) 1 = Some (Z_of_byte len))
      by reflexivity.
    change (nth 1 (code :: len :: rest) Byte.x00) with len in senderLen.
    change (nth 0 (code :: len :: rest) Byte.x00) with code.
    set (buffer := code :: len :: rest) in *.
    split.
    + unfold decodeSignal. rewrite Hcode, Hlen. fold senderLen.
      unfold readUIntBE.
      destruct (Nat.leb_spec (2 + senderLen + 8) (List.length buffer)) as [H8 | H8];
        [| split; [lia | reflexivity]].
      destruct (Nat.leb_spec (2 + senderLen + 8 + 4) (List.length buffer))
        as [H12 | H12]; [| split; [lia | reflexivity]].
      split; [discriminate | lia].
    + intros signal Hdec. pose proof Hdec as Hdec'.
      unfold decodeSignal in Hdec'. rewrite Hcode, Hlen in Hdec'.
      fold senderLen in Hdec'.
      destruct (readUIntBE 8 buffer (2 + senderLen)) as [ts |]; [| discriminate].
      destruct (readUIntBE 4 buffer (2 + senderLen + 8)) as [dataLen |] eqn:Hdl;
        [| discriminate].
      destruct (readUIntBE_range _ _ _ _ Hdl) as [Hpos _].
      injection Hdec' as <-. cbn [sg_code sg_name sg_sender sg_data].
      split; [reflexivity |]. split; [apply Z_of_byte_range |].
      split; [reflexivity |]. split; [reflexivity |].
      exists dataLen. split; [reflexivity |]. split.
      * destruct (Z.ltb_spec 0 dataLen); split; intros;
          try discriminate; try reflexivity; lia.
      * intros extra Hall. rewrite (Happ extra dataLen eq_refl Hall). exact Hdec.
Qed.

(** X22: [encodeSignal] raises exactly when a field does not fit: a code
    outside one byte, a sender of more than 255 bytes, a timestamp outside
    [0, 2^64), or a payload of [2^32] bytes or more. *)
Theorem encodeSignal_range (signal : Signal) :
  let senderBuffer := Buffer_from (sg_sender signal) in
  let dataBuffer :=
    match sg_data signal with
    | Some data => if truthy data then Buffer_from (JSON_stringify data) else []
    | None => []
    end in
  encodeSignal signal = None <->
  ~ (0 <= sg_code signal <= 255)%Z
  \/ (255 < List.length senderBuffer)%nat
  \/ ~ (0 <= sg_timestamp signal < 2 ^ 64)%Z
  \/ (2 ^ 32 <= Z.of_nat (List.length dataBuffer))%Z.
Proof.
  intros senderBuffer dataBuffer. unfold encodeSignal.
  fold senderBuffer. fold dataBuffer.
  pose proof (writeUIntBE_none 1 (sg_code signal)) as Hc.
  pose proof (writeUIntBE_none 1 (Z.of_nat (List.length senderBuffer))) as Hs.
  pose proof (writeUIntBE_none 8 (sg_timestamp signal)) as Ht.
  pose proof (writeUIntBE_none 4 (Z.of_nat (List.length dataBuffer))) as Hd.
  change (2 ^ (8 * Z.of_nat 1))%Z with 256%Z in Hc, Hs.
  change (2 ^ (8 * Z.of_nat 8))%Z with (2 ^ 64)%Z in Ht.
  change (2 ^ (8 * Z.of_nat 4))%Z with (2 ^ 32)%Z in Hd.
  destruct (writeUIntBE 1 (sg_code signal)) as [c |].
  2: { split; [intros _ | reflexivity]. left.
       pose proof (proj1 Hc eq_refl). lia. }
  destruct (writeUIntBE 1 (Z.of_nat (List.length senderBuffer))) as [l |].
  2: { split; [intros _ | reflexivity]. right. left.
       pose proof (proj1 Hs eq_refl). lia. }
  destruct (writeUIntBE 8 (sg_timestamp signal)) as [t |].
  2: { split; [intros _ | reflexivity]. right. right. left.
       exact (proj1 Ht eq_refl). }
  destruct (writeUIntBE 4 (Z.of_nat (List.length dataBuffer))) as [d |].
  2: { split; [intros _ | reflexivity]. right. right. right.
       pose proof (proj1 Hd eq_refl). lia. }
  split; [discriminate |].
  intros [H | [H | [H | H]]]; exfalso.
  - assert (Hn : ~ (0 <= sg_code signal < 256)%Z) by lia.
    apply Hc in Hn. discriminate.
  - assert (Hn : ~ (0 <= Z.of_nat (List.length senderBuffer) < 256)%Z) by lia.
    apply Hs in Hn. discriminate.
  - apply Ht in H. discriminate.
  - assert (Hn : ~ (0 <= Z.of_nat (List.length dataBuffer) < 2 ^ 32)%Z) by lia.
    apply Hd in Hn. discriminate.
Qed.

End Decoding.

(** ** The tumbler *)

Lemma list_includes_In (x : string) (l : list string) :
  list_includes x l = true <-> In x l.
Proof.
  unfold list_includes. rewrite existsb_exists. split.
  - intros (y & Hy & E). apply String.eqb_eq in E. now subst.
  - intros H. exists x. split; [exact H | apply String.eqb_refl].
Qed.

Lemma list_includes_false (x : string) (l : list string) :
  list_includes x l = false <-> ~ In x l.
Proof.
  rewrite <- list_includes_In. destruct (list_includes x l); split; congruence.
Qed.

Lemma remove_first_other (x y : string) (l : list string) :
  y <> x -> (In y (remove_first x l) <-> In y l).
Proof.
  intros Hne. induction l as [| z l IH]; [reflexivity |].
  simpl. destruct (String.eqb_spec z x) as [-> | Hz].
  - split; [now right | intros [E | H]; [congruence | exact H]].
  - simpl. now rewrite IH.
Qed.

Lemma remove_first_subset (x y : string) (l : list string) :
  In y (remove_first x l) -> In y l.
Proof.
  induction l as [| z l IH]; [trivial |].
  simpl. destruct (z =? x)%string; [now right |].
  intros [E | H]; [now left | right; now apply IH].
Qed.

Lemma remove_first_NoDup (x : string) (l : list string) :
  NoDup l -> NoDup (remove_first x l) /\ ~ In x (remove_first x l).
Proof.
  induction 1 as [| z l Hz Hl IH]; [split; [constructor | intros []] |].
  simpl. destruct (String.eqb_spec z x) as [-> | Hne].
  - split; assumption.
  - destruct IH as [IH1 IH2]. split.
    + constructor; [| exact IH1]. intros H. apply Hz. eapply remove_first_subset, H.
    + intros [E | H]; [congruence | now apply IH2].
Qed.

(** What the configuration does with the signals of one name. *)
Lemma tumbler_names (config : TumblerConfig) (name : string) :
  name_allowed default_tumbler_config name = false
  /\ (tc_mode config = "whitelist" ->
      (name_allowed config name = true <-> In name (getWhitelist config))
      /\ name_allowed (addToWhitelist name config) name = true
      /\ (forall added other,
            name_allowed config other = true ->
            name_allowed (addToWhitelist added config) other = true)
      /\ (forall removed,
            removed <> name ->
            name_allowed (removeFromWhitelist removed config) name
            = name_allowed config name)
      /\ (NoDup (getWhitelist config) ->
          name_allowed (removeFromWhitelist name config) name = false))
  /\ (NoDup (getWhitelist config) ->
      forall n,
        NoDup (getWhitelist (addToWhitelist n config))
        /\ NoDup (getWhitelist (removeFromWhitelist n config))
        /\ ~ In n (getWhitelist (removeFromWhitelist n config)))
  /\ (forall n, In n (getWhitelist (addToWhitelist n config))
                /\ addToWhitelist n (addToWhitelist n config) = addToWhitelist n config)
  /\ (tc_mode config = "blacklist" ->
      (name_allowed config name = false <->
       exists blacklist, tc_blacklist config = Some blacklist /\ In name blacklist))
  /\ (tc_mode config <> "whitelist" -> tc_mode config <> "blacklist" ->
      name_allowed config name = true).
Proof.
  assert (Hadd : forall n, In n (getWhitelist (addToWhitelist n config))).
  { intros n. unfold addToWhitelist, getWhitelist at 1. cbn [tc_whitelist].
    destruct (list_includes n (getWhitelist config)) eqn:E.
    - now apply list_includes_In.
    - apply in_or_app. right. now left. }
  split; [reflexivity |]. split; [| split; [| split; [| split]]].
  - intros Hmode.
    assert (Hallowed : forall c t, tc_mode c = "whitelist" ->
              name_allowed c t = list_includes t (getWhitelist c)).
    { intros c t Hc. unfold name_allowed, getWhitelist. rewrite Hc. simpl.
      now destruct (tc_whitelist c). }
    split; [rewrite Hallowed by exact Hmode; apply list_includes_In |].
    split; [| split; [| split]].
    + rewrite Hallowed by exact Hmode. apply list_includes_In, Hadd.
    + intros added other Hother.
      rewrite Hallowed in * by exact Hmode.
      apply list_includes_In in Hother. apply list_includes_In.
      unfold addToWhitelist, getWhitelist at 1. cbn [tc_whitelist].
      destruct (list_includes added (getWhitelist config)); [exact Hother |].
      apply in_or_app. now left.
    + intros removed Hne. rewrite !Hallowed by exact Hmode.
      assert (Hiff : In name (getWhitelist (removeFromWhitelist removed config))
                     <-> In name (getWhitelist config)).
      { unfold removeFromWhitelist, getWhitelist. cbn [tc_whitelist].
        destruct (tc_whitelist config) as [l |]; [| reflexivity].
        simpl. apply remove_first_other. congruence. }
      destruct (list_includes name (getWhitelist config)) eqn:E.
      * apply list_includes_In. apply Hiff. now apply list_includes_In.
      * apply list_includes_false. rewrite Hiff. now apply list_includes_false.
    + intros Hnodup. rewrite Hallowed by exact Hmode.
      apply list_includes_false.
      unfold removeFromWhitelist, getWhitelist in *. cbn [tc_whitelist].
      destruct (tc_whitelist config) as [l |]; [| intros []].
      simpl. now apply remove_first_NoDup.
  - intros Hnodup n. split; [| split].
    + unfold addToWhitelist, getWhitelist at 1. cbn [tc_whitelist].
      destruct (list_includes n (getWhitelist config)) eqn:E; [exact Hnodup |].
      apply list_includes_false in E.
      apply NoDup_snoc; assumption.
    + unfold removeFromWhitelist, getWhitelist in *. cbn [tc_whitelist].
      destruct (tc_whitelist config) as [l |]; [| constructor].
      simpl. now apply remove_first_NoDup.
    + unfold removeFromWhitelist, getWhitelist in *. cbn [tc_whitelist].
      destruct (tc_whitelist config) as [l |]; [| intros []].
      simpl. now apply remove_first_NoDup.
  - intros n. split; [apply Hadd |].
    specialize (Hadd n). apply list_includes_In in Hadd.
    unfold addToWhitelist at 1. rewrite Hadd.
    unfold addToWhitelist, getWhitelist. cbn [tc_mode tc_whitelist tc_blacklist].
    reflexivity.
  - intros Hmode. unfold name_allowed. rewrite Hmode. simpl.
    destruct (tc_blacklist config) as [l |]; simpl.
    + destruct (list_includes name l) eqn:E; simpl.
      * split; [intros _ | reflexivity]. exists l. split; [reflexivity |].
        now apply list_includes_In.
      * split; [discriminate |]. intros (l' & [= <-] & Hin).
        apply list_includes_In in Hin. congruence.
    + split; [discriminate | intros (l' & H & _); discriminate].
  - intros Hw Hb. unfold name_allowed.
    destruct (String.eqb_spec (tc_mode config) "whitelist"); [contradiction |].
    destruct (String.eqb_spec (tc_mode config) "blacklist"); [contradiction |].
    reflexivity.
Qed.

(** X23: on a signal as [decodeSignal] and [createSignal] build it, which
    has no [signalType], [isSignalAllowed] raises a [TypeError], whatever
    the configuration.  On a signal whose [signalType] is a number it
    answers by the name of that type: under the default configuration no
    signal passes; in whitelist mode a signal passes exactly when its name
    is listed: it passes once [addToWhitelist] has been given its name,
    adding a name blocks nothing that passed, and removing a name leaves
    the signals of every other name as they were.  [addToWhitelist] keeps
    a list without duplicates free of them, and from such a list
    [removeFromWhitelist] removes the name altogether, so that its signals
    are blocked; in blacklist mode a signal passes exactly when its name
    is not listed, and in any other mode every signal passes. *)
Theorem tumbler_whitelist
  (config : TumblerConfig) (signal : list (string * json)) (signalType : Z) :
  let name := getSignalName signalType in
  (forall (built : Signal) c,
     isSignalAllowed c (own_properties built) = Err TypeError)
  /\ (assoc "signalType" signal = None ->
      isSignalAllowed config signal = Err TypeError)
  /\ (assoc "signalType" signal = Some (JNum signalType) ->
      isSignalAllowed default_tumbler_config signal = Ok false
      /\ (tc_mode config = "whitelist" ->
          (isSignalAllowed config signal = Ok true <-> In name (getWhitelist config))
          /\ isSignalAllowed (addToWhitelist name config) signal = Ok true
          /\ (forall added other,
                isSignalAllowed config other = Ok true ->
                isSignalAllowed (addToWhitelist added config) other = Ok true)
          /\ (forall removed,
                removed <> name ->
                isSignalAllowed (removeFromWhitelist removed config) signal
                = isSignalAllowed config signal)
          /\ (NoDup (getWhitelist config) ->
              isSignalAllowed (removeFromWhitelist name config) signal = Ok false))
      /\ (tc_mode config = "blacklist" ->
          (isSignalAllowed config signal = Ok false <->
           exists blacklist,
             tc_blacklist config = Some blacklist /\ In name blacklist))
      /\ (tc_mode config <> "whitelist" -> tc_mode config <> "blacklist" ->
          isSignalAllowed config signal = Ok true))
  /\ (NoDup (getWhitelist config) ->
      forall n,
        NoDup (getWhitelist (addToWhitelist n config))
        /\ NoDup (getWhitelist (removeFromWhitelist n config))
        /\ ~ In n (getWhitelist (removeFromWhitelist n config)))
  /\ (forall n, In n (getWhitelist (addToWhitelist n config))
                /\ addToWhitelist n (addToWhitelist n config) = addToWhitelist n config).
Proof.
  intros name.
  destruct (tumbler_names config name)
    as (Hdefault & Hwhite & Hnodup & Hadd & Hblack & Hother).
  split; [| split; [| split; [| split; [exact Hnodup | exact Hadd]]]].
  - intros built c. unfold isSignalAllowed, own_properties.
    destruct (sg_data built); reflexivity.
  - intros Hnone. unfold isSignalAllowed. now rewrite Hnone.
  - intros Htype.
    assert (Hallowed : forall c, isSignalAllowed c signal = Ok (name_allowed c name)).
    { intros c. unfold isSignalAllowed. now rewrite Htype. }
    assert (Hinj : forall a b : bool, @Ok bool a = Ok b <-> a = b).
    { intros a b. split; [now intros [= ->] | now intros ->]. }
    rewrite !Hallowed. split; [now rewrite Hdefault |].
    split; [| split].
    + intros Hmode. destruct (Hwhite Hmode) as (Hiff & Hlisted & Hmore & Hless & Hgone).
      rewrite ?Hallowed, Hinj. split; [exact Hiff |].
      split; [now rewrite Hlisted |]. split; [| split].
      * intros added other Hpass. unfold isSignalAllowed in *.
        destruct (getSignalName_of (assoc "signalType" other)) as [n | e];
          [| discriminate].
        apply Hinj in Hpass. apply Hinj.
        exact (proj1 (proj2 (proj2 (proj1 (proj2 (tumbler_names config n)) Hmode)))
                 added n Hpass).
      * intros removed Hne. rewrite ?Hallowed. now rewrite Hless.
      * intros Hnd. rewrite ?Hallowed. now rewrite Hgone.
    + intros Hmode. rewrite Hinj. now apply Hblack.
    + intros Hw Hb. now rewrite Hother.
Qed.

Lemma tumbler_whitelist_witness :
  let signal := [("signalType", JNum 0); ("payload", JObj [])] in
  let listed := addToWhitelist (getSignalName 0) default_tumbler_config in
  isSignalAllowed listed (own_properties sample_signal) = Err TypeError
  /\ isSignalAllowed listed signal = Ok true
  /\ isSignalAllowed (removeFromWhitelist (getSignalName 0) listed) signal = Ok false.
Proof.
  intros signal listed. split; [| split].
  - exact (proj1 (tumbler_whitelist listed signal 0) sample_signal listed).
  - destruct (proj1 (proj2 (proj1 (proj2 (proj2
                (tumbler_whitelist default_tumbler_config signal 0))) eq_refl))
                eq_refl)
      as (_ & Hadd & _).
    exact Hadd.
  - destruct (proj1 (proj2 (proj1 (proj2 (proj2
                (tumbler_whitelist listed signal 0))) eq_refl)) eq_refl)
      as (_ & _ & _ & _ & Hremove).
    apply Hremove. repeat constructor. intros [].
Defined.

(** ** Trace propagation *)

Lemma split_on_nonempty (sep : ascii) (text : string) : split_on sep text <> [].
Proof.
  destruct text as [| c rest]; simpl; [discriminate |].
  destruct (Ascii.eqb c sep); [discriminate |].
  destruct (split_on sep rest); discriminate.
Qed.

(** Splitting is a homomorphism: the separator between two texts starts a
    new part. *)
Lemma split_on_app (sep : ascii) (a b : string) :
  split_on sep (a ++ String sep b) = (split_on sep a ++ split_on sep b)%list.
Proof.
  induction a as [| c a IH]; simpl.
  - now rewrite Ascii.eqb_refl.
  - destruct (Ascii.eqb c sep); [now rewrite IH |].
    rewrite IH. pose proof (split_on_nonempty sep a) as Hne.
    destruct (split_on sep a) as [| part parts]; [contradiction | reflexivity].
Qed.

Lemma split_on_length (sep : ascii) (text : string) :
  List.length (split_on sep text)
  = S (count_occ Ascii.ascii_dec (list_ascii_of_string text) sep).
Proof.
  induction text as [| c rest IH]; [reflexivity |].
  simpl. destruct (Ascii.eqb_spec c sep) as [-> | Hne].
  - destruct (Ascii.ascii_dec sep sep); [| contradiction]. simpl. now rewrite IH.
  - destruct (Ascii.ascii_dec c sep); [contradiction |].
    pose proof (split_on_nonempty sep rest) as Hnil.
    destruct (split_on sep rest); [contradiction |]. simpl in *. exact IH.
Qed.

(** The first part is the whole text exactly when the text has no
    separator. *)
Lemma split_on_first (sep : ascii) (text : string) :
  exists first rest,
    split_on sep text = first :: rest
    /\ (String.length first <= String.length text)%nat
    /\ (~ In sep (list_ascii_of_string text) -> first = text /\ rest = [])
    /\ (In sep (list_ascii_of_string text) ->
        (String.length first < String.length text)%nat).
Proof.
  induction text as [| c text IH]; simpl.
  - exists EmptyString, []. split; [reflexivity |]. split; [simpl; lia |].
    split; [intros _; split; reflexivity | intros []].
  - destruct IH as (first & rest & Hs & Hle & Hno & Hyes).
    destruct (Ascii.eqb_spec c sep) as [-> | Hne].
    + exists EmptyString, (split_on sep text). split; [reflexivity |].
      split; [simpl; lia |]. split; [intros H; exfalso; apply H; now left |].
      intros _. simpl. lia.
    + rewrite Hs. exists (String c first), rest. split; [reflexivity |].
      split; [simpl; lia |]. split.
      * intros H. destruct Hno as [-> ->]; [| split; reflexivity].
        intros Hin. apply H. now right.
      * intros [E | Hin]; [congruence |]. specialize (Hyes Hin). simpl. lia.
Qed.

(** X24: [parseTraceparent] reads back the trace id and the span id that
    [formatTraceparent] wrote exactly when neither of them contains a
    hyphen; it never rejects a header that [formatTraceparent] wrote, and
    it rejects a header exactly when the header has fewer than two
    hyphens. *)
Theorem parseTraceparent_formatTraceparent (trace : TraceContext) (header : string) :
  (parseTraceparent (formatTraceparent trace) = Some (traceId trace, spanId trace)
   <-> ~ In "-"%char (list_ascii_of_string (traceId trace))
       /\ ~ In "-"%char (list_ascii_of_string (spanId trace)))
  /\ (exists ids, parseTraceparent (formatTraceparent trace) = Some ids)
  /\ (parseTraceparent header = None
      <-> (count_occ Ascii.ascii_dec (list_ascii_of_string header) "-"%char < 2)%nat).
Proof.
  assert (Hparts :
    split_on "-" (formatTraceparent trace)
    = ("00" :: split_on "-" (traceId trace)
            ++ split_on "-" (spanId trace) ++ ["01"])%list).
  { unfold formatTraceparent.
    change ("00-" ++ traceId trace ++ "-" ++ spanId trace ++ "-01")
      with ("00" ++ String "-" (traceId trace ++ String "-"
                                  (spanId trace ++ String "-" "01"))).
    rewrite !split_on_app. reflexivity. }
  destruct (split_on_first "-" (traceId trace))
    as (t1 & ts & Ht & Htle & Htno & Htyes).
  destruct (split_on_first "-" (spanId trace))
    as (s1 & ss & Hs & Hsle & Hsno & Hsyes).
  assert (Hparsed :
    parseTraceparent (formatTraceparent trace)
    = Some (t1, match ts with [] => s1 | t2 :: _ => t2 end)).
  { unfold parseTraceparent. rewrite Hparts, Ht, Hs.
    destruct ts as [| t2 ts]; reflexivity. }
  split; [| split].
  - rewrite Hparsed. split.
    + intros [= E1 E2].
      assert (Hnt : ~ In "-"%char (list_ascii_of_string (traceId trace))).
      { intros Hin. specialize (Htyes Hin). rewrite E1 in Htyes. lia. }
      split; [exact Hnt |].
      destruct (Htno Hnt) as [_ ->].
      intros Hin. specialize (Hsyes Hin). rewrite E2 in Hsyes. lia.
    + intros [Hnt Hns].
      destruct (Htno Hnt) as [-> ->]. destruct (Hsno Hns) as [-> _]. reflexivity.
  - eexists. exact Hparsed.
  - unfold parseTraceparent. rewrite split_on_length.
    destruct (Nat.ltb_spec
                (S (count_occ Ascii.ascii_dec (list_ascii_of_string header) "-"%char)) 3);
      split; intros; try discriminate; try reflexivity; lia.
Qed.

(** ** Names of signals *)

Lemma hex_digits (d : Hexadecimal.uint) :
  Forall (fun c => In c (list_ascii_of_string "0123456789abcdef-"))
         (list_ascii_of_string (HexadecimalString.NilEmpty.string_of_uint d)).
Proof.
  induction d; simpl; constructor; try exact IHd; simpl; tauto.
Qed.

Lemma hex_int_digits (z : Z) :
  Forall (fun c => In c (list_ascii_of_string "0123456789abcdef-"))
         (list_ascii_of_string
            (HexadecimalString.NilZero.string_of_int (Z.to_hex_int z))).
Proof.
  assert (Hu : forall d,
    Forall (fun c => In c (list_ascii_of_string "0123456789abcdef-"))
           (list_ascii_of_string (HexadecimalString.NilZero.string_of_uint d))).
  { intros d. pose proof (hex_digits d) as H.
    destruct d; try exact H. simpl. constructor; [simpl; tauto | constructor]. }
  destruct z as [| p | p]; simpl.
  - constructor; [simpl; tauto | constructor].
  - apply Hu.
  - constructor; [simpl; tauto | apply Hu].
Qed.

Lemma lower_upper_hex (c : ascii) :
  In c (list_ascii_of_string "0123456789abcdef-") -> lower (upper c) = c.
Proof.
  simpl. intros H.
  repeat (destruct H as [<- | H]; [reflexivity |]). contradiction.
Qed.

Lemma lower_upper_string (s : string) :
  Forall (fun c => In c (list_ascii_of_string "0123456789abcdef-"))
         (list_ascii_of_string s) ->
  lower_string (upper_string s) = s.
Proof.
  induction s as [| c s IH]; [reflexivity |].
  simpl. intros H. inversion H; subst.
  rewrite lower_upper_hex, IH by assumption. reflexivity.
Qed.

Lemma hex_upper_inj (a b : Z) : hex_upper a = hex_upper b -> a = b.
Proof.
  unfold hex_upper. intros H.
  apply (f_equal lower_string) in H.
  rewrite !lower_upper_string in H by apply hex_int_digits.
  apply (f_equal HexadecimalString.NilZero.int_of_string) in H.
  assert (Hproper : forall z,
            Z.to_hex_int z <> Hexadecimal.Pos Hexadecimal.Nil
            /\ Z.to_hex_int z <> Hexadecimal.Neg Hexadecimal.Nil).
  { intros [| p | p]; simpl; split; try discriminate;
      intros [= E]; now apply HexadecimalPos.Unsigned.to_uint_nonnil in E. }
  rewrite !HexadecimalString.NilZero.isi in H by apply Hproper.
  injection H as H. now apply HexadecimalZ.to_int_inj.
Qed.

Lemma prefix_self_append (a b : string) : String.prefix a (a ++ b) = true.
Proof.
  induction a as [| c a IH]; simpl; [now destruct b |].
  destruct (Ascii.ascii_dec c c); [exact IH | contradiction].
Qed.

(** X25: [getSignalName] gives each of the thirteen signal types its key,
    and every other code the name [UNKNOWN_] followed by the code in upper
    case hexadecimal; two codes never get the same name. *)
Theorem getSignalName_injective (a b : Z) :
  (getSignalName a = getSignalName b <-> a = b)
  /\ (forall entry, In entry SignalTypes.entries ->
        getSignalName (snd entry) = fst entry)
  /\ ((forall entry, In entry SignalTypes.entries -> snd entry <> a) ->
      getSignalName a = "UNKNOWN_" ++ hex_upper a).
Proof.
  split; [| split].
  - split; [| now intros ->].
    assert (Hnames :
      forallb (fun e1 =>
                 forallb (fun e2 : string * Z =>
                            implb (fst e1 =? fst e2)%string (snd e1 =? snd e2)%Z)
                         SignalTypes.entries) SignalTypes.entries = true)
      by (vm_compute; reflexivity).
    assert (Hknown :
      forallb (fun e : string * Z => negb (String.prefix "UNKNOWN_" (fst e)))
              SignalTypes.entries = true)
      by (vm_compute; reflexivity).
    rewrite forallb_forall in Hnames, Hknown.
    unfold getSignalName.
    destruct (find (fun entry => (snd entry =? a)%Z) SignalTypes.entries)
      as [ea |] eqn:Ea;
      destruct (find (fun entry => (snd entry =? b)%Z) SignalTypes.entries)
        as [eb |] eqn:Eb.
    + apply find_some in Ea, Eb. destruct Ea as [Ia Ha], Eb as [Ib Hb].
      apply Z.eqb_eq in Ha, Hb. intros E.
      specialize (Hnames ea Ia). rewrite forallb_forall in Hnames.
      specialize (Hnames eb Ib). rewrite E, String.eqb_refl in Hnames.
      simpl in Hnames. apply Z.eqb_eq in Hnames. congruence.
    + apply find_some in Ea. destruct Ea as [Ia _]. intros E.
      specialize (Hknown ea Ia). rewrite E, prefix_self_append in Hknown.
      discriminate.
    + apply find_some in Eb. destruct Eb as [Ib _]. intros E.
      specialize (Hknown eb Ib). rewrite <- E, prefix_self_append in Hknown.
      discriminate.
    + intros E. apply hex_upper_inj.
      change ("UNKNOWN_" ++ hex_upper a) with
        (String "U" (String "N" (String "K" (String "N" (String "O" (String "W"
           (String "N" (String "_" (hex_upper a))))))))) in E.
      change ("UNKNOWN_" ++ hex_upper b) with
        (String "U" (String "N" (String "K" (String "N" (String "O" (String "W"
           (String "N" (String "_" (hex_upper b))))))))) in E.
      now injection E.
  - intros entry Hin. simpl in Hin.
    repeat (destruct Hin as [<- | Hin]; [reflexivity |]). contradiction.
  - intros Hnone. unfold getSignalName.
    destruct (find (fun entry => (snd entry =? a)%Z) SignalTypes.entries)
      as [ea |] eqn:Ea; [| reflexivity].
    apply find_some in Ea. destruct Ea as [Ia Ha]. apply Z.eqb_eq in Ha.
    now apply Hnone in Ia.
Qed.

(** ** Finding a learned lesson again *)

Lemma set_from_In (acc l : list string) (x : string) :
  In x (set_from acc l) <-> In x acc \/ In x l.
Proof.
  revert acc. induction l as [| y l IH]; intros acc; simpl; [tauto |].
  destruct (existsb (String.eqb y) acc) eqn:E; rewrite IH.
  - apply existsb_exists in E. destruct E as (z & Hz & Ez).
    apply String.eqb_eq in Ez. subst z.
    split; [tauto | intros [H | [<- | H]]; tauto].
  - rewrite in_app_iff. simpl. tauto.
Qed.

Lemma set_from_NoDup (acc l : list string) : NoDup acc -> NoDup (set_from acc l).
Proof.
  revert acc. induction l as [| y l IH]; intros acc Hacc; simpl; [exact Hacc |].
  destruct (existsb (String.eqb y) acc) eqn:E; apply IH; [exact Hacc |].
  apply NoDup_snoc; [exact Hacc |].
  intros Hin. assert (H : existsb (String.eqb y) acc = true).
  { apply existsb_exists. exists y. split; [exact Hin | apply String.eqb_refl]. }
  congruence.
Qed.

Lemma includes_suffix (needle before : string) :
  includes needle (before ++ needle) = true.
Proof.
  induction before as [| c before IH].
  - simpl append.
    assert (Hp : String.prefix needle needle = true).
    { clear. induction needle as [| c a IH]; simpl; [reflexivity |].
      destruct (Ascii.ascii_dec c c); [exact IH | contradiction]. }
    destruct needle; cbn [includes]; now rewrite Hp.
  - change (String c before ++ needle) with (String c (before ++ needle)).
    cbn [includes]. rewrite IH. apply orb_true_r.
Qed.

Lemma strings_of_json_of_strings (l : list string) :
  strings_of_json (json_of_strings l) = l.
Proof.
  unfold strings_of_json, json_of_strings. rewrite map_map. apply map_id.
Qed.

Section LearnedAndFound.

Context {codec : JSON} {strings : Strings}.

(** X26: a lesson learned from episodes is found again by its operation
    types: called at the instant of the learning with the operation type
    of one of the episodes, and with a threshold up to the confidence of
    the result, [getLessons] returns the new lesson.  The lesson carries
    the contexts of the episodes without duplicates, among them
    [operation:] followed by each operation type, which is what the
    filter matches.  The platform has to read the stored contexts back,
    and lower-casing has to distribute over the concatenation that forms
    the context. *)
Theorem learned_lesson_found_by_type
  (now : Z) (input : LearnFromPatternInput) (s s' : Store) (r : LearnFromPatternResult)
  (e : Episode) (minConfidence : R) :
  let resolved := selected_by_ids s (lfi_episode_ids input) in
  let contexts := learned_contexts resolved in
  learnFromPattern now input s = Ok (s', r) ->
  truthy_string (JSON_stringify (json_of_strings contexts)) = true ->
  JSON_parse (JSON_stringify (json_of_strings contexts)) = json_of_strings contexts ->
  In e resolved ->
  e_operation_type e <> EmptyString ->
  toLowerCase ("operation:" ++ e_operation_type e)
  = toLowerCase "operation:" ++ toLowerCase (e_operation_type e) ->
  minConfidence <= lfr_initial_confidence r ->
  NoDup contexts
  /\ In ("operation:" ++ e_operation_type e) contexts
  /\ exists lw,
       In lw (lsr_lessons
                (getLessons now
                   {| gli_context := None;
                      gli_operation_type := Some (e_operation_type e);
                      gli_min_confidence := Some minConfidence |} s'))
       /\ l_id (lesson lw) = lfr_lesson_id r
       /\ l_contexts (lesson lw) = Some contexts
       /\ current_confidence lw = lfr_initial_confidence r.
Proof.
  intros resolved contexts Hlearn Htext Hback He Hty Hlower Hmin.
  assert (Hctx : In ("operation:" ++ e_operation_type e) contexts).
  { unfold contexts, learned_contexts. apply set_from_In. right.
    apply in_or_app. right. apply in_map_iff.
    exists (e_operation_type e). split; [reflexivity |].
    apply set_from_In. right. now apply in_map. }
  split; [apply set_from_NoDup; constructor |]. split; [exact Hctx |].
  destruct (learnFromPattern_lesson _ _ _ _ _ Hlearn)
    as (row & pid & Hl & Hid & _ & _ & Hconf & _ & _ & Hrc & Hri & _ & Hval & _
        & _ & _ & Hdep).
  fold resolved in Hrc, Hconf, Hri. fold contexts in Hrc.
  set (lw := with_current_confidence now row).
  assert (Hcc : current_confidence lw = lfr_initial_confidence r).
  { unfold lw, with_current_confidence. cbn [current_confidence rowToLesson
      l_initial_confidence l_decay_constant l_last_validated].
    rewrite Hval, Hri, Hconf. apply currentConfidence_at_validation. }
  assert (Hlc : l_contexts (lesson lw) = Some contexts).
  { unfold lw, with_current_confidence. cbn [lesson rowToLesson l_contexts].
    rewrite Hrc, Htext, Hback. now rewrite strings_of_json_of_strings. }
  exists lw. split; [| split; [symmetry; exact Hid | split; [exact Hlc | exact Hcc]]].
  unfold getLessons.
  cbn [gli_context gli_operation_type gli_min_confidence or_else lsr_lessons].
  unfold truthy_string.
  destruct (String.eqb_spec (e_operation_type e) EmptyString) as [E | _];
    [contradiction |].
  cbn [negb]. apply order_by_desc_In, filter_In. split.
  - apply getActiveLessons_In. exists row. rewrite Hcc.
    split; [rewrite Hl; apply in_or_app; right; now left |]. auto.
  - unfold matches_operation_type.
    destruct (mentions (l_statement (lesson lw)) (e_operation_type e));
      [reflexivity |].
    rewrite Hlc.
    assert (Hex : existsb (fun c => mentions c (e_operation_type e)) contexts = true).
    { apply existsb_exists. exists ("operation:" ++ e_operation_type e).
      split; [exact Hctx |]. unfold mentions. rewrite Hlower.
      apply includes_suffix. }
    now rewrite Hex.
Qed.

End LearnedAndFound.

Lemma learned_lesson_found_by_type_witness :
  exists s' r lw,
    learnFromPattern 5000 sample_learning sample_episodes = Ok (s', r)
    /\ In lw (lsr_lessons
                (getLessons 5000
                   {| gli_context := None;
                      gli_operation_type := Some "build";
                      gli_min_confidence := Some 0.3 |} s'))
    /\ l_id (lesson lw) = lfr_lesson_id r.
Proof.
  destruct (learnFromPattern_sufficient 5000 sample_learning sample_episodes
              ltac:(vm_compute; discriminate))
    as (s' & r & pid & p & l & Hlearn & _ & _ & _ & _ & Hc & Hr);
    [vm_compute; lia |].
  destruct (learned_lesson_found_by_type 5000 sample_learning sample_episodes s' r
              (rowToEpisode (sample_episode_row 1 1000 success)) 0.3 Hlearn)
    as (_ & _ & lw & Hin & Hid & _).
  - apply MiniJsonFacts.print_truthy.
  - apply MiniJsonFacts.parse_print.
  - left. reflexivity.
  - discriminate.
  - reflexivity.
  - rewrite Hr, Hc. apply learned_confidence_clamped.
  - exists s', r, lw. split; [exact Hlearn |]. split; [exact Hin | exact Hid].
Defined.
